(** * RAFCON core: the abstract [State] and the leaf [ExecutionState]

    A shallow embedding of

    - [source/rafcon/core/states/state.py] (class [State]: outcomes, data
      ports, the three event flags, [finalize], [destruct],
      [get_default_input_values_for_state]) and
    - [source/rafcon/statemachine/states/execution_state.py] (class
      [ExecutionState]: [_execute] and [run]),

    together with the properties of the specification that concern them.

    Python objects are mutable and methods raise exceptions, so every method
    is a computation in a state-and-exception monad [M] over the record
    [State]: a method returns a value or raises, and in both cases leaves a
    state behind.  Dictionaries are finite maps ([gmap]); wherever the source
    iterates over a dictionary, the embedding folds over [iteritems], an
    arbitrary enumeration of the entries, so that nothing proved below depends
    on CPython's iteration order. *)

From Stdlib Require Import Ascii.
From stdpp Require Import gmap strings list fin_maps.

Open Scope Z_scope.

(** ** Python values *)

(** The exception classes raised in the two modules, and the classes a user
    script may raise: a class [UserException cls] derives from [Exception];
    [SystemExit] (raised by [sys.exit()]), [KeyboardInterrupt],
    [GeneratorExit] and a class [UserBaseException cls] derive from
    [BaseException] only. *)
Inductive ExcClass : Type :=
  | TypeError
  | ValueError
  | AttributeError
  | KeyError
  | UserException (cls : string)
  | SystemExit
  | KeyboardInterrupt
  | GeneratorExit
  | UserBaseException (cls : string).

(** [issubclass(cls, Exception)]: what a clause [except Exception] handles. *)
Definition is_Exception (cls : ExcClass) : bool :=
  match cls with
  | SystemExit | KeyboardInterrupt | GeneratorExit | UserBaseException _ => false
  | _ => true
  end.

(** [rafcon.core.state_elements.outcome.Outcome]: an exit point of a state.
    The weak back reference to the owning state is not part of the value. *)
Record Outcome : Type := mkOutcome {
  outcome_id : Z;
  outcome_name : string
}.

(** Python types, as far as they occur as [data_type] of a port. *)
Inductive DataType : Type :=
  | T_object
  | T_int
  | T_bool
  | T_str
  | T_tuple.

(** The mutable containers of Python, which cannot be hashed. *)
Inductive ContainerKind : Type :=
  | PyList
  | PyDict
  | PySet.

(** The Python objects that travel through port data, queues, script return
    values, log records and exception arguments.  Python's [True] and
    [False] are the integers 1 and 0 as dictionary keys (see [dict_key]).
    [VInt z] is an integer as a script computes it: an [int] within the
    range of [sys.maxint], and a [long] beyond it in the Python 2 of the
    sources (see [isinstance]); [VLong z] is a [long] of any size.
    [VContainer kind items] is a list, a dict (given by its items) or a
    set. *)
#[warnings="-register-all"]
Inductive Value : Type :=
  | VNone
  | VBool (b : bool)
  | VInt (z : Z)
  | VStr (s : string)
  | VTuple (vs : list Value)
  | VOutcome (o : Outcome)
  | VType (t : DataType)
  | VExc (e : PyExc)
  | VLong (z : Z)
  | VContainer (kind : ContainerKind) (items : list Value)
with PyExc : Type :=
  | Exc (cls : ExcClass) (message : string) (args : list Value).

Definition exc_class (e : PyExc) : ExcClass :=
  match e with Exc cls _ _ => cls end.

(** [isinstance(v, t)]; a [bool] is an [int], a [long] is not.  [maxint] is
    [sys.maxint] of the platform: an integer outside the range from
    [-maxint - 1] to [maxint] is a [long] even when it is written [VInt z]. *)
Definition isinstance (maxint : Z) (v : Value) (t : DataType) : bool :=
  match t, v with
  | T_object, _ => true
  | T_int, VInt z => bool_decide (- maxint - 1 ≤ z ≤ maxint)
  | T_int, VBool _ => true
  | T_bool, VBool _ => true
  | T_str, VStr _ => true
  | T_tuple, VTuple _ => true
  | _, _ => false
  end.

(** The key under which a hashable Python value is looked up in a
    dictionary whose keys are integers: [x in d] holds for an [int], [long]
    or [bool] equal to a key and for no other hashable object. *)
Definition dict_key (v : Value) : option Z :=
  match v with
  | VInt z | VLong z => Some z
  | VBool b => Some (if b then 1 else 0)
  | _ => None
  end.

(** [hash(v)] returns: a list, a dict or a set cannot be hashed, nor can a
    tuple that holds one; every other object can. *)
Fixpoint hashable (v : Value) : bool :=
  match v with
  | VContainer _ _ => false
  | VTuple vs => forallb hashable vs
  | _ => true
  end.

(** ** State elements *)

(** [rafcon.core.state_elements.data_port.DataPort]; the direction is given
    by the dictionary that holds the port. *)
Record DataPort : Type := mkDataPort {
  data_port_id : Z;
  port_name : string;
  data_type : DataType;
  default_value : Value
}.

Inductive Direction : Type := Input | Output.

(** Transitions and data flows of the parent container, as far as
    [State.remove_outcome] and [State.remove_data_flows_with_data_port_id]
    read them. *)
Record Transition : Type := mkTransition {
  from_state : option string;
  from_outcome : option Z;
  to_state : option string;
  to_outcome : option Z
}.

Record DataFlow : Type := mkDataFlow {
  df_from_state : string;
  from_key : Z;
  df_to_state : string;
  to_key : Z
}.

Record ContainerState : Type := mkContainerState {
  transitions : gmap Z Transition;
  data_flows : gmap Z DataFlow
}.

(** [StateType] and [StateExecutionStatus], the two enumerations at the end
    of [state.py]. *)
Inductive StateType : Type :=
  | EXECUTION
  | HIERARCHY
  | BARRIER_CONCURRENCY
  | PREEMPTION_CONCURRENCY
  | LIBRARY
  | DECIDER_STATE.

Inductive StateExecutionStatus : Type :=
  | INACTIVE
  | ACTIVE
  | EXECUTE_CHILDREN
  | WAIT_FOR_NEXT_STATE.

Inductive LogLevel : Type := DEBUG | ERROR.

(** One call of [logger.debug] or [logger.error]: the format string and the
    objects formatted into it. *)
Record LogRecord : Type := mkLogRecord {
  log_level : LogLevel;
  log_format : string;
  log_args : list Value
}.

(** ** The state object *)

(** The attributes of a [State] instance that the embedded methods read or
    write, under their names in [State.__init__].  [state_type] stands for
    the class of the object ([isinstance] tests), [_parent] is [Some] when
    the parent is a state (the state is then not a root state), the two
    runtime-value dictionaries are those of a [LibraryState], and [logger]
    holds the records written to the module logger. *)
Record State : Type := mkState {
  state_type : StateType;
  _state_id : string;
  _name : string;
  _input_data_ports : gmap Z DataPort;
  _output_data_ports : gmap Z DataPort;
  _outcomes : gmap Z Outcome;
  _input_data : gmap string Value;
  _output_data : gmap string Value;
  _preempted : bool;
  _started : bool;
  _paused : bool;
  _concurrency_queue : option (list Value);
  _final_outcome : option Outcome;
  _state_execution_status : StateExecutionStatus;
  backward_execution : bool;
  _parent : option ContainerState;
  use_runtime_value_input_data_ports : gmap Z bool;
  input_data_port_runtime_values : gmap Z Value;
  logger : list LogRecord
}.

(** Attribute assignment. *)
Definition with_input_data_ports (v : gmap Z DataPort) (s : State) : State :=
  mkState (state_type s) (_state_id s) (_name s) v (_output_data_ports s)
    (_outcomes s) (_input_data s) (_output_data s) (_preempted s) (_started s)
    (_paused s) (_concurrency_queue s) (_final_outcome s)
    (_state_execution_status s) (backward_execution s) (_parent s)
    (use_runtime_value_input_data_ports s) (input_data_port_runtime_values s)
    (logger s).

Definition with_output_data_ports (v : gmap Z DataPort) (s : State) : State :=
  mkState (state_type s) (_state_id s) (_name s) (_input_data_ports s) v
    (_outcomes s) (_input_data s) (_output_data s) (_preempted s) (_started s)
    (_paused s) (_concurrency_queue s) (_final_outcome s)
    (_state_execution_status s) (backward_execution s) (_parent s)
    (use_runtime_value_input_data_ports s) (input_data_port_runtime_values s)
    (logger s).

Definition with_outcomes (v : gmap Z Outcome) (s : State) : State :=
  mkState (state_type s) (_state_id s) (_name s) (_input_data_ports s)
    (_output_data_ports s) v (_input_data s) (_output_data s) (_preempted s)
    (_started s) (_paused s) (_concurrency_queue s) (_final_outcome s)
    (_state_execution_status s) (backward_execution s) (_parent s)
    (use_runtime_value_input_data_ports s) (input_data_port_runtime_values s)
    (logger s).

Definition with_output_data (v : gmap string Value) (s : State) : State :=
  mkState (state_type s) (_state_id s) (_name s) (_input_data_ports s)
    (_output_data_ports s) (_outcomes s) (_input_data s) v (_preempted s)
    (_started s) (_paused s) (_concurrency_queue s) (_final_outcome s)
    (_state_execution_status s) (backward_execution s) (_parent s)
    (use_runtime_value_input_data_ports s) (input_data_port_runtime_values s)
    (logger s).

Definition with_preempted (v : bool) (s : State) : State :=
  mkState (state_type s) (_state_id s) (_name s) (_input_data_ports s)
    (_output_data_ports s) (_outcomes s) (_input_data s) (_output_data s) v
    (_started s) (_paused s) (_concurrency_queue s) (_final_outcome s)
    (_state_execution_status s) (backward_execution s) (_parent s)
    (use_runtime_value_input_data_ports s) (input_data_port_runtime_values s)
    (logger s).

Definition with_started (v : bool) (s : State) : State :=
  mkState (state_type s) (_state_id s) (_name s) (_input_data_ports s)
    (_output_data_ports s) (_outcomes s) (_input_data s) (_output_data s)
    (_preempted s) v (_paused s) (_concurrency_queue s) (_final_outcome s)
    (_state_execution_status s) (backward_execution s) (_parent s)
    (use_runtime_value_input_data_ports s) (input_data_port_runtime_values s)
    (logger s).

Definition with_paused (v : bool) (s : State) : State :=
  mkState (state_type s) (_state_id s) (_name s) (_input_data_ports s)
    (_output_data_ports s) (_outcomes s) (_input_data s) (_output_data s)
    (_preempted s) (_started s) v (_concurrency_queue s) (_final_outcome s)
    (_state_execution_status s) (backward_execution s) (_parent s)
    (use_runtime_value_input_data_ports s) (input_data_port_runtime_values s)
    (logger s).

Definition with_concurrency_queue (v : option (list Value)) (s : State) : State :=
  mkState (state_type s) (_state_id s) (_name s) (_input_data_ports s)
    (_output_data_ports s) (_outcomes s) (_input_data s) (_output_data s)
    (_preempted s) (_started s) (_paused s) v (_final_outcome s)
    (_state_execution_status s) (backward_execution s) (_parent s)
    (use_runtime_value_input_data_ports s) (input_data_port_runtime_values s)
    (logger s).

Definition with_final_outcome (v : option Outcome) (s : State) : State :=
  mkState (state_type s) (_state_id s) (_name s) (_input_data_ports s)
    (_output_data_ports s) (_outcomes s) (_input_data s) (_output_data s)
    (_preempted s) (_started s) (_paused s) (_concurrency_queue s) v
    (_state_execution_status s) (backward_execution s) (_parent s)
    (use_runtime_value_input_data_ports s) (input_data_port_runtime_values s)
    (logger s).

Definition with_state_execution_status (v : StateExecutionStatus) (s : State) : State :=
  mkState (state_type s) (_state_id s) (_name s) (_input_data_ports s)
    (_output_data_ports s) (_outcomes s) (_input_data s) (_output_data s)
    (_preempted s) (_started s) (_paused s) (_concurrency_queue s)
    (_final_outcome s) v (backward_execution s) (_parent s)
    (use_runtime_value_input_data_ports s) (input_data_port_runtime_values s)
    (logger s).

Definition with_parent (v : option ContainerState) (s : State) : State :=
  mkState (state_type s) (_state_id s) (_name s) (_input_data_ports s)
    (_output_data_ports s) (_outcomes s) (_input_data s) (_output_data s)
    (_preempted s) (_started s) (_paused s) (_concurrency_queue s)
    (_final_outcome s) (_state_execution_status s) (backward_execution s) v
    (use_runtime_value_input_data_ports s) (input_data_port_runtime_values s)
    (logger s).

Definition with_logger (v : list LogRecord) (s : State) : State :=
  mkState (state_type s) (_state_id s) (_name s) (_input_data_ports s)
    (_output_data_ports s) (_outcomes s) (_input_data s) (_output_data s)
    (_preempted s) (_started s) (_paused s) (_concurrency_queue s)
    (_final_outcome s) (_state_execution_status s) (backward_execution s)
    (_parent s) (use_runtime_value_input_data_ports s)
    (input_data_port_runtime_values s) v.

(** ** The monad of methods *)

(** A call either returns a value or raises an exception. *)
Inductive result (A : Type) : Type :=
  | Return (a : A)
  | Raise (e : PyExc).

Arguments Return {A} a.
Arguments Raise {A} e.

(** A method of a state: from the state before the call to the way the call
    ends and the state after it. *)
Definition M (A : Type) : Type := State → result A * State.

#[global] Instance M_ret : MRet M := λ A a s, (Return a, s).

#[global] Instance M_bind : MBind M := λ A B f m s,
  match m s with
  | (Return a, s') => f a s'
  | (Raise e, s') => (Raise e, s')
  end.

Definition get : M State := λ s, (Return s, s).

Definition gets {A : Type} (f : State → A) : M A := λ s, (Return (f s), s).

Definition modify (f : State → State) : M unit := λ s, (Return tt, f s).

Definition raise {A : Type} (e : PyExc) : M A := λ s, (Raise e, s).

(** [try: body  except: handler e].  The handler is given every exception;
    an [except] clause for a class is a handler that raises the exceptions
    of other classes again (see [except_ValueError], [except_Exception]). *)
Definition try_except {A : Type} (body : M A) (handler : PyExc → M A) : M A :=
  λ s,
    match body s with
    | (Return a, s') => (Return a, s')
    | (Raise e, s') => handler e s'
    end.

(** [for x in xs: body x]; an exception leaves the loop. *)
Fixpoint for_each {A : Type} (xs : list A) (body : A → M unit) : M unit :=
  match xs with
  | [] => mret tt
  | x :: xs' => body x ;; for_each xs' body
  end.

Definition logger_debug (fmt : string) (args : list Value) : M unit :=
  modify (λ s, with_logger (logger s ++ [mkLogRecord DEBUG fmt args]) s).

Definition logger_error (fmt : string) (args : list Value) : M unit :=
  modify (λ s, with_logger (logger s ++ [mkLogRecord ERROR fmt args]) s).

(** A validity verdict: the pair [(valid, message)] of the check methods; a
    message is a format string with the objects formatted into it. *)
Definition Message : Type := string * list Value.

Definition valid : bool * Message := (true, ("valid", [])).

Definition error_of (cls : ExcClass) (message : Message) : PyExc :=
  Exc cls message.1 message.2.

(** [k in d] for a dictionary and a key of its key type. *)
Definition dict_in `{Countable K} {A : Type} (k : K) (d : gmap K A) : bool :=
  match d !! k with Some _ => true | None => false end.

(** Whether a hashable object [x] is a key of a dictionary with integer
    keys. *)
Definition key_in {A : Type} (x : Value) (d : gmap Z A) : bool :=
  match dict_key x with Some k => dict_in k d | None => false end.

(** [TypeError: unhashable type], raised when an object is hashed. *)
Definition unhashable_type (x : Value) : PyExc :=
  Exc TypeError "unhashable type: '{0}'" [x].

(** [x in d] for an arbitrary Python object [x] and a dictionary with
    integer keys: the object is hashed, which raises [TypeError] for an
    unhashable one. *)
Definition value_in {A : Type} (x : Value) (d : gmap Z A) : M bool :=
  if hashable x then mret (key_in x d) else raise (unhashable_type x).

(** [x == name] for an arbitrary Python object [x] and a string. *)
Definition value_eq_str (x : Value) (name : string) : bool :=
  match x with VStr s => bool_decide (s = name) | _ => false end.

(** The object handed to a validity check.  The checks compare objects with
    [is]: [stored] tells whether the checked object is the very object the
    state holds under the same id (in the dictionary of that direction, for
    a port), or an object that is not (yet) held by the state. *)
Inductive Child : Type :=
  | COutcome (outcome : Outcome) (stored : bool)
  | CDataPort (data_port : DataPort) (stored : option Direction)
  | COther.

(** [State.is_root_state]: the parent is not a state. *)
Definition is_root_state (self : State) : bool :=
  match _parent self with Some _ => false | None => true end.

(** [isinstance(self, ContainerState)] and [isinstance(state, LibraryState)]. *)
Definition is_container_state (self : State) : bool :=
  match state_type self with
  | HIERARCHY | BARRIER_CONCURRENCY | PREEMPTION_CONCURRENCY => true
  | _ => false
  end.

Definition is_library_state (self : State) : bool :=
  match state_type self with LIBRARY => true | _ => false end.

(** [str(self)], as the arguments of its format string. *)
Definition str_of_state (self : State) : Value :=
  VTuple [VStr (_name self); VStr (_state_id self)].

(** ** Concrete collaborators and states

    Used to run the methods on explicit inputs. *)

(** Dictionary iteration in the order of the keys of the finite map. *)
Definition key_order_iteritems (A : Type) (d : gmap Z A) : list (Z * A) :=
  map_to_list d.

(** An id generator that counts up from 0 until the id is not in use. *)
Fixpoint first_unused_id (fuel : nat) (candidate : Z) (used : list Z) : Z :=
  match fuel with
  | O => candidate
  | S fuel' =>
      if bool_decide (candidate ∈ used)
      then first_unused_id fuel' (candidate + 1) used
      else candidate
  end.

Definition counting_id_generator (used : list Z) : Z :=
  first_unused_id (length used) 0 used.

(** A [DataPort] constructor that accepts all arguments, and containers
    whose data flows accept every port. *)
Definition no_init_error (data_port : DataPort) : option PyExc := None.

Definition parent_accepts (parent : ContainerState) (self : State)
    (data_port : DataPort) : bool * Message := valid.

Definition container_accepts (self : State) (data_port : DataPort)
    : bool * Message := valid.

(** The state object before [State.__init__] has run; only the module
    logger matters. *)
Definition blank : State :=
  mkState EXECUTION "" "" ∅ ∅ ∅ ∅ ∅ false false false None None INACTIVE false
    None ∅ ∅ [].

(** The root execution state ["A"] that [State.__init__] builds from default
    arguments: outcomes 0 (success), -1 (aborted) and -2 (preempted). *)
Definition state_A : State :=
  mkState EXECUTION "A" "Untitled" ∅ ∅
    {[ 0 := mkOutcome 0 "success"; -1 := mkOutcome (-1) "aborted";
       -2 := mkOutcome (-2) "preempted" ]}
    ∅ ∅ false false false None None INACTIVE false None ∅ ∅ [].

(** ["A"] with an input port ["input"] (id 0) and an output port ["output"]
    (id 1). *)
Definition state_B : State :=
  mkState EXECUTION "B" "Untitled"
    {[ 0 := mkDataPort 0 "input" T_str (VStr "zero") ]}
    {[ 1 := mkDataPort 1 "output" T_int VNone ]}
    {[ 0 := mkOutcome 0 "success"; -1 := mkOutcome (-1) "aborted";
       -2 := mkOutcome (-2) "preempted" ]}
    ∅ ∅ false false false None None INACTIVE false None ∅ ∅ [].

(** ["A"] as a child of a concurrency state, with an empty join queue. *)
Definition state_A_in_group : State :=
  with_concurrency_queue (Some []) state_A.

(** ["A"], started for backward execution. *)
Definition state_A_backward : State :=
  mkState EXECUTION "A" "Untitled" ∅ ∅
    {[ 0 := mkOutcome 0 "success"; -1 := mkOutcome (-1) "aborted";
       -2 := mkOutcome (-2) "preempted" ]}
    ∅ ∅ false false false None None INACTIVE true None ∅ ∅ [].

(** A state with an input port whose default refers to the global variable
    ["x"]. *)
Definition state_G : State :=
  mkState EXECUTION "G" "Untitled"
    {[ 0 := mkDataPort 0 "port" T_int (VStr "$x") ]} ∅
    {[ 0 := mkOutcome 0 "success"; -1 := mkOutcome (-1) "aborted";
       -2 := mkOutcome (-2) "preempted" ]}
    ∅ ∅ false false false None None INACTIVE false None ∅ ∅ [].

(** Scripts: a module that builds, a body that returns a given object, and
    a body that raises a given exception. *)
Definition module_builds : M unit := mret tt.

Definition script_returning (outcome_item : Value) (backward : bool) : M Value :=
  mret outcome_item.

Definition script_raising (e : PyExc) (backward : bool) : M Value := raise e.

Definition boom : PyExc := Exc (UserException "RuntimeError") "boom" [].

(** ["A"] as [State.__init__] leaves it, the debug record of the constructor
    included. *)
Definition state_A_constructed : State :=
  with_logger
    [mkLogRecord DEBUG "New {0} created" [VTuple [VStr "Untitled"; VStr "A"]]]
    state_A.

(** An outcomes dictionary that uses the name of a reserved outcome for
    another id. *)
Definition outcomes_with_taken_name : gmap Z Outcome :=
  {[ 0 := mkOutcome 0 "aborted" ]}.

(** A container with two transitions and three data flows, and its child
    ["C"]: the transition 0 leaves the outcome 0 of ["C"], the data flow 0
    starts at the output port 1 of ["C"], the data flow 1 ends at its input
    port 0, and the transition 1 and the data flow 2 do not touch ["C"]. *)
Definition parent_of_C : ContainerState :=
  mkContainerState
    {[ 0 := mkTransition (Some "C") (Some 0) (Some "D") None;
       1 := mkTransition (Some "D") (Some 0) None (Some 0) ]}
    {[ 0 := mkDataFlow "C" 1 "D" 0;
       1 := mkDataFlow "P" 0 "C" 0;
       2 := mkDataFlow "D" 1 "P" 2 ]}.

Definition state_C : State :=
  mkState EXECUTION "C" "Untitled"
    {[ 0 := mkDataPort 0 "input" T_str (VStr "zero") ]}
    {[ 1 := mkDataPort 1 "output" T_int VNone ]}
    {[ 0 := mkOutcome 0 "success"; -1 := mkOutcome (-1) "aborted";
       -2 := mkOutcome (-2) "preempted" ]}
    ∅ ∅ false false false None None INACTIVE false (Some parent_of_C) ∅ ∅ [].

(** ["B"] with the integer 7 as input data for its port ["input"], which
    takes strings, and the [long] 7 as output data for its port ["output"],
    which takes [int]s. *)
Definition state_B_with_data : State :=
  mkState EXECUTION "B" "Untitled"
    {[ 0 := mkDataPort 0 "input" T_str (VStr "zero") ]}
    {[ 1 := mkDataPort 1 "output" T_int VNone ]}
    {[ 0 := mkOutcome 0 "success"; -1 := mkOutcome (-1) "aborted";
       -2 := mkOutcome (-2) "preempted" ]}
    {[ "input" := VInt 7 ]} {[ "output" := VLong 7 ]}
    false false false None None INACTIVE false None ∅ ∅ [].

(** A script body that is preempted while it runs, and returns a given
    object. *)
Definition script_preempted (outcome_item : Value) (backward : bool) : M Value :=
  modify (with_preempted true) ;; mret outcome_item.

(** The exception of [sys.exit(0)], and an empty list. *)
Definition exit_request : PyExc := Exc SystemExit "0" [VInt 0].

Definition empty_list : Value := VContainer PyList [].

(** ["A"] after a request for preemption. *)
Definition state_A_preempted : State := with_preempted true state_A.

(** [sys.maxint] of a 64-bit platform. *)
Definition maxint64 : Z := 2 ^ 63 - 1.

(** * The methods of [State]

    The decorators [lock_state_machine] and [Observable.observed] serialize
    a call and notify observers outside the core; they do not change what a
    method does to the state and are left out. *)

Section StateMachine.

(** ** Collaborators outside the two modules *)

(** Dictionary iteration ([iteritems], [keys], [itervalues]).  CPython
    enumerates the entries in an order of its own; every enumeration of
    exactly the entries is admitted here. *)
Variable iteritems : ∀ A : Type, gmap Z A → list (Z * A).
Hypothesis iteritems_perm :
  ∀ (A : Type) (d : gmap Z A), iteritems A d ≡ₚ map_to_list d.

(** [rafcon.core.id_generator]: the generators are given the ids in use. *)
Variable state_id_generator : string.
Variable generate_data_port_id : list Z → Z.
Variable generate_outcome_id : list Z → Z.

(** What [DataPort.__init__] checks on its own arguments (name, type,
    default value): [Some e] when the construction raises [e]. *)
Variable DataPort_init_error : DataPort → option PyExc.

(** [ContainerState.check_data_port_connection], of the parent and of the
    state itself when it is a container. *)
Variable parent_check_data_port_connection :
  ContainerState → State → DataPort → bool * Message.
Variable check_data_port_connection : State → DataPort → bool * Message.

(** [sys.maxint], the largest [int] of the platform. *)
Variable sys_maxint : Z.

(** The user script of an execution state: [Script.build_module] and
    [Script.execute(state, inputs, outputs, backward_execution)].  The script
    receives the state and its data dictionaries, runs while other threads
    may preempt the state, and returns an arbitrary object or raises. *)
Variable script_build_module : M unit.
Variable script_execute : bool → M Value.

Definition keys {A : Type} (d : gmap Z A) : list Z := (iteritems A d).*1.

Definition itervalues {A : Type} (d : gmap Z A) : list A := (iteritems A d).*2.

(** [d[k]], raising [KeyError] for a missing key. *)
Definition dict_getitem {A : Type} (d : gmap Z A) (k : Z) : M A :=
  match d !! k with
  | Some v => mret v
  | None => raise (Exc KeyError "{0}" [VInt k])
  end.

(** [d[x]] for an arbitrary Python object [x], which is hashed first. *)
Definition dict_getitem_value {A : Type} (d : gmap Z A) (x : Value) : M A :=
  if hashable x then
    match dict_key x with
    | Some k => dict_getitem d k
    | None => raise (Exc KeyError "{0}" [x])
    end
  else raise (unhashable_type x).

(** ** Check methods *)

(** The loop of [State._check_outcome_validity]. *)
Fixpoint _check_outcome_validity_loop (check_outcome : Outcome) (stored : bool)
    (entries : list (Z * Outcome)) : bool * Message :=
  match entries with
  | [] => valid
  | (outcome_id', outcome) :: rest =>
      (* check_outcome is not outcome *)
      if negb (stored && bool_decide (outcome_id' = outcome_id check_outcome)) then
        if bool_decide (outcome_id check_outcome = outcome_id') then
          (false, ("outcome id '{0}' existing in state",
                   [VInt (outcome_id check_outcome)]))
        else if bool_decide (outcome_name check_outcome = outcome_name outcome) then
          (false, ("outcome name '{0}' existing in state",
                   [VStr (outcome_name check_outcome)]))
        else _check_outcome_validity_loop check_outcome stored rest
      else _check_outcome_validity_loop check_outcome stored rest
  end.

Definition _check_outcome_validity (self : State) (check_outcome : Outcome)
    (stored : bool) : bool * Message :=
  _check_outcome_validity_loop check_outcome stored
    (iteritems _ (_outcomes self)).

(** [data_port is other], where [other] is the port the state holds under
    [key] in the dictionary of [direction]. *)
Definition same_port (data_port : DataPort) (stored : option Direction)
    (direction : Direction) (key : Z) : bool :=
  match stored, direction with
  | Some Input, Input | Some Output, Output =>
      bool_decide (key = data_port_id data_port)
  | _, _ => false
  end.

Definition _check_data_port_id (self : State) (data_port : DataPort)
    (stored : option Direction) : bool * Message :=
  if existsb (λ '(input_data_port_id, _),
        bool_decide (data_port_id data_port = input_data_port_id)
        && negb (same_port data_port stored Input input_data_port_id))
       (iteritems _ (_input_data_ports self))
  then (false, ("data port id already existing in state", []))
  else if existsb (λ '(output_data_port_id, _),
        bool_decide (data_port_id data_port = output_data_port_id)
        && negb (same_port data_port stored Output output_data_port_id))
       (iteritems _ (_output_data_ports self))
  then (false, ("data port id already existing in state", []))
  else valid.

Definition _check_data_port_name (self : State) (data_port : DataPort)
    (stored : option Direction) : bool * Message :=
  if dict_in (data_port_id data_port) (_input_data_ports self) then
    if existsb (λ '(key, input_data_port),
          bool_decide (port_name data_port = port_name input_data_port)
          && negb (same_port data_port stored Input key))
         (iteritems _ (_input_data_ports self))
    then (false, ("data port name already existing in state's input data ports", []))
    else valid
  else if dict_in (data_port_id data_port) (_output_data_ports self) then
    if existsb (λ '(key, output_data_port),
          bool_decide (port_name data_port = port_name output_data_port)
          && negb (same_port data_port stored Output key))
         (iteritems _ (_output_data_ports self))
    then (false, ("data port name already existing in state's output data ports", []))
    else valid
  else valid.

Definition _check_data_port_validity (self : State) (check_data_port : DataPort)
    (stored : option Direction) : bool * Message :=
  let '(ok, message) := _check_data_port_id self check_data_port stored in
  if negb ok then (false, message)
  else
    let '(ok, message) := _check_data_port_name self check_data_port stored in
    if negb ok then (false, message)
    else
      match _parent self with
      | Some parent =>
          (* not self.is_root_state *)
          parent_check_data_port_connection parent self check_data_port
      | None =>
          if is_container_state self
          then check_data_port_connection self check_data_port
          else valid
      end.

Definition check_child_validity (self : State) (child : Child) : bool * Message :=
  match child with
  | COutcome outcome stored => _check_outcome_validity self outcome stored
  | CDataPort data_port stored => _check_data_port_validity self data_port stored
  | COther => (false, ("no valid child type", []))
  end.

(** ** State elements entering a state *)

(** Modelled from the spec: the classes [Outcome] and [DataPort] of
    [rafcon.core.state_elements] are not among the sources.  The
    specification has a state element validated when it is attached to its
    state (section 3, lifecycle; section 4.2, validate before apply), and
    [state.py] fixes how: [check_child_validity] is the method "called by
    state child objects (outcomes, data ports) when these are initialized or
    changed", and the property setters of [State] expect [element.parent =
    self] to raise [ValueError].  [set_parent child] is that assignment made
    on the state at hand. *)
Definition set_parent (child : Child) : M unit :=
  self ← get;
  let '(ok, message) := check_child_validity self child in
  if ok then mret tt else raise (error_of ValueError message).

(** Modelled from the spec: [Outcome(outcome_id, name, parent)]; with
    [parent = true] the new outcome is attached to the state at hand, see
    [set_parent]. *)
Definition Outcome_init (outcome_id : Z) (name : string) (parent : bool) : M Outcome :=
  let outcome := mkOutcome outcome_id name in
  (if parent then set_parent (COutcome outcome false) else mret tt) ;;
  mret outcome.

(** Modelled from the spec: [InputDataPort(name, data_type, default_value,
    data_port_id, self)] and its output counterpart; the constructor checks
    its arguments, then attaches the new port, see [set_parent]. *)
Definition DataPort_init (name : string) (data_type : DataType)
    (default_value : Value) (data_port_id : Z) : M DataPort :=
  let data_port := mkDataPort data_port_id name data_type default_value in
  match DataPort_init_error data_port with
  | Some e => raise e
  | None => set_parent (CDataPort data_port None) ;; mret data_port
  end.

(** ** Data port functions *)

Definition get_data_port_ids (self : State) : list Z :=
  keys (_input_data_ports self) ++ keys (_output_data_ports self).

Definition add_input_data_port (name : string) (data_type : DataType)
    (default_value : Value) (data_port_id : option Z) : M Z :=
  self ← get;
  let data_port_id :=
    match data_port_id with
    | None => generate_data_port_id (get_data_port_ids self)
    | Some data_port_id => data_port_id
    end in
  data_port ← DataPort_init name data_type default_value data_port_id;
  modify (λ self, with_input_data_ports
            (<[data_port_id := data_port]> (_input_data_ports self)) self) ;;
  (* Check for name uniqueness *)
  self ← get;
  let '(ok, message) := _check_data_port_name self data_port (Some Input) in
  if negb ok then
    modify (λ self, with_input_data_ports
              (delete data_port_id (_input_data_ports self)) self) ;;
    raise (error_of ValueError message)
  else mret data_port_id.

Definition add_output_data_port (name : string) (data_type : DataType)
    (default_value : Value) (data_port_id : option Z) : M Z :=
  self ← get;
  let data_port_id :=
    match data_port_id with
    | None => generate_data_port_id (get_data_port_ids self)
    | Some data_port_id => data_port_id
    end in
  data_port ← DataPort_init name data_type default_value data_port_id;
  modify (λ self, with_output_data_ports
            (<[data_port_id := data_port]> (_output_data_ports self)) self) ;;
  (* Check for name uniqueness *)
  self ← get;
  let '(ok, message) := _check_data_port_name self data_port (Some Output) in
  if negb ok then
    modify (λ self, with_output_data_ports
              (delete data_port_id (_output_data_ports self)) self) ;;
    raise (error_of ValueError message)
  else mret data_port_id.

(** Modelled from the spec: [ContainerState.remove_data_flow] and
    [ContainerState.remove_transition] of the parent, which are not among the
    sources, remove the element with the given id (section 4.2). *)
Definition parent_remove_data_flow (data_flow_id : Z) : M unit :=
  modify (λ self, with_parent
    ((λ parent, mkContainerState (transitions parent)
                  (delete data_flow_id (data_flows parent))) <$> _parent self)
    self).

Definition parent_remove_transition (transition_id : Z) : M unit :=
  modify (λ self, with_parent
    ((λ parent, mkContainerState (delete transition_id (transitions parent))
                  (data_flows parent)) <$> _parent self)
    self).

Definition remove_data_flows_with_data_port_id (data_port_id : Z) : M unit :=
  self ← get;
  match _parent self with
  | Some parent =>
      (* not self.is_root_state *)
      let data_flow_ids_to_remove :=
        (List.filter (λ '(_, data_flow),
            bool_decide (df_from_state data_flow = _state_id self)
            && bool_decide (from_key data_flow = data_port_id)
            || bool_decide (df_to_state data_flow = _state_id self)
               && bool_decide (to_key data_flow = data_port_id))
          (iteritems _ (data_flows parent))).*1 in
      for_each data_flow_ids_to_remove parent_remove_data_flow
  | None => mret tt
  end.

Definition remove_input_data_port (data_port_id : Z) (force : bool) : M unit :=
  self ← get;
  if dict_in data_port_id (_input_data_ports self) then
    remove_data_flows_with_data_port_id data_port_id ;;
    modify (λ self, with_input_data_ports
              (delete data_port_id (_input_data_ports self)) self)
  else
    raise (Exc AttributeError "input data port with name %s does not exit"
             [VInt data_port_id]).

Definition remove_output_data_port (data_port_id : Z) (force : bool) : M unit :=
  self ← get;
  if dict_in data_port_id (_output_data_ports self) then
    remove_data_flows_with_data_port_id data_port_id ;;
    modify (λ self, with_output_data_ports
              (delete data_port_id (_output_data_ports self)) self)
  else
    raise (Exc AttributeError "output data port with name %s does not exit"
             [VInt data_port_id]).

(** ** Outcome functions *)

Definition add_outcome (name : string) (outcome_id : option Z) : M (option Z) :=
  self ← get;
  let outcome_id :=
    match outcome_id with
    | None => generate_outcome_id (keys (_outcomes self))
    | Some outcome_id => outcome_id
    end in
  (* name in self._outcomes: the name is looked up among the keys *)
  name_is_key ← value_in (VStr name) (_outcomes self);
  if name_is_key : bool then
    logger_error "Two outcomes cannot have the same names" [] ;;
    mret None
  else if dict_in outcome_id (_outcomes self) then
    logger_error "Two outcomes cannot have the same outcome_ids" [] ;;
    mret None
  else
    outcome ← Outcome_init outcome_id name true;
    modify (λ self, with_outcomes
              (<[outcome_id := outcome]> (_outcomes self)) self) ;;
    mret (Some outcome_id).

(** The hook does nothing in [State]. *)
Definition remove_outcome_hook (outcome_id : Z) : M unit := mret tt.

Definition remove_outcome (outcome_id : Z) (force : bool) : M unit :=
  self ← get;
  if negb (dict_in outcome_id (_outcomes self)) then
    raise (Exc AttributeError "There is no outcome_id %s" [VInt outcome_id])
  else
    (if negb force
        && (bool_decide (outcome_id = -1) || bool_decide (outcome_id = -2))
     then raise (Exc AttributeError
       "You cannot remove the outcomes with id -1 or -2 as a state must always be ableto return aborted or preempted" [])
     else mret tt) ;;
    (* Remove internal transitions to this outcome *)
    remove_outcome_hook outcome_id ;;
    (* delete possible transition connected to this outcome *)
    self ← get;
    match _parent self with
    | Some parent =>
        match List.find (λ '(_, transition),
                 bool_decide (from_outcome transition = Some outcome_id)
                 && bool_decide (from_state transition = Some (_state_id self)))
                (iteritems _ (transitions parent)) with
        | Some (transition_id, _) => parent_remove_transition transition_id
        | None => mret tt
        end
    | None => mret tt
    end ;;
    (* delete outcome it self *)
    modify (λ self, with_outcomes (delete outcome_id (_outcomes self)) self).

(** ** Misc functions *)

(** [destruct].  The loops run over [keys()], a list made before the first
    removal.  [outcome_key is not -1] compares identities; CPython keeps one
    object per small integer, so it is the comparison of the ids. *)
Definition destruct : M unit :=
  self ← get;
  for_each (keys (_input_data_ports self))
    (λ in_key, remove_input_data_port in_key true) ;;
  self ← get;
  for_each (keys (_output_data_ports self))
    (λ out_key, remove_output_data_port out_key true) ;;
  self ← get;
  for_each (keys (_outcomes self))
    (λ outcome_key,
       if negb (bool_decide (outcome_key = -1))
          && negb (bool_decide (outcome_key = -2))
       then remove_outcome outcome_key true
       else mret tt).

(** ** Properties *)

(** ["/" in name]. *)
Fixpoint contains_char (c : Ascii.ascii) (s : string) : bool :=
  match s with
  | EmptyString => false
  | String c' s' => bool_decide (c = c') || contains_char c s'
  end.

Definition PATH_SEPARATOR : Ascii.ascii := "/"%char.

(** The [name] setter.  The path bookkeeping of the storage module for a
    renamed state leaves the state untouched and is left out. *)
Definition name_setter (name : string) : M unit :=
  if contains_char PATH_SEPARATOR name then
    raise (Exc ValueError "Name must not include the {0} character" [VStr "/"])
  else if bool_decide (String.length name < 1)%nat then
    raise (Exc ValueError "Name must have at least one character" [])
  else
    modify (λ self, mkState (state_type self) (_state_id self) name
      (_input_data_ports self) (_output_data_ports self) (_outcomes self)
      (_input_data self) (_output_data self) (_preempted self) (_started self)
      (_paused self) (_concurrency_queue self) (_final_outcome self)
      (_state_execution_status self) (backward_execution self) (_parent self)
      (use_runtime_value_input_data_ports self)
      (input_data_port_runtime_values self) (logger self)).

(** [except ValueError: restore; raise]. *)
Definition except_ValueError (restore : M unit) (e : PyExc) : M unit :=
  match exc_class e with
  | ValueError => restore ;; raise e
  | _ => raise e
  end.

(** [except Exception, e: handler e]: an exception whose class does not
    derive from [Exception] is not handled. *)
Definition except_Exception (handler : PyExc → M unit) (e : PyExc) : M unit :=
  if is_Exception (exc_class e) then handler e else raise e.

(** The setters of the two port dictionaries.  A dictionary is a [dict] of
    ports by its type, so the [TypeError]s and the conversion of plain
    [DataPort] objects of older state machines do not arise. *)
Definition input_data_ports_setter (input_data_ports : gmap Z DataPort) : M unit :=
  if existsb (λ '(port_id, port), negb (bool_decide (port_id = data_port_id port)))
       (iteritems _ input_data_ports)
  then raise (Exc AttributeError
    "The key of the input dictionary and the id of the data port do not match" [])
  else
    old_input_data_ports ← gets _input_data_ports;
    modify (with_input_data_ports input_data_ports) ;;
    for_each (iteritems _ input_data_ports)
      (λ '(port_id, port),
         try_except (set_parent (CDataPort port (Some Input)))
           (except_ValueError
              (modify (with_input_data_ports old_input_data_ports)))).

Definition output_data_ports_setter (output_data_ports : gmap Z DataPort) : M unit :=
  if existsb (λ '(port_id, port), negb (bool_decide (port_id = data_port_id port)))
       (iteritems _ output_data_ports)
  then raise (Exc AttributeError
    "The key of the output dictionary and the id of the data port do not match" [])
  else
    old_output_data_ports ← gets _output_data_ports;
    modify (with_output_data_ports output_data_ports) ;;
    for_each (iteritems _ output_data_ports)
      (λ '(port_id, port),
         try_except (set_parent (CDataPort port (Some Output)))
           (except_ValueError
              (modify (with_output_data_ports old_output_data_ports)))).

(** The [outcomes] setter.  The assigned dictionary becomes the dictionary
    of the state, so [-1 not in outcomes] is a test on [_outcomes]. *)
Definition outcomes_setter (outcomes : gmap Z Outcome) : M unit :=
  if existsb (λ '(outcome_id', outcome),
        negb (bool_decide (outcome_id' = outcome_id outcome)))
       (iteritems _ outcomes)
  then raise (Exc AttributeError
    "The key of the outcomes dictionary and the id of the outcome do not match" [])
  else
    old_outcomes ← gets _outcomes;
    modify (with_outcomes outcomes) ;;
    for_each (iteritems _ outcomes)
      (λ '(outcome_id', outcome),
         try_except (set_parent (COutcome outcome true))
           (except_ValueError (modify (with_outcomes old_outcomes)))) ;;
    (* aborted and preempted must always exist *)
    self ← get;
    (if negb (dict_in (-1) (_outcomes self)) then
       aborted ← Outcome_init (-1) "aborted" true;
       modify (λ self, with_outcomes (<[-1 := aborted]> (_outcomes self)) self)
     else mret tt) ;;
    self ← get;
    (if negb (dict_in (-2) (_outcomes self)) then
       preempted ← Outcome_init (-2) "preempted" true;
       modify (λ self, with_outcomes (<[-2 := preempted]> (_outcomes self)) self)
     else mret tt).

Definition preempted_setter (preempted : bool) : M unit :=
  modify (with_preempted preempted).

Definition started_setter (started : bool) : M unit :=
  modify (with_started started).

Definition paused_setter (paused : bool) : M unit :=
  modify (with_paused paused).

Definition final_outcome_setter (final_outcome : Outcome) : M unit :=
  modify (with_final_outcome (Some final_outcome)).

Definition state_execution_status_setter (status : StateExecutionStatus) : M unit :=
  modify (with_state_execution_status status).

(** [State.__init__]: a new object, on which the property setters run.  The
    module logger is the only thing that outlives the call. *)
Definition State_init (cls : StateType) (name : option string)
    (state_id : option string) (input_data_ports output_data_ports : option (gmap Z DataPort))
    (outcomes : option (gmap Z Outcome)) (parent : option ContainerState) : M unit :=
  modify (λ world, mkState cls "" "" ∅ ∅ ∅ ∅ ∅ false false false None None
                     INACTIVE false None ∅ ∅ (logger world)) ;;
  name_setter (default "Untitled" name) ;;
  modify (λ self, mkState (state_type self)
      (default state_id_generator state_id) (_name self)
      (_input_data_ports self) (_output_data_ports self) (_outcomes self)
      (_input_data self) (_output_data self) (_preempted self) (_started self)
      (_paused self) (_concurrency_queue self) (_final_outcome self)
      (_state_execution_status self) (backward_execution self) (_parent self)
      (use_runtime_value_input_data_ports self)
      (input_data_port_runtime_values self) (logger self)) ;;
  modify (with_parent parent) ;;
  input_data_ports_setter (default ∅ input_data_ports) ;;
  output_data_ports_setter (default ∅ output_data_ports) ;;
  outcomes_setter (default {[ 0 := mkOutcome 0 "success" ]} outcomes) ;;
  state_execution_status_setter INACTIVE ;;
  self ← get;
  logger_debug "New {0} created" [str_of_state self].

(** ** Execution functions *)

Definition is_None (v : Value) : bool :=
  match v with VNone => true | _ => false end.

Definition check_input_data_type : M unit :=
  self ← get;
  for_each (itervalues (_input_data_ports self))
    (λ data_port,
       self ← get;
       match _input_data self !! port_name data_port with
       | Some v =>
           if negb (is_None v) && negb (isinstance sys_maxint v (data_type data_port)) then
             logger_error
               "{0} had an data port error: Input of execute function must be of type {1} not {2} as current value {3}"
               [str_of_state self; VType (data_type data_port); v]
           else mret tt
       | None => mret tt
       end).

Definition check_output_data_type : M unit :=
  self ← get;
  for_each (itervalues (_output_data_ports self))
    (λ data_port,
       self ← get;
       match _output_data self !! port_name data_port with
       | Some v =>
           if negb (is_None v) && negb (isinstance sys_maxint v (data_type data_port)) then
             logger_error
               "{0} had an data port error: Output of execute function must be of type {1} not {2} as current value {3}"
               [str_of_state self; VType (data_type data_port); v]
           else mret tt
       | None => mret tt
       end).

(** [input_data] and [output_data] are dictionaries by the type of the
    record, so the two [TypeError]s of [setup_run] cannot arise. *)
Definition setup_run : M unit :=
  state_execution_status_setter ACTIVE ;;
  preempted_setter false ;;
  check_input_data_type.

Definition setup_backward_run : M unit :=
  state_execution_status_setter ACTIVE ;;
  preempted_setter false.

Definition recursively_preempt_states : M unit :=
  preempted_setter true ;;
  paused_setter false ;;
  started_setter false.

Definition recursively_pause_states : M unit :=
  started_setter false ;;
  paused_setter true.

Definition recursively_resume_states : M unit :=
  started_setter true ;;
  paused_setter false.

(** ** Input/output data handling *)

(** [isinstance(default, basestring) and len(default) > 0 and default[0] ==
    '$'], with [default[1:]]. *)
Definition global_variable_name (default' : Value) : option string :=
  match default' with
  | VStr (String "$" var_name) => Some var_name
  | _ => None
  end.

(** [copy.copy] of a value without identity. *)
Definition copy_copy (v : Value) : Value := v.

(** The value [default] that the loop of
    [get_default_input_values_for_state] computes for a port. *)
Definition port_default (state : State) (input_port_key : Z) (value : DataPort)
    : M Value :=
  if is_library_state state then
    use ← dict_getitem (use_runtime_value_input_data_ports state) input_port_key;
    if use : bool
    then dict_getitem (input_data_port_runtime_values state) input_port_key
    else mret (default_value value)
  else mret (default_value value).

(** The loop of [get_default_input_values_for_state].  Modelled from the
    spec: the global variable manager [gvm] ([rafcon.core.singleton]) is not
    among the sources; it maps names to values, [variable_exist] and
    [get_variable] read that map (section 4.5). *)
Fixpoint get_default_input_values_loop (gvm : gmap string Value) (state : State)
    (entries : list (Z * DataPort)) (result_dict : gmap string Value)
    : M (gmap string Value) :=
  match entries with
  | [] => mret result_dict
  | (input_port_key, value) :: rest =>
      default' ← port_default state input_port_key value;
      match global_variable_name default' with
      | Some var_name =>
          global_value ←
            (if negb (dict_in var_name gvm) then
               logger_error "The global variable '{0}' does not exist" [VStr var_name] ;;
               mret VNone
             else mret (from_option id VNone (gvm !! var_name)));
          get_default_input_values_loop gvm state rest
            (<[port_name value := global_value]> result_dict)
      | None =>
          (* set input to its default value *)
          get_default_input_values_loop gvm state rest
            (<[port_name value := copy_copy default']> result_dict)
      end
  end.

Definition get_default_input_values_for_state (gvm : gmap string Value)
    (state : State) : M (gmap string Value) :=
  get_default_input_values_loop gvm state
    (iteritems _ (_input_data_ports state)) ∅.

(** ** Finalization *)

(** [finalize(outcome=None)].  A [Queue.Queue] is true as a condition, so
    [if self.concurrency_queue] asks whether a queue is set. *)
Definition finalize (outcome : option Outcome) : M unit :=
  (* Set the final outcome of the state *)
  match outcome with
  | Some outcome => final_outcome_setter outcome
  | None => mret tt
  end ;;
  (* If we are within a concurrency state, we have to notify it *)
  self ← get;
  match _concurrency_queue self with
  | Some queue =>
      modify (with_concurrency_queue (Some (queue ++ [VStr (_state_id self)])))
  | None => mret tt
  end ;;
  self ← get;
  logger_debug "Finished execution of {0}: {1}"
    [str_of_state self; from_option VOutcome VNone (_final_outcome self)].

(** * The methods of [ExecutionState]

    [ExecutionState] derives from [State], which [execution_state.py] imports
    under the package name [rafcon.statemachine]; the [State] among the
    sources is the one of [rafcon.core].  [setup_run], [finalize],
    [check_output_data_type] and the properties are the inherited ones. *)

(** The loop over [self.outcomes.iteritems()] of [_execute]: the id of the
    first outcome whose name equals the returned object. *)
Fixpoint outcome_id_by_name (outcome_item : Value) (entries : list (Z * Outcome))
    : option Z :=
  match entries with
  | [] => None
  | (outcome_id', outcome) :: rest =>
      if value_eq_str outcome_item (outcome_name outcome)
      then Some outcome_id'
      else outcome_id_by_name outcome_item rest
  end.

Definition _execute (backward_execution : bool) : M (option Outcome) :=
  script_build_module ;;
  outcome_item ← script_execute backward_execution;
  (* in the case of backward execution the outcome is not relevant *)
  if backward_execution then mret None
  else
    self ← get;
    (* If the state was preempted, the state must be left on the preempted outcome *)
    if _preempted self then mret (Some (mkOutcome (-2) "preempted"))
    else
      (* Outcome id was returned *)
      is_outcome_id ← value_in outcome_item (_outcomes self);
      if is_outcome_id : bool then
        outcome ← dict_getitem_value (_outcomes self) outcome_item;
        mret (Some outcome)
      else
        (* Outcome name was returned *)
        match outcome_id_by_name outcome_item (iteritems _ (_outcomes self)) with
        | Some outcome_id' =>
            outcome ← dict_getitem (_outcomes self) outcome_id';
            mret (Some outcome)
        | None =>
            logger_error
              "Returned outcome for execution state '{0}' not existing: {1}"
              [VStr (_name self); outcome_item] ;;
            mret (Some (mkOutcome (-1) "aborted"))
        end.

Definition run : M unit :=
  self ← get;
  (if backward_execution self then setup_backward_run else setup_run) ;;
  try_except
    (self ← get;
     if backward_execution self then
       logger_debug "Backward executing state with id %s and name %s"
         [VStr (_state_id self); VStr (_name self)] ;;
       _execute true ;;
       (* outcome handling is not required as we are in backward mode *)
       state_execution_status_setter WAIT_FOR_NEXT_STATE ;;
       logger_debug "Finished backward executing state with id %s and name %s"
         [VStr (_state_id self); VStr (_name self)] ;;
       finalize None
     else
       logger_debug "Executing state with id %s and name %s"
         [VStr (_state_id self); VStr (_name self)] ;;
       outcome ← _execute false;
       state_execution_status_setter WAIT_FOR_NEXT_STATE ;;
       (* check output data *)
       check_output_data_type ;;
       finalize outcome)
    (except_Exception (λ e,
       self ← get;
       logger_error "State {0} had an internal error: {1}\n{2}"
         [VStr (_name self); VExc e] ;;
       (* write error to the output_data of the state *)
       modify (λ self, with_output_data
                 (<["error" := VExc e]> (_output_data self)) self) ;;
       state_execution_status_setter WAIT_FOR_NEXT_STATE ;;
       finalize (Some (mkOutcome (-1) "aborted")))).

(** ** Event primitives *)

(** Modelled from the spec: [rafcon.utils.multi_event] is not among the
    sources.  [State.__init__] creates [_interrupted] from [_preempted] and
    [_paused], and [_unpaused] from [_preempted] and [_started]; a composite
    event is set when one of its events is (section 4.6), and
    [wait_for_interruption] and [wait_for_unpause] return once it is set. *)
Definition interrupted (self : State) : bool := _preempted self || _paused self.

Definition unpaused (self : State) : bool := _preempted self || _started self.

(** ** Notions used in the statements *)

(** The two reserved outcomes are in the outcomes dictionary. *)
Definition has_reserved_outcomes (self : State) : Prop :=
  is_Some (_outcomes self !! (-1)) ∧ is_Some (_outcomes self !! (-2)).

(** A port of the dictionary [ports] carries the name [name]. *)
Definition port_name_in_use (name : string) (ports : gmap Z DataPort) : Prop :=
  ∃ key data_port, ports !! key = Some data_port ∧ port_name data_port = name.

(** An outcome of the state carries the name [name]. *)
Definition outcome_name_in_use (name : string) (self : State) : Prop :=
  ∃ key outcome, _outcomes self !! key = Some outcome ∧ outcome_name outcome = name.

(** The state in which [run] calls [_execute]: the set-up is done and the
    debug record is written. *)
Definition state_at_execute (self : State) : State :=
  ((if backward_execution self
    then setup_backward_run ;;
         logger_debug "Backward executing state with id %s and name %s"
           [VStr (_state_id self); VStr (_name self)]
    else setup_run ;;
         logger_debug "Executing state with id %s and name %s"
           [VStr (_state_id self); VStr (_name self)]) self).2.

(** No two ports of the dictionary carry the same name. *)
Definition port_names_unique (ports : gmap Z DataPort) : Prop :=
  ∀ key1 port1 key2 port2,
    ports !! key1 = Some port1 → ports !! key2 = Some port2 →
    port_name port1 = port_name port2 → key1 = key2.

(** The runtime-value dictionaries of a library state have an entry for
    each input port, as far as the loop reads them. *)
Definition runtime_values_defined (state : State) : Prop :=
  is_library_state state = true →
  ∀ key, is_Some (_input_data_ports state !! key) →
    ∃ use, use_runtime_value_input_data_ports state !! key = Some use
           ∧ (use = true → is_Some (input_data_port_runtime_values state !! key)).

(** The value the loop of [get_default_input_values_for_state] stores for a
    port whose default is [default']. *)
Definition input_value (gvm : gmap string Value) (default' : Value) : Value :=
  match global_variable_name default' with
  | Some var_name => from_option id VNone (gvm !! var_name)
  | None => copy_copy default'
  end.

(** The data-model operations on a state that are not forced: the calls
    that add or remove an outcome or a port (removals with [force=False])
    and [destruct]. *)
Inductive Operation : Type :=
  | AddOutcome (name : string) (outcome_id : option Z)
  | RemoveOutcome (outcome_id : Z)
  | AddInputDataPort (name : string) (data_type : DataType)
      (default_value : Value) (data_port_id : option Z)
  | AddOutputDataPort (name : string) (data_type : DataType)
      (default_value : Value) (data_port_id : option Z)
  | RemoveInputDataPort (data_port_id : Z)
  | RemoveOutputDataPort (data_port_id : Z)
  | Destruct.

(** The state that an operation leaves behind, whether it returns or
    raises. *)
Definition state_after (op : Operation) (self : State) : State :=
  match op with
  | AddOutcome name outcome_id => (add_outcome name outcome_id self).2
  | RemoveOutcome outcome_id => (remove_outcome outcome_id false self).2
  | AddInputDataPort name data_type default_value data_port_id =>
      (add_input_data_port name data_type default_value data_port_id self).2
  | AddOutputDataPort name data_type default_value data_port_id =>
      (add_output_data_port name data_type default_value data_port_id self).2
  | RemoveInputDataPort data_port_id =>
      (remove_input_data_port data_port_id false self).2
  | RemoveOutputDataPort data_port_id =>
      (remove_output_data_port data_port_id false self).2
  | Destruct => (destruct self).2
  end.

(** * Further methods of [State] *)

(** ** Lookup of data ports *)

(** The loops of [get_io_data_port_id_from_name_and_type]: the id of the
    first port with the given name. *)
Fixpoint port_id_by_name (name : string) (entries : list (Z * DataPort))
    : option Z :=
  match entries with
  | [] => None
  | (port_id, port) :: rest =>
      if bool_decide (port_name port = name) then Some port_id
      else port_id_by_name name rest
  end.

(** [get_io_data_port_id_from_name_and_type(name, data_port_type)].  The
    type is [Some Input] for [InputDataPort], [Some Output] for
    [OutputDataPort] and [None] for every other object, for which the method
    falls through and returns [None]. *)
Definition get_io_data_port_id_from_name_and_type (name : string)
    (data_port_type : option Direction) : M (option Z) :=
  self ← get;
  match data_port_type with
  | Some Input =>
      match port_id_by_name name (iteritems _ (_input_data_ports self)) with
      | Some ip_id => mret (Some ip_id)
      | None =>
          raise (Exc AttributeError "Name '{0}' is not in input_data_ports"
                   [VStr name])
      end
  | Some Output =>
      match port_id_by_name name (iteritems _ (_output_data_ports self)) with
      | Some op_id => mret (Some op_id)
      | None =>
          (* 'error' is an automatically generated output port *)
          if bool_decide (name = "error") then mret None
          else raise (Exc AttributeError "Name '{0}' is not in output_data_ports"
                        [VStr name])
      end
  | None => mret None
  end.

Definition get_data_port_by_id (self : State) (data_port_id : Z) : option DataPort :=
  if dict_in data_port_id (_input_data_ports self) then
    _input_data_ports self !! data_port_id
  else if dict_in data_port_id (_output_data_ports self) then
    _output_data_ports self !! data_port_id
  else None.

(** ** Paths *)

(** [get_path(appendix, by_name)].  The recursion climbs through the parent
    states; [ancestors] are these, the direct parent first, and the state is
    a root state when there is none. *)
Fixpoint get_path (ancestors : list State) (self : State)
    (appendix : option string) (by_name : bool) : string :=
  let state_identifier := if by_name then _name self else _state_id self in
  match ancestors with
  | parent :: ancestors' =>
      match appendix with
      | None => get_path ancestors' parent (Some state_identifier) by_name
      | Some appendix =>
          get_path ancestors' parent
            (Some (state_identifier +:+ String PATH_SEPARATOR appendix)) by_name
      end
  | [] =>
      match appendix with
      | None => state_identifier
      | Some appendix => state_identifier +:+ String PATH_SEPARATOR appendix
      end
  end.

(** ** Status *)

(** The property [active]. *)
Definition active (self : State) : bool :=
  match _state_execution_status self with
  | INACTIVE => false
  | _ => true
  end.

(** ** Further notions used in the statements *)

(** No two outcomes of the state carry the same name. *)
Definition outcome_names_unique (outcomes : gmap Z Outcome) : Prop :=
  ∀ key1 outcome1 key2 outcome2,
    outcomes !! key1 = Some outcome1 → outcomes !! key2 = Some outcome2 →
    outcome_name outcome1 = outcome_name outcome2 → key1 = key2.

(** No id is used by an input and by an output port. *)
Definition port_ids_disjoint (self : State) : Prop :=
  ∀ key, is_Some (_input_data_ports self !! key) →
         _output_data_ports self !! key = None.

(** The uniqueness invariants of the elements of a state. *)
Definition elements_unique (self : State) : Prop :=
  port_names_unique (_input_data_ports self)
  ∧ port_names_unique (_output_data_ports self)
  ∧ port_ids_disjoint self
  ∧ outcome_names_unique (_outcomes self).

(** The data flow starts or ends at the port [data_port_id] of the state
    [state_id]. *)
Definition touches (state_id : string) (data_port_id : Z) (data_flow : DataFlow)
    : Prop :=
  (df_from_state data_flow = state_id ∧ from_key data_flow = data_port_id)
  ∨ (df_to_state data_flow = state_id ∧ to_key data_flow = data_port_id).

(** The transition leaves the outcome [outcome_id] of the state
    [state_id]. *)
Definition leaves (state_id : string) (outcome_id : Z) (transition : Transition)
    : Prop :=
  from_outcome transition = Some outcome_id
  ∧ from_state transition = Some state_id.

(** One of the two statements that end the [outcomes] setter: [if
    outcome_id not in outcomes: self._outcomes[outcome_id] =
    Outcome(outcome_id, name, parent=self)]. *)
Definition reserved_outcome_step (outcome_id : Z) (name : string) : M unit :=
  self ← get;
  if negb (dict_in outcome_id (_outcomes self)) then
    outcome ← Outcome_init outcome_id name true;
    modify (λ self, with_outcomes (<[outcome_id := outcome]> (_outcomes self)) self)
  else mret tt.

(** What [remove_data_flows_with_data_port_id] does to the parent: nothing
    to a root state; otherwise the parent loses exactly the data flows that
    start or end at the port, and keeps its transitions. *)
Definition data_flows_removed (state_id : string) (data_port_id : Z)
    (before after : option ContainerState) : Prop :=
  match before, after with
  | None, None => True
  | Some parent, Some parent' =>
      transitions parent' = transitions parent
      ∧ ∀ data_flow_id data_flow,
          data_flows parent' !! data_flow_id = Some data_flow
          ↔ data_flows parent !! data_flow_id = Some data_flow
            ∧ ¬ touches state_id data_port_id data_flow
  | _, _ => False
  end.

(** What [remove_outcome] does to the parent: nothing to a root state;
    otherwise the parent keeps its data flows, and loses one transition that
    leaves the outcome if there is one, and none if there is none. *)
Definition transition_removed (state_id : string) (outcome_id : Z)
    (before after : option ContainerState) : Prop :=
  match before, after with
  | None, None => True
  | Some parent, Some parent' =>
      data_flows parent' = data_flows parent
      ∧ (((∀ transition_id transition,
             transitions parent !! transition_id = Some transition →
             ¬ leaves state_id outcome_id transition)
          ∧ transitions parent' = transitions parent)
         ∨ (∃ transition_id transition,
              transitions parent !! transition_id = Some transition
              ∧ leaves state_id outcome_id transition
              ∧ transitions parent' = delete transition_id (transitions parent)))
  | _, _ => False
  end.

(** The record that the loop of [check_input_data_type] or
    [check_output_data_type] writes for a port, if any: [data] is the data
    dictionary that is checked and [format] the text of the record. *)
Definition data_type_error (format : string) (self : State)
    (data : gmap string Value) (data_port : DataPort) : list LogRecord :=
  match data !! port_name data_port with
  | Some v =>
      if negb (is_None v) && negb (isinstance sys_maxint v (data_type data_port))
      then [mkLogRecord ERROR format
              [str_of_state self; VType (data_type data_port); v]]
      else []
  | None => []
  end.

(** The calls that add or remove an element of a state, each with the
    arguments of the call, the [force] flag of a removal included, and
    [destruct]. *)
Inductive ElementCall : Type :=
  | CallAddOutcome (name : string) (outcome_id : option Z)
  | CallRemoveOutcome (outcome_id : Z) (force : bool)
  | CallAddInputDataPort (name : string) (data_type : DataType)
      (default_value : Value) (data_port_id : option Z)
  | CallAddOutputDataPort (name : string) (data_type : DataType)
      (default_value : Value) (data_port_id : option Z)
  | CallRemoveInputDataPort (data_port_id : Z) (force : bool)
  | CallRemoveOutputDataPort (data_port_id : Z) (force : bool)
  | CallDestruct.

(** The state that a call leaves behind, whether it returns or raises. *)
Definition state_after_call (call : ElementCall) (self : State) : State :=
  match call with
  | CallAddOutcome name outcome_id => (add_outcome name outcome_id self).2
  | CallRemoveOutcome outcome_id force => (remove_outcome outcome_id force self).2
  | CallAddInputDataPort name data_type default_value data_port_id =>
      (add_input_data_port name data_type default_value data_port_id self).2
  | CallAddOutputDataPort name data_type default_value data_port_id =>
      (add_output_data_port name data_type default_value data_port_id self).2
  | CallRemoveInputDataPort data_port_id force =>
      (remove_input_data_port data_port_id force self).2
  | CallRemoveOutputDataPort data_port_id force =>
      (remove_output_data_port data_port_id force self).2
  | CallDestruct => (destruct self).2
  end.

(** * Properties *)

(** ** Dictionary iteration *)

Lemma elem_of_iteritems {A : Type} (d : gmap Z A) (k : Z) (v : A) :
  (k, v) ∈ iteritems A d ↔ d !! k = Some v.
Proof. rewrite (iteritems_perm A d). apply elem_of_map_to_list. Qed.

Lemma NoDup_keys {A : Type} (d : gmap Z A) : NoDup (keys d).
Proof.
  unfold keys. rewrite (iteritems_perm A d). apply NoDup_fst_map_to_list.
Qed.

Lemma elem_of_keys {A : Type} (d : gmap Z A) (k : Z) :
  k ∈ keys d ↔ is_Some (d !! k).
Proof.
  unfold keys. rewrite list_elem_of_fmap. split.
  - intros [[k' v] [-> Hin]]. apply elem_of_iteritems in Hin. by exists v.
  - intros [v Hv]. exists (k, v). split; [done|]. by apply elem_of_iteritems.
Qed.

Lemma dict_in_true `{Countable K} {A : Type} (k : K) (d : gmap K A) :
  dict_in k d = true ↔ is_Some (d !! k).
Proof.
  unfold dict_in. destruct (d !! k) eqn:Hk; split; intros Hs;
    first [ done | by eexists | by destruct Hs ].
Qed.

Lemma dict_in_false `{Countable K} {A : Type} (k : K) (d : gmap K A) :
  dict_in k d = false ↔ d !! k = None.
Proof. unfold dict_in. by destruct (d !! k). Qed.

(** ** Record updates *)

Lemma with_input_data_ports_id (s : State) :
  with_input_data_ports (_input_data_ports s) s = s.
Proof. by destruct s. Qed.

Lemma with_output_data_ports_id (s : State) :
  with_output_data_ports (_output_data_ports s) s = s.
Proof. by destruct s. Qed.

Lemma with_outcomes_id (s : State) : with_outcomes (_outcomes s) s = s.
Proof. by destruct s. Qed.

(** The monad operations, unfolded. *)
Ltac munfold :=
  unfold logger_debug, logger_error, preempted_setter, started_setter,
    paused_setter, final_outcome_setter, state_execution_status_setter in *;
  unfold mbind, M_bind, mret, M_ret, get, gets, modify, raise, try_except in *.

(** ** C6: preemption *)

(** C6.  For every state, [recursively_preempt_states] returns with the
    preempted flag set and the paused and started flags cleared, so that the
    composite events [interrupted] and [unpaused] are set and the waits on
    them return; preempting a second time changes nothing: the state after
    two calls is the state after one call, the three flags included. *)
Theorem recursively_preempt_states_idempotent (s : State) :
  let s1 := (recursively_preempt_states s).2 in
  let s2 := (recursively_preempt_states s1).2 in
  (recursively_preempt_states s).1 = Return tt
  ∧ _preempted s1 = true ∧ _paused s1 = false ∧ _started s1 = false
  ∧ interrupted s1 = true ∧ unpaused s1 = true
  ∧ (recursively_preempt_states s1).1 = Return tt
  ∧ s2 = s1
  ∧ (_preempted s2, _paused s2, _started s2) = (_preempted s1, _paused s1, _started s1).
Proof. by destruct s. Qed.

(** ** C4: finalization *)

(** C4 (amended).  For every state, [finalize(outcome)] with an outcome
    returns, stores the outcome as the final outcome and, when a concurrency
    queue is set, puts the state's [state_id] alone, not a pair with the
    outcome, at the end of that queue; without a queue nothing is posted.
    Apart from the debug record nothing else changes. *)
Theorem finalize_stores_outcome_posts_state_id (s : State) (outcome : Outcome) :
  (finalize (Some outcome) s).1 = Return tt
  ∧ _final_outcome (finalize (Some outcome) s).2 = Some outcome
  ∧ _concurrency_queue (finalize (Some outcome) s).2
    = (λ queue, queue ++ [VStr (_state_id s)]) <$> _concurrency_queue s
  ∧ (finalize (Some outcome) s).2
    = with_logger
        (logger s ++ [mkLogRecord DEBUG "Finished execution of {0}: {1}"
                        [str_of_state s; VOutcome outcome]])
        (with_concurrency_queue
           ((λ queue, queue ++ [VStr (_state_id s)]) <$> _concurrency_queue s)
           (with_final_outcome (Some outcome) s)).
Proof. destruct s as [? ? ? ? ? ? ? ? ? ? ? [queue|] ? ? ? ? ? ? ?]; done. Qed.

(** ** C8: adding an outcome *)

Lemma _check_outcome_validity_loop_name (check_outcome : Outcome)
    (entries : list (Z * Outcome)) :
  (∀ key outcome, (key, outcome) ∈ entries → key ≠ outcome_id check_outcome) →
  (∃ key outcome, (key, outcome) ∈ entries
                  ∧ outcome_name outcome = outcome_name check_outcome) →
  _check_outcome_validity_loop check_outcome false entries
  = (false, ("outcome name '{0}' existing in state",
             [VStr (outcome_name check_outcome)])).
Proof.
  induction entries as [|[key outcome] rest IH]; intros Hid (k & o & Hin & Hname).
  - by apply elem_of_nil in Hin.
  - cbn [_check_outcome_validity_loop andb negb].
    rewrite bool_decide_eq_false_2.
    2: { intros Heq. by apply (Hid key outcome); [left|]. }
    destruct (decide (outcome_name check_outcome = outcome_name outcome)) as [Heq|Hne].
    + by rewrite bool_decide_eq_true_2.
    + rewrite bool_decide_eq_false_2 by done. apply IH.
      * intros key' outcome' Hin'. apply Hid with outcome'. by right.
      * apply elem_of_cons in Hin as [Heq|Hin]; [|eauto].
        inversion Heq; subst. by destruct Hne.
Qed.

(** C8 (amended).  For every state, [add_outcome] called with an outcome id
    (given, or generated) that is already in the outcomes dictionary raises
    nothing: it logs "Two outcomes cannot have the same outcome_ids",
    returns [None] and leaves the state as it was.  Called with a free
    outcome id and a name that an outcome of the state already carries, it
    fails: attaching the new outcome raises [ValueError] and the state is as
    before the call. *)
Theorem add_outcome_duplicate (s : State) (name : string) (outcome_id : option Z) :
  let new_id := default (generate_outcome_id (keys (_outcomes s))) outcome_id in
  (is_Some (_outcomes s !! new_id) →
   add_outcome name outcome_id s
   = (Return None,
      with_logger
        (logger s ++ [mkLogRecord ERROR "Two outcomes cannot have the same outcome_ids" []])
        s))
  ∧ (_outcomes s !! new_id = None → outcome_name_in_use name s →
     add_outcome name outcome_id s
     = (Raise (Exc ValueError "outcome name '{0}' existing in state" [VStr name]), s)).
Proof.
  intros new_id. split.
  - intros Hin%dict_in_true. unfold add_outcome. munfold. cbn.
    replace (match outcome_id with Some i => i | None => _ end) with new_id
      by (by destruct outcome_id).
    by rewrite Hin.
  - intros Hfree%dict_in_false (key & outcome & Hkey & Hname).
    unfold add_outcome, Outcome_init, set_parent. munfold. cbn.
    replace (match outcome_id with Some i => i | None => _ end) with new_id
      by (by destruct outcome_id).
    rewrite Hfree. unfold _check_outcome_validity.
    rewrite _check_outcome_validity_loop_name; [done| |].
    + intros key' outcome' Hin%elem_of_iteritems ->.
      apply dict_in_false in Hfree. cbn in *. congruence.
    + exists key, outcome. split; [by apply elem_of_iteritems|done].
Qed.

(** ** C7: adding a data port *)

Lemma existsb_elem_of {A : Type} (f : A → bool) (l : list A) :
  existsb f l = true ↔ ∃ x, x ∈ l ∧ f x = true.
Proof.
  rewrite existsb_exists. split; intros (x & Hx & Hf); exists x;
    (split; [by apply list_elem_of_In|done]).
Qed.

Lemma existsb_false_elem_of {A : Type} (f : A → bool) (l : list A) (x : A) :
  existsb f l = false → x ∈ l → f x = false.
Proof.
  intros Hex Hx. destruct (f x) eqn:Hf; [|done].
  rewrite <- Hex. symmetry. apply existsb_elem_of. eauto.
Qed.

(** A port that passes the id check as a new object has an id that neither
    an input nor an output port of the state uses. *)
Lemma _check_data_port_id_new (s : State) (data_port : DataPort) :
  (_check_data_port_id s data_port None).1 = true →
  _input_data_ports s !! data_port_id data_port = None
  ∧ _output_data_ports s !! data_port_id data_port = None.
Proof.
  unfold _check_data_port_id.
  destruct (existsb _ (iteritems _ (_input_data_ports s))) eqn:Hin; [done|].
  destruct (existsb _ (iteritems _ (_output_data_ports s))) eqn:Hout; [done|].
  intros _. split.
  - destruct (_input_data_ports s !! data_port_id data_port) as [other|] eqn:Hk; [|done].
    apply elem_of_iteritems in Hk.
    apply (existsb_false_elem_of _ _ _ Hin) in Hk. cbn in Hk.
    by rewrite bool_decide_eq_true_2 in Hk.
  - destruct (_output_data_ports s !! data_port_id data_port) as [other|] eqn:Hk; [|done].
    apply elem_of_iteritems in Hk.
    apply (existsb_false_elem_of _ _ _ Hout) in Hk. cbn in Hk.
    by rewrite bool_decide_eq_true_2 in Hk.
Qed.

Lemma _check_data_port_validity_id (s : State) (data_port : DataPort)
    (stored : option Direction) :
  (_check_data_port_validity s data_port stored).1 = true →
  (_check_data_port_id s data_port stored).1 = true.
Proof.
  unfold _check_data_port_validity.
  destruct (_check_data_port_id s data_port stored) as [[] message]; done.
Qed.

(** Constructing a port under a state does not change the state; when it
    succeeds, the port has the given attributes and an unused id. *)
Lemma DataPort_init_spec (s : State) (name : string) (dt : DataType)
    (dv : Value) (id : Z) :
  (DataPort_init name dt dv id s).2 = s
  ∧ ∀ data_port, (DataPort_init name dt dv id s).1 = Return data_port →
      data_port = mkDataPort id name dt dv
      ∧ _input_data_ports s !! id = None ∧ _output_data_ports s !! id = None.
Proof.
  unfold DataPort_init, set_parent. munfold.
  destruct (DataPort_init_error _); [done|]. cbn.
  destruct (_check_data_port_validity s _ None) as [ok message] eqn:Hok.
  destruct ok; [|done]. cbn. split; [done|]. intros data_port [= <-].
  split; [done|].
  apply (_check_data_port_id_new s (mkDataPort id name dt dv)).
  apply _check_data_port_validity_id. by rewrite Hok.
Qed.

(** When the constructor accepts its arguments, the only exception of the
    construction is the [ValueError] of the validity check. *)
Lemma DataPort_init_raises_ValueError (s : State) (name : string) (dt : DataType)
    (dv : Value) (id : Z) (e : PyExc) :
  DataPort_init_error (mkDataPort id name dt dv) = None →
  (DataPort_init name dt dv id s).1 = Raise e →
  exc_class e = ValueError.
Proof.
  intros Hargs. unfold DataPort_init, set_parent. munfold. rewrite Hargs. cbn.
  destruct (_check_data_port_validity s _ None) as [[] message]; [done|].
  by intros [= <-].
Qed.

(** The name check on a port just stored under a fresh id fails exactly when
    another port of the dictionary carries its name. *)
Lemma name_clash_after_insert (ports : gmap Z DataPort) (data_port : DataPort)
    (direction : Direction) :
  ports !! data_port_id data_port = None →
  existsb (λ '(key, other),
     bool_decide (port_name data_port = port_name other)
     && negb (same_port data_port (Some direction) direction key))
    (iteritems _ (<[data_port_id data_port := data_port]> ports)) = true
  ↔ port_name_in_use (port_name data_port) ports.
Proof.
  intros Hfresh. rewrite existsb_elem_of. split.
  - intros ([key other] & Hin%elem_of_iteritems & Hf).
    apply andb_true_iff in Hf as [Hname%bool_decide_eq_true Hother].
    assert (key ≠ data_port_id data_port) as Hne.
    { intros ->. destruct direction; cbn in Hother;
        by rewrite bool_decide_eq_true_2 in Hother. }
    rewrite lookup_insert_ne in Hin by done. by exists key, other.
  - intros (key & other & Hkey & Hname). exists (key, other).
    assert (key ≠ data_port_id data_port) as Hne by congruence.
    split.
    + apply elem_of_iteritems. by rewrite lookup_insert_ne.
    + apply andb_true_iff. split; [by apply bool_decide_eq_true|].
      destruct direction; cbn; by rewrite bool_decide_eq_false_2.
Qed.

(** [add_input_data_port] and [add_output_data_port], one step in: the state
    is read and the id is fixed. *)
Ltac enter_add_data_port Hinit :=
  munfold; lazy beta iota zeta;
  match goal with
  | id := default ?d ?o |- _ =>
      change (match o with Some i => i | None => d end) with id
  end;
  rewrite Hinit; lazy beta iota zeta.

Lemma add_input_data_port_cases (s : State) (name : string) (dt : DataType)
    (dv : Value) (id_opt : option Z) :
  let id := default (generate_data_port_id (get_data_port_ids s)) id_opt in
  match (DataPort_init name dt dv id s).1 with
  | Raise e => add_input_data_port name dt dv id_opt s = (Raise e, s)
  | Return _ =>
      _input_data_ports s !! id = None ∧ _output_data_ports s !! id = None
      ∧ (port_name_in_use name (_input_data_ports s) →
         add_input_data_port name dt dv id_opt s
         = (Raise (Exc ValueError
              "data port name already existing in state's input data ports" []), s))
      ∧ (¬ port_name_in_use name (_input_data_ports s) →
         add_input_data_port name dt dv id_opt s
         = (Return id, with_input_data_ports
                         (<[id := mkDataPort id name dt dv]> (_input_data_ports s)) s))
  end.
Proof.
  intros id. destruct (DataPort_init_spec s name dt dv id) as [Hs Hport].
  destruct (DataPort_init name dt dv id s) as [[data_port|e] s0] eqn:Hinit;
    cbn [fst snd] in Hs, Hport |- *; subst s0.
  2: { unfold add_input_data_port. by enter_add_data_port Hinit. }
  destruct (Hport data_port eq_refl) as (-> & Hin & Hout).
  split; [done|]. split; [done|].
  pose proof (name_clash_after_insert (_input_data_ports s)
                (mkDataPort id name dt dv) Input Hin) as Hclash.
  cbn [data_port_id port_name] in Hclash.
  unfold add_input_data_port, _check_data_port_name.
  enter_add_data_port Hinit.
  cbn [fst snd _input_data_ports with_input_data_ports data_port_id port_name].
  rewrite (proj2 (dict_in_true id _)) by (rewrite lookup_insert_eq; by eexists).
  split.
  - intros Huse. rewrite (proj2 Hclash Huse).
    destruct s; cbn in *. by rewrite delete_insert_id.
  - intros Huse.
    destruct (existsb _ _) eqn:Hex; [|done].
    exfalso. by apply Huse, Hclash.
Qed.

Lemma add_output_data_port_cases (s : State) (name : string) (dt : DataType)
    (dv : Value) (id_opt : option Z) :
  let id := default (generate_data_port_id (get_data_port_ids s)) id_opt in
  match (DataPort_init name dt dv id s).1 with
  | Raise e => add_output_data_port name dt dv id_opt s = (Raise e, s)
  | Return _ =>
      _input_data_ports s !! id = None ∧ _output_data_ports s !! id = None
      ∧ (port_name_in_use name (_output_data_ports s) →
         add_output_data_port name dt dv id_opt s
         = (Raise (Exc ValueError
              "data port name already existing in state's output data ports" []), s))
      ∧ (¬ port_name_in_use name (_output_data_ports s) →
         add_output_data_port name dt dv id_opt s
         = (Return id, with_output_data_ports
                         (<[id := mkDataPort id name dt dv]> (_output_data_ports s)) s))
  end.
Proof.
  intros id. destruct (DataPort_init_spec s name dt dv id) as [Hs Hport].
  destruct (DataPort_init name dt dv id s) as [[data_port|e] s0] eqn:Hinit;
    cbn [fst snd] in Hs, Hport |- *; subst s0.
  2: { unfold add_output_data_port. by enter_add_data_port Hinit. }
  destruct (Hport data_port eq_refl) as (-> & Hin & Hout).
  split; [done|]. split; [done|].
  pose proof (name_clash_after_insert (_output_data_ports s)
                (mkDataPort id name dt dv) Output Hout) as Hclash.
  cbn [data_port_id port_name] in Hclash.
  unfold add_output_data_port, _check_data_port_name.
  enter_add_data_port Hinit.
  cbn [fst snd _input_data_ports _output_data_ports with_output_data_ports
       data_port_id port_name].
  rewrite (proj2 (dict_in_false id _) Hin).
  rewrite (proj2 (dict_in_true id _)) by (rewrite lookup_insert_eq; by eexists).
  split.
  - intros Huse. rewrite (proj2 Hclash Huse).
    destruct s; cbn in *. by rewrite delete_insert_id.
  - intros Huse.
    destruct (existsb _ _) eqn:Hex; [|done].
    exfalso. by apply Huse, Hclash.
Qed.

Lemma port_name_in_use_dec (name : string) (ports : gmap Z DataPort) :
  port_name_in_use name ports ∨ ¬ port_name_in_use name ports.
Proof.
  destruct (existsb (λ '(_, other), bool_decide (port_name other = name))
              (iteritems _ ports)) eqn:Hex.
  - left. apply existsb_elem_of in Hex as ([key other] & Hin & Hname).
    exists key, other. split; [by apply elem_of_iteritems|].
    by apply bool_decide_eq_true in Hname.
  - right. intros (key & other & Hkey & Hname).
    apply elem_of_iteritems in Hkey.
    apply (existsb_false_elem_of _ _ _ Hex) in Hkey. cbn in Hkey.
    by rewrite bool_decide_eq_true_2 in Hkey.
Qed.

(** C7.  For every state, [add_input_data_port] called with a name that an
    input port of the state already carries fails and leaves the state, its
    port dictionaries included, exactly as before the call.  The exception
    is a [ValueError] whenever the constructor of the port accepts its
    arguments, and it is the [ValueError] of the name check whenever the
    port object could be constructed under the state.  When the call
    succeeds, it returns the id of the new port, no port used that id and no
    input port carried that name before, and the state differs from the one
    before by exactly the new port, stored in the input ports under the
    returned id.  The same holds for [add_output_data_port] and the output
    ports. *)
Theorem add_data_port_all_or_nothing (s : State) (name : string) (dt : DataType)
    (dv : Value) (id_opt : option Z) :
  let id := default (generate_data_port_id (get_data_port_ids s)) id_opt in
  (port_name_in_use name (_input_data_ports s) →
   ∃ e, add_input_data_port name dt dv id_opt s = (Raise e, s)
        ∧ (DataPort_init_error (mkDataPort id name dt dv) = None →
           exc_class e = ValueError)
        ∧ ∀ data_port, (DataPort_init name dt dv id s).1 = Return data_port →
            e = Exc ValueError
                  "data port name already existing in state's input data ports" [])
  ∧ (∀ new_id s', add_input_data_port name dt dv id_opt s = (Return new_id, s') →
     new_id = id
     ∧ _input_data_ports s !! new_id = None ∧ _output_data_ports s !! new_id = None
     ∧ ¬ port_name_in_use name (_input_data_ports s)
     ∧ s' = with_input_data_ports
              (<[new_id := mkDataPort new_id name dt dv]> (_input_data_ports s)) s)
  ∧ (port_name_in_use name (_output_data_ports s) →
     ∃ e, add_output_data_port name dt dv id_opt s = (Raise e, s)
          ∧ (DataPort_init_error (mkDataPort id name dt dv) = None →
             exc_class e = ValueError)
          ∧ ∀ data_port, (DataPort_init name dt dv id s).1 = Return data_port →
              e = Exc ValueError
                    "data port name already existing in state's output data ports" [])
  ∧ (∀ new_id s', add_output_data_port name dt dv id_opt s = (Return new_id, s') →
     new_id = id
     ∧ _input_data_ports s !! new_id = None ∧ _output_data_ports s !! new_id = None
     ∧ ¬ port_name_in_use name (_output_data_ports s)
     ∧ s' = with_output_data_ports
              (<[new_id := mkDataPort new_id name dt dv]> (_output_data_ports s)) s).
Proof.
  intros id.
  pose proof (add_input_data_port_cases s name dt dv id_opt) as Hinput.
  pose proof (add_output_data_port_cases s name dt dv id_opt) as Houtput.
  pose proof (DataPort_init_raises_ValueError s name dt dv id) as Hclass.
  cbv zeta in Hinput, Houtput. fold id in Hinput, Houtput.
  destruct ((DataPort_init name dt dv id s).1) as [data_port|e].
  - destruct Hinput as (Hin & Hout & Hclash & Hfresh).
    destruct Houtput as (_ & _ & Hclash' & Hfresh').
    split; [|split; [|split]].
    + intros Huse. eexists. split; [by apply Hclash|done].
    + intros new_id s' Hadd.
      destruct (port_name_in_use_dec name (_input_data_ports s)) as [Huse|Huse].
      * rewrite (Hclash Huse) in Hadd. done.
      * rewrite (Hfresh Huse) in Hadd. by injection Hadd as <- <-.
    + intros Huse. eexists. split; [by apply Hclash'|done].
    + intros new_id s' Hadd.
      destruct (port_name_in_use_dec name (_output_data_ports s)) as [Huse|Huse].
      * rewrite (Hclash' Huse) in Hadd. done.
      * rewrite (Hfresh' Huse) in Hadd. by injection Hadd as <- <-.
  - split; [|split; [|split]].
    + intros _. exists e. split; [done|]. split; [|done].
      intros Hargs. by apply Hclass.
    + intros new_id s' Hadd. by rewrite Hinput in Hadd.
    + intros _. exists e. split; [done|]. split; [|done].
      intros Hargs. by apply Hclass.
    + intros new_id s' Hadd. by rewrite Houtput in Hadd.
Qed.

(** ** C10: destruction *)

(** A loop that removes, from the dictionary [proj] of the state, each key
    of a list that is not to be kept. *)
Lemma for_each_delete {A : Type} (proj : State → gmap Z A) (body : Z → M unit)
    (keep : Z → bool) (Q : State → State → Prop) :
  (∀ s, Q s s) →
  (∀ s1 s2 s3, Q s1 s2 → Q s2 s3 → Q s1 s3) →
  (∀ k s, is_Some (proj s !! k) →
     ∃ s', body k s = (Return tt, s')
           ∧ proj s' = (if keep k then proj s else delete k (proj s)) ∧ Q s s') →
  ∀ l s, NoDup l → (∀ k, k ∈ l → is_Some (proj s !! k)) →
    ∃ s', for_each l body s = (Return tt, s')
          ∧ (∀ j, proj s' !! j
                  = if bool_decide (j ∈ l) && negb (keep j) then None else proj s !! j)
          ∧ Q s s'.
Proof.
  intros Hrefl Htrans Hbody l.
  induction l as [|k l IH]; intros s Hnodup Hin.
  - exists s. split; [done|]. split; [|done]. intros j. cbn.
    rewrite bool_decide_eq_false_2; [done|]. apply not_elem_of_nil.
  - apply NoDup_cons in Hnodup as [Hk Hnodup].
    destruct (Hbody k s) as (s1 & Hrun & Hproj & HQ); [apply Hin; by left|].
    destruct (IH s1 Hnodup) as (s' & Hloop & Hlookup & HQ').
    { intros j Hj. rewrite Hproj. destruct (keep k); [apply Hin; by right|].
      assert (k ≠ j) as Hne by (intros ->; contradiction).
      rewrite lookup_delete_ne by exact Hne. apply Hin. by right. }
    exists s'. split; [|split; [|by eapply Htrans]].
    + cbn. unfold mbind, M_bind. by rewrite Hrun.
    + intros j. rewrite Hlookup, Hproj.
      destruct (decide (j = k)) as [->|Hne].
      * rewrite (bool_decide_eq_false_2 (k ∈ l)) by done.
        rewrite (bool_decide_eq_true_2 (k ∈ k :: l)) by (by left).
        cbn. destruct (keep k); [done|]. cbn. apply lookup_delete_eq.
      * assert (bool_decide (j ∈ k :: l) = bool_decide (j ∈ l)) as ->.
        { apply bool_decide_ext. rewrite elem_of_cons.
          split; [by intros [?|?]|by right]. }
        destruct (bool_decide (j ∈ l) && negb (keep j)); [done|].
        destruct (keep k); [done|]. by apply lookup_delete_ne.
Qed.

(** Removing the data flows of a port changes the parent only. *)
Lemma for_each_parent_remove_data_flow (ids : list Z) (s : State) :
  ∃ parent, for_each ids parent_remove_data_flow s = (Return tt, with_parent parent s).
Proof.
  revert s. induction ids as [|id ids IH]; intros s.
  - exists (_parent s). by destruct s.
  - destruct (IH (parent_remove_data_flow id s).2) as [parent Hrest].
    exists parent. cbn [for_each]. unfold mbind, M_bind.
    etransitivity; [exact Hrest|]. by destruct s.
Qed.

Lemma remove_data_flows_with_data_port_id_parent (data_port_id : Z) (s : State) :
  ∃ parent, remove_data_flows_with_data_port_id data_port_id s
            = (Return tt, with_parent parent s).
Proof.
  unfold remove_data_flows_with_data_port_id. munfold.
  destruct (_parent s) as [parent|] eqn:Hparent.
  - apply for_each_parent_remove_data_flow.
  - exists None. destruct s; cbn in *. by subst.
Qed.

Lemma remove_input_data_port_present (key : Z) (force : bool) (s : State) :
  is_Some (_input_data_ports s !! key) →
  ∃ s', remove_input_data_port key force s = (Return tt, s')
        ∧ _input_data_ports s' = delete key (_input_data_ports s)
        ∧ _output_data_ports s' = _output_data_ports s
        ∧ _outcomes s' = _outcomes s.
Proof.
  intros Hin%dict_in_true. unfold remove_input_data_port.
  unfold mbind at 1, M_bind at 1, get at 1. rewrite Hin.
  destruct (remove_data_flows_with_data_port_id_parent key s) as [parent Hflows].
  unfold mbind, M_bind. rewrite Hflows. eexists. split; [done|]. by destruct s.
Qed.

Lemma remove_output_data_port_present (key : Z) (force : bool) (s : State) :
  is_Some (_output_data_ports s !! key) →
  ∃ s', remove_output_data_port key force s = (Return tt, s')
        ∧ _output_data_ports s' = delete key (_output_data_ports s)
        ∧ _input_data_ports s' = _input_data_ports s
        ∧ _outcomes s' = _outcomes s.
Proof.
  intros Hin%dict_in_true. unfold remove_output_data_port.
  unfold mbind at 1, M_bind at 1, get at 1. rewrite Hin.
  destruct (remove_data_flows_with_data_port_id_parent key s) as [parent Hflows].
  unfold mbind, M_bind. rewrite Hflows. eexists. split; [done|]. by destruct s.
Qed.

(** A forced removal of an outcome that the state has succeeds, whatever its
    id is. *)
Lemma remove_outcome_forced (key : Z) (s : State) :
  is_Some (_outcomes s !! key) →
  ∃ s', remove_outcome key true s = (Return tt, s')
        ∧ _outcomes s' = delete key (_outcomes s)
        ∧ _input_data_ports s' = _input_data_ports s
        ∧ _output_data_ports s' = _output_data_ports s.
Proof.
  intros Hin%dict_in_true. unfold remove_outcome, remove_outcome_hook,
    parent_remove_transition. munfold. rewrite Hin. cbn.
  destruct (_parent s) as [parent|].
  - destruct (List.find _ _) as [[transition_id transition]|];
      (eexists; split; [done|]; by destruct s).
  - eexists. split; [done|]. by destruct s.
Qed.

Lemma all_keys_deleted {A : Type} (d d' : gmap Z A) :
  (∀ j, d' !! j = if bool_decide (j ∈ keys d) && negb false then None else d !! j) →
  d' = ∅.
Proof.
  intros Hlookup. apply map_empty. intros j. rewrite Hlookup.
  destruct (decide (j ∈ keys d)) as [Hin|Hout].
  - by rewrite bool_decide_eq_true_2.
  - rewrite bool_decide_eq_false_2 by done. cbn.
    destruct (d !! j) eqn:Hj; [|done].
    exfalso. apply Hout, elem_of_keys. by eexists.
Qed.

Lemma destruct_spec (s : State) :
  ∃ s', destruct s = (Return tt, s')
        ∧ _input_data_ports s' = ∅
        ∧ _output_data_ports s' = ∅
        ∧ _outcomes s' = filter (λ entry, entry.1 = -1 ∨ entry.1 = -2) (_outcomes s).
Proof.
  destruct (for_each_delete _input_data_ports
              (λ in_key, remove_input_data_port in_key true) (λ _, false)
              (λ s1 s2, _output_data_ports s2 = _output_data_ports s1
                        ∧ _outcomes s2 = _outcomes s1))
    with (l := keys (_input_data_ports s)) (s := s)
    as (s1 & Hrun1 & Hin1 & Hout1 & Hoc1).
  { done. }
  { intros ? ? ? [-> ->] [-> ->]. done. }
  { intros k s0 Hk.
    destruct (remove_input_data_port_present k true s0 Hk) as (s' & ? & ? & ? & ?).
    by exists s'. }
  { apply NoDup_keys. }
  { intros k. apply elem_of_keys. }
  apply all_keys_deleted in Hin1.
  destruct (for_each_delete _output_data_ports
              (λ out_key, remove_output_data_port out_key true) (λ _, false)
              (λ s1 s2, _input_data_ports s2 = _input_data_ports s1
                        ∧ _outcomes s2 = _outcomes s1))
    with (l := keys (_output_data_ports s1)) (s := s1)
    as (s2 & Hrun2 & Hout2 & Hin2 & Hoc2).
  { done. }
  { intros ? ? ? [-> ->] [-> ->]. done. }
  { intros k s0 Hk.
    destruct (remove_output_data_port_present k true s0 Hk) as (s' & ? & ? & ? & ?).
    by exists s'. }
  { apply NoDup_keys. }
  { intros k. apply elem_of_keys. }
  apply all_keys_deleted in Hout2.
  destruct (for_each_delete _outcomes
              (λ outcome_key,
                 if negb (bool_decide (outcome_key = -1))
                    && negb (bool_decide (outcome_key = -2))
                 then remove_outcome outcome_key true
                 else mret tt)
              (λ k, bool_decide (k = -1) || bool_decide (k = -2))
              (λ s1 s2, _input_data_ports s2 = _input_data_ports s1
                        ∧ _output_data_ports s2 = _output_data_ports s1))
    with (l := keys (_outcomes s2)) (s := s2)
    as (s3 & Hrun3 & Hoc3 & Hin3 & Hout3).
  { done. }
  { intros ? ? ? [-> ->] [-> ->]. done. }
  { intros k s0 Hk. rewrite <- negb_orb.
    destruct (bool_decide (k = -1) || bool_decide (k = -2)); cbn [negb].
    - by exists s0.
    - destruct (remove_outcome_forced k s0 Hk) as (s' & ? & ? & ? & ?).
      by exists s'. }
  { apply NoDup_keys. }
  { intros k. apply elem_of_keys. }
  assert (_outcomes s3 = filter (λ entry, entry.1 = -1 ∨ entry.1 = -2) (_outcomes s))
    as Hfilter.
  { apply map_eq. intros j. rewrite Hoc3, Hoc2, Hoc1.
    destruct (decide (j = -1 ∨ j = -2)) as [Hres|Hres].
    - assert (bool_decide (j = -1) || bool_decide (j = -2) = true) as ->.
      { destruct Hres as [->| ->]; done. }
      rewrite andb_false_r. symmetry.
      destruct (_outcomes s !! j) as [outcome|] eqn:Hj.
      + by apply map_lookup_filter_Some.
      + apply map_lookup_filter_None. by left.
    - assert (bool_decide (j = -1) || bool_decide (j = -2) = false) as ->.
      { apply orb_false_iff.
        split; apply bool_decide_eq_false; intros ->; apply Hres; first [by left|by right]. }
      rewrite andb_true_r.
      transitivity (@None Outcome).
      + destruct (decide (j ∈ keys (_outcomes s))) as [Hin|Hout].
        * by rewrite bool_decide_eq_true_2.
        * rewrite bool_decide_eq_false_2 by done.
          destruct (_outcomes s !! j) eqn:Hj; [|done].
          exfalso. apply Hout, elem_of_keys. by eexists.
      + symmetry. apply map_lookup_filter_None. right. intros outcome _. done. }
  exists s3. split; [|split; [congruence|split; [congruence|done]]].
  unfold destruct. munfold. rewrite Hrun1, Hrun2. exact Hrun3.
Qed.

(** C10 (amended).  For every state, [destruct] returns, and afterwards the
    input and the output ports are empty and the outcomes are exactly those
    of the reserved outcomes -1 and -2 that the state had before the call:
    every port and every other outcome is removed (with force), the reserved
    ones are passed over.  For a state that had both reserved outcomes, the
    outcomes are then exactly the ids -1 and -2. *)
Theorem destruct_keeps_reserved_outcomes (s : State) :
  ∃ s', destruct s = (Return tt, s')
        ∧ _input_data_ports s' = ∅
        ∧ _output_data_ports s' = ∅
        ∧ _outcomes s' = filter (λ entry, entry.1 = -1 ∨ entry.1 = -2) (_outcomes s)
        ∧ (has_reserved_outcomes s → dom (_outcomes s') = {[ -1; -2 ]}).
Proof.
  destruct (destruct_spec s) as (s' & Hrun & Hin & Hout & Hfilter).
  exists s'. split; [done|]. split; [done|]. split; [done|]. split; [done|].
  intros [[aborted Haborted] [preempted Hpreempted]].
  rewrite Hfilter. apply set_eq. intros j.
  rewrite elem_of_dom, elem_of_union, !elem_of_singleton.
  split.
  - intros [outcome Hj]. by apply map_lookup_filter_Some in Hj as [_ Hj].
  - intros [-> | ->]; eexists; apply map_lookup_filter_Some; split; try done;
      cbn; first [by left|by right].
Qed.

(** ** C1: the reserved outcomes *)

(** Constructing an outcome under a state does not change the state. *)
Lemma Outcome_init_spec (outcome_id : Z) (name : string) (parent : bool) (s : State) :
  (Outcome_init outcome_id name parent s).2 = s
  ∧ ∀ outcome, (Outcome_init outcome_id name parent s).1 = Return outcome →
      outcome = mkOutcome outcome_id name.
Proof.
  unfold Outcome_init, set_parent. munfold. destruct parent; cbn.
  - destruct (_check_outcome_validity s _ false) as [[] message]; cbn;
      (split; [done|]); [by intros ? [= <-]|done].
  - split; [done|]. by intros ? [= <-].
Qed.

(** Without force, the removal of a reserved outcome is refused and the
    state stays as it is. *)
Lemma remove_reserved_outcome_refused (outcome_id : Z) (s : State) :
  outcome_id = -1 ∨ outcome_id = -2 →
  ∃ e, remove_outcome outcome_id false s = (Raise e, s)
       ∧ exc_class e = AttributeError.
Proof.
  intros Hreserved. unfold remove_outcome. munfold.
  destruct (dict_in outcome_id (_outcomes s)); cbn.
  - assert (bool_decide (outcome_id = -1) || bool_decide (outcome_id = -2) = true) as ->.
    { destruct Hreserved as [-> | ->]; done. }
    eexists. by split.
  - eexists. by split.
Qed.

(** When the [outcomes] setter returns, both reserved outcomes are in the
    dictionary of the state. *)
Lemma outcomes_setter_reserved (outcomes : gmap Z Outcome) (s s' : State) :
  outcomes_setter outcomes s = (Return tt, s') → has_reserved_outcomes s'.
Proof.
  unfold outcomes_setter, has_reserved_outcomes. destruct (existsb _ _); [done|].
  unfold mbind at 1, M_bind at 1, gets at 1.
  unfold mbind at 1, M_bind at 1, modify at 1.
  unfold mbind at 1, M_bind at 1.
  destruct (for_each _ _ _) as [[[]|e] s1]; [|done].
  unfold mbind at 1, M_bind at 1, get at 1.
  unfold mbind at 1, M_bind at 1.
  assert ((∃ s2, (if negb (dict_in (-1) (_outcomes s1))
                  then aborted ← Outcome_init (-1) "aborted" true;
                       modify (λ self, with_outcomes
                                 (<[-1 := aborted]> (_outcomes self)) self)
                  else mret tt) s1 = (Return tt, s2)
                 ∧ is_Some (_outcomes s2 !! (-1)))
          ∨ (∃ e s2, (if negb (dict_in (-1) (_outcomes s1))
                      then aborted ← Outcome_init (-1) "aborted" true;
                           modify (λ self, with_outcomes
                                     (<[-1 := aborted]> (_outcomes self)) self)
                      else mret tt) s1 = (Raise e, s2))) as Hfirst.
  { destruct (dict_in (-1) (_outcomes s1)) eqn:Hin; cbn [negb].
    - left. exists s1. split; [done|]. by apply dict_in_true.
    - destruct (Outcome_init_spec (-1) "aborted" true s1) as [Hstate _].
      munfold. destruct (Outcome_init (-1) "aborted" true s1) as [[aborted|e] s2];
        cbn in Hstate; subst s2.
      + left. eexists. split; [done|]. destruct s1; cbn.
        rewrite lookup_insert_eq. by eexists.
      + right. by exists e, s1. }
  destruct Hfirst as [(s2 & -> & Haborted)|(e & s2 & ->)]; [|done].
  unfold mbind at 1, M_bind at 1, get at 1.
  destruct (dict_in (-2) (_outcomes s2)) eqn:Hin; cbn [negb].
  - intros [= <-]. split; [done|]. by apply dict_in_true.
  - destruct (Outcome_init_spec (-2) "preempted" true s2) as [Hstate _].
    munfold. destruct (Outcome_init (-2) "preempted" true s2) as [[preempted|e] s3];
      cbn in Hstate; subst s3; [|done].
    intros [= <-]. destruct s2; cbn in *. split.
    + by rewrite lookup_insert_ne.
    + rewrite lookup_insert_eq. by eexists.
Qed.

(** An outcome of the state is still there after [add_outcome]. *)
Lemma add_outcome_keeps (name : string) (outcome_id : option Z) (s : State) (key : Z) :
  is_Some (_outcomes s !! key) →
  is_Some (_outcomes (add_outcome name outcome_id s).2 !! key).
Proof.
  intros Hkey. unfold add_outcome, value_in, key_in. munfold.
  cbn [hashable dict_key]. lazy beta iota zeta.
  destruct (dict_in _ (_outcomes s)); [by destruct s|].
  match goal with |- context [Outcome_init ?i ?n ?p s] =>
    destruct (Outcome_init_spec i n p s) as [Hstate _];
    destruct (Outcome_init i n p s) as [[outcome|e] s0]; cbn in Hstate; subst s0
  end; [|done].
  destruct s; cbn in *. apply lookup_insert_is_Some'. by right.
Qed.

(** An unforced [remove_outcome] keeps both reserved outcomes. *)
Lemma remove_outcome_keeps_reserved (outcome_id : Z) (s : State) :
  has_reserved_outcomes s →
  has_reserved_outcomes (remove_outcome outcome_id false s).2.
Proof.
  intros Hreserved.
  destruct (decide (outcome_id = -1 ∨ outcome_id = -2)) as [Hid|Hid].
  { destruct (remove_reserved_outcome_refused outcome_id s Hid) as (e & -> & _).
    done. }
  assert (outcome_id ≠ -1 ∧ outcome_id ≠ -2) as [Haborted Hpreempted].
  { split; intros ->; apply Hid; [by left|by right]. }
  unfold has_reserved_outcomes in *.
  unfold remove_outcome, remove_outcome_hook, parent_remove_transition. munfold.
  destruct (dict_in outcome_id (_outcomes s)); cbn [negb]; [|done].
  rewrite !bool_decide_eq_false_2 by done. cbn.
  destruct Hreserved as [Ha Hp].
  destruct (_parent s) as [parent|].
  - destruct (List.find _ _) as [[transition_id transition]|];
      destruct s; cbn in *; (split; by rewrite lookup_delete_ne).
  - destruct s; cbn in *. split; by rewrite lookup_delete_ne.
Qed.

Lemma add_input_data_port_outcomes (name : string) (dt : DataType) (dv : Value)
    (id_opt : option Z) (s : State) :
  _outcomes (add_input_data_port name dt dv id_opt s).2 = _outcomes s.
Proof.
  pose proof (add_input_data_port_cases s name dt dv id_opt) as Hcases.
  cbv zeta in Hcases. destruct (DataPort_init _ _ _ _ s).1.
  - destruct Hcases as (_ & _ & Hclash & Hfresh).
    destruct (port_name_in_use_dec name (_input_data_ports s)) as [Huse|Huse].
    + by rewrite (Hclash Huse).
    + rewrite (Hfresh Huse). by destruct s.
  - by rewrite Hcases.
Qed.

Lemma add_output_data_port_outcomes (name : string) (dt : DataType) (dv : Value)
    (id_opt : option Z) (s : State) :
  _outcomes (add_output_data_port name dt dv id_opt s).2 = _outcomes s.
Proof.
  pose proof (add_output_data_port_cases s name dt dv id_opt) as Hcases.
  cbv zeta in Hcases. destruct (DataPort_init _ _ _ _ s).1.
  - destruct Hcases as (_ & _ & Hclash & Hfresh).
    destruct (port_name_in_use_dec name (_output_data_ports s)) as [Huse|Huse].
    + by rewrite (Hclash Huse).
    + rewrite (Hfresh Huse). by destruct s.
  - by rewrite Hcases.
Qed.

Lemma remove_input_data_port_outcomes (key : Z) (force : bool) (s : State) :
  _outcomes (remove_input_data_port key force s).2 = _outcomes s.
Proof.
  destruct (_input_data_ports s !! key) as [port|] eqn:Hkey.
  - destruct (remove_input_data_port_present key force s) as (s' & -> & _ & _ & Hs');
      [by eexists|done].
  - unfold remove_input_data_port. munfold.
    by rewrite (proj2 (dict_in_false key _) Hkey).
Qed.

Lemma remove_output_data_port_outcomes (key : Z) (force : bool) (s : State) :
  _outcomes (remove_output_data_port key force s).2 = _outcomes s.
Proof.
  destruct (_output_data_ports s !! key) as [port|] eqn:Hkey.
  - destruct (remove_output_data_port_present key force s) as (s' & -> & _ & _ & Hs');
      [by eexists|done].
  - unfold remove_output_data_port. munfold.
    by rewrite (proj2 (dict_in_false key _) Hkey).
Qed.

(** Every sequence of unforced operations that add or remove outcomes and
    ports, or destruct the state, keeps both reserved outcomes, whichever of
    the calls fail.  (An assignment to [outcomes] keeps them when it
    returns, see [outcomes_setter_reserved].) *)
Lemma operations_keep_reserved_outcomes (ops : list Operation) (s : State) :
  has_reserved_outcomes s →
  has_reserved_outcomes (foldl (λ s op, state_after op s) s ops).
Proof.
  revert s. induction ops as [|op ops IH]; intros s Hreserved; [done|].
  cbn [foldl]. apply IH. destruct op; cbn [state_after].
  - destruct Hreserved. split; by apply add_outcome_keeps.
  - by apply remove_outcome_keeps_reserved.
  - unfold has_reserved_outcomes. by rewrite add_input_data_port_outcomes.
  - unfold has_reserved_outcomes. by rewrite add_output_data_port_outcomes.
  - unfold has_reserved_outcomes. by rewrite remove_input_data_port_outcomes.
  - unfold has_reserved_outcomes. by rewrite remove_output_data_port_outcomes.
  - destruct (destruct_spec s) as (s' & -> & _ & _ & Hfilter).
    destruct Hreserved as [[aborted Ha] [preempted Hp]].
    unfold has_reserved_outcomes. cbn [snd]. rewrite Hfilter.
    split; eexists; apply map_lookup_filter_Some; split; try done; cbn;
      first [by left|by right].
Qed.

(** ** Running an execution state *)

Lemma with_logger_nil (s : State) : with_logger (logger s ++ []) s = s.
Proof. destruct s; cbn. by rewrite app_nil_r. Qed.

Lemma with_logger_app (s : State) (records1 records2 : list LogRecord) :
  with_logger (logger (with_logger (logger s ++ records1) s) ++ records2)
    (with_logger (logger s ++ records1) s)
  = with_logger (logger s ++ (records1 ++ records2)) s.
Proof. destruct s; cbn. by rewrite app_assoc. Qed.

(** A loop whose body only writes log records only writes log records. *)
Lemma for_each_only_logs {A : Type} (body : A → M unit) (l : list A) :
  (∀ x s, ∃ records, body x s = (Return tt, with_logger (logger s ++ records) s)) →
  ∀ s, ∃ records, for_each l body s = (Return tt, with_logger (logger s ++ records) s).
Proof.
  intros Hbody. induction l as [|x l IH]; intros s.
  - exists []. cbn. by rewrite with_logger_nil.
  - destruct (Hbody x s) as [records1 Hx].
    destruct (IH (with_logger (logger s ++ records1) s)) as [records2 Hl].
    exists (records1 ++ records2). cbn [for_each]. unfold mbind, M_bind.
    rewrite Hx, Hl. by rewrite with_logger_app.
Qed.

Lemma check_input_data_type_only_logs (s : State) :
  ∃ records, check_input_data_type s
             = (Return tt, with_logger (logger s ++ records) s).
Proof.
  unfold check_input_data_type. unfold mbind at 1, M_bind at 1, get at 1.
  apply for_each_only_logs. intros data_port s0. munfold.
  destruct (_input_data s0 !! port_name data_port) as [v|].
  - destruct (negb (is_None v) && negb (isinstance sys_maxint v (data_type data_port))).
    + by eexists.
    + exists []. by rewrite with_logger_nil.
  - exists []. by rewrite with_logger_nil.
Qed.

Lemma check_output_data_type_only_logs (s : State) :
  ∃ records, check_output_data_type s
             = (Return tt, with_logger (logger s ++ records) s).
Proof.
  unfold check_output_data_type. unfold mbind at 1, M_bind at 1, get at 1.
  apply for_each_only_logs. intros data_port s0. munfold.
  destruct (_output_data s0 !! port_name data_port) as [v|].
  - destruct (negb (is_None v) && negb (isinstance sys_maxint v (data_type data_port))).
    + by eexists.
    + exists []. by rewrite with_logger_nil.
  - exists []. by rewrite with_logger_nil.
Qed.

(** The set-up of a run returns; it sets the status, clears the preempted
    flag and writes log records. *)
Lemma setup_spec (s : State) :
  ∃ records,
    (if backward_execution s then setup_backward_run else setup_run) s
    = (Return tt,
       with_logger (logger s ++ records)
         (with_preempted false (with_state_execution_status ACTIVE s))).
Proof.
  destruct (backward_execution s).
  - exists []. unfold setup_backward_run. munfold. by destruct s; cbn; rewrite app_nil_r.
  - unfold setup_run. munfold.
    destruct (check_input_data_type_only_logs
                (with_preempted false (with_state_execution_status ACTIVE s)))
      as [records Hcheck].
    exists records. rewrite Hcheck. by destruct s.
Qed.

(** [finalize] returns. *)
Lemma finalize_returns (outcome : option Outcome) (s : State) :
  (finalize outcome s).1 = Return tt.
Proof.
  unfold finalize. munfold.
  destruct outcome; destruct (_concurrency_queue _); done.
Qed.

(** [run], from the call of [_execute] on: what follows a returned outcome,
    and the handler of the [except] clause. *)
Lemma run_unfold (s : State) :
  run s =
  match _execute (backward_execution s) (state_at_execute s) with
  | (Return outcome, s2) =>
      if backward_execution s then
        (state_execution_status_setter WAIT_FOR_NEXT_STATE ;;
         logger_debug "Finished backward executing state with id %s and name %s"
           [VStr (_state_id s); VStr (_name s)] ;;
         finalize None) s2
      else
        (state_execution_status_setter WAIT_FOR_NEXT_STATE ;;
         check_output_data_type ;;
         finalize outcome) s2
  | (Raise e, s2) =>
      if is_Exception (exc_class e) then
        (logger_error "State {0} had an internal error: {1}\n{2}"
           [VStr (_name s2); VExc e] ;;
         modify (λ self, with_output_data
                   (<["error" := VExc e]> (_output_data self)) self) ;;
         state_execution_status_setter WAIT_FOR_NEXT_STATE ;;
         finalize (Some (mkOutcome (-1) "aborted"))) s2
      else (Raise e, s2)
  end.
Proof.
  unfold run, state_at_execute, except_Exception.
  destruct (setup_spec s) as [records Hsetup].
  set (s0 := with_logger (logger s ++ records)
               (with_preempted false (with_state_execution_status ACTIVE s))) in *.
  assert (backward_execution s0 = backward_execution s
          ∧ _state_id s0 = _state_id s ∧ _name s0 = _name s)
    as (Hb & Hid & Hname) by (by destruct s).
  clearbody s0. munfold.
  destruct (backward_execution s) eqn:Hbs; rewrite !Hsetup, Hb, Hid, Hname;
    cbn [fst snd].
  - destruct (_execute true _) as [[outcome|e] s2];
      [|by destruct (is_Exception (exc_class e))].
    match goal with |- context [finalize None ?s3] =>
      pose proof (finalize_returns None s3) as Hfin;
      destruct (finalize None s3) as [[[]|e] s4]; [done|discriminate Hfin]
    end.
  - destruct (_execute false _) as [[outcome|e] s2];
      [|by destruct (is_Exception (exc_class e))].
    destruct (check_output_data_type_only_logs
                (with_state_execution_status WAIT_FOR_NEXT_STATE s2))
      as [records' ->].
    match goal with |- context [finalize outcome ?s3] =>
      pose proof (finalize_returns outcome s3) as Hfin;
      destruct (finalize outcome s3) as [[[]|e] s4]; [done|discriminate Hfin]
    end.
Qed.

Lemma finalize_fields (outcome : option Outcome) (s : State) :
  _final_outcome (finalize outcome s).2 = from_option Some (_final_outcome s) outcome
  ∧ _output_data (finalize outcome s).2 = _output_data s
  ∧ _outcomes (finalize outcome s).2 = _outcomes s
  ∧ _state_execution_status (finalize outcome s).2 = _state_execution_status s
  ∧ logger (finalize outcome s).2
    = logger s ++ [mkLogRecord DEBUG "Finished execution of {0}: {1}"
                     [str_of_state s;
                      from_option VOutcome VNone
                        (from_option Some (_final_outcome s) outcome)]].
Proof.
  destruct s as [? ? ? ? ? ? ? ? ? ? ? [queue|] ? ? ? ? ? ? ?];
    destruct outcome; done.
Qed.

Lemma surjective_result {A : Type} (r : result A * State) (a : A) :
  r.1 = Return a → r = (Return a, r.2).
Proof. destruct r as [r s]; cbn. by intros ->. Qed.

(** An instance of [Exception] out of [_execute], in either direction of
    execution, ends in the handler of [run]. *)
Lemma run_handles_raise (s s2 : State) (e : PyExc) :
  _execute (backward_execution s) (state_at_execute s) = (Raise e, s2) →
  is_Exception (exc_class e) = true →
  ∃ s', run s = (Return tt, s')
        ∧ _output_data s' = <["error" := VExc e]> (_output_data s2)
        ∧ _final_outcome s' = Some (mkOutcome (-1) "aborted")
        ∧ _state_execution_status s' = WAIT_FOR_NEXT_STATE
        ∧ _outcomes s' = _outcomes s2.
Proof.
  intros Hexecute Hclass. rewrite run_unfold, Hexecute, Hclass. munfold.
  match goal with |- context [finalize ?o ?s3] =>
    destruct (finalize_fields o s3) as (Hfinal & Hdata & Houtcomes & Hstatus & _);
    exists (finalize o s3).2; split;
      [apply surjective_result, finalize_returns|]
  end.
  rewrite Hfinal, Hdata, Houtcomes, Hstatus. by destruct s2.
Qed.

(** Any other exception out of [_execute] leaves [run], in the state in
    which it was raised. *)
Lemma run_propagates (s s2 : State) (e : PyExc) :
  _execute (backward_execution s) (state_at_execute s) = (Raise e, s2) →
  is_Exception (exc_class e) = false →
  run s = (Raise e, s2).
Proof. intros Hexecute Hclass. by rewrite run_unfold, Hexecute, Hclass. Qed.

Lemma run_forward_returns (s s2 : State) (outcome : option Outcome) :
  backward_execution s = false →
  _execute false (state_at_execute s) = (Return outcome, s2) →
  ∃ s', run s = (Return tt, s')
        ∧ _final_outcome s' = from_option Some (_final_outcome s2) outcome
        ∧ _output_data s' = _output_data s2
        ∧ _state_execution_status s' = WAIT_FOR_NEXT_STATE
        ∧ _outcomes s' = _outcomes s2.
Proof.
  intros Hforward Hexecute. rewrite run_unfold, Hforward, Hexecute. munfold.
  destruct (check_output_data_type_only_logs
              (with_state_execution_status WAIT_FOR_NEXT_STATE s2))
    as [records ->].
  match goal with |- context [finalize ?o ?s3] =>
    destruct (finalize_fields o s3) as (Hfinal & Hdata & Houtcomes & Hstatus & _);
    exists (finalize o s3).2; split;
      [apply surjective_result, finalize_returns|]
  end.
  rewrite Hfinal, Hdata, Houtcomes, Hstatus. by destruct s2.
Qed.

Lemma run_backward_returns (s s2 : State) (outcome : option Outcome) :
  backward_execution s = true →
  _execute true (state_at_execute s) = (Return outcome, s2) →
  ∃ s', run s = (Return tt, s')
        ∧ _final_outcome s' = _final_outcome s2
        ∧ _output_data s' = _output_data s2
        ∧ _state_execution_status s' = WAIT_FOR_NEXT_STATE
        ∧ _outcomes s' = _outcomes s2
        ∧ logger s'
          = logger s2
            ++ [mkLogRecord DEBUG
                  "Finished backward executing state with id %s and name %s"
                  [VStr (_state_id s); VStr (_name s)];
                mkLogRecord DEBUG "Finished execution of {0}: {1}"
                  [str_of_state s2; from_option VOutcome VNone (_final_outcome s2)]].
Proof.
  intros Hbackward Hexecute. rewrite run_unfold, Hbackward, Hexecute. munfold.
  match goal with |- context [finalize ?o ?s3] =>
    destruct (finalize_fields o s3) as (Hfinal & Hdata & Houtcomes & Hstatus & Hlog);
    exists (finalize o s3).2; split;
      [apply surjective_result, finalize_returns|]
  end.
  rewrite Hfinal, Hdata, Houtcomes, Hstatus, Hlog.
  destruct s2; cbn. by rewrite <- app_assoc.
Qed.

(** ** C2: an exception in the script *)

(** C2 (amended).  For every leaf execution state whose script raises an
    exception [e] when [run] executes it, forward or backward.  If [e] is an
    instance of [Exception], [run] itself returns: the exception does not
    leave the state; the exception object is stored under ["error"] in the
    output data as the script left them, the final outcome is the reserved
    outcome -1 ("aborted"), and the state waits for the next state; the
    outcome is what a container finds.  If [e] is not an instance of
    [Exception] ([SystemExit], [KeyboardInterrupt], [GeneratorExit] or
    another class derived from [BaseException] only), it leaves [run]:
    [run] raises [e] in the state in which the script raised it, so [run]
    stores nothing under ["error"] and sets no final outcome. *)
Theorem run_catches_script_exception (s s1 s2 : State) (e : PyExc) :
  script_build_module (state_at_execute s) = (Return tt, s1) →
  script_execute (backward_execution s) s1 = (Raise e, s2) →
  (is_Exception (exc_class e) = true →
   ∃ s', run s = (Return tt, s')
         ∧ _output_data s' !! "error" = Some (VExc e)
         ∧ _output_data s' = <["error" := VExc e]> (_output_data s2)
         ∧ _final_outcome s' = Some (mkOutcome (-1) "aborted")
         ∧ _state_execution_status s' = WAIT_FOR_NEXT_STATE)
  ∧ (is_Exception (exc_class e) = false → run s = (Raise e, s2)).
Proof.
  intros Hbuild Hscript.
  assert (_execute (backward_execution s) (state_at_execute s) = (Raise e, s2))
    as Hexecute.
  { unfold _execute. munfold. by rewrite Hbuild, Hscript. }
  split; intros Hclass.
  - destruct (run_handles_raise s s2 e Hexecute Hclass)
      as (s' & Hrun & Hdata & Hfinal & Hstatus & _).
    exists s'. rewrite Hdata. by rewrite lookup_insert_eq.
  - by apply run_propagates.
Qed.

(** ** C9: backward execution *)

(** C9 (amended).  For every leaf execution state run with
    [backward_execution] set whose script is built.  When the script
    returns without raising, it has been executed, [_execute] returns no
    outcome, and [run] returns without setting a final outcome and without
    checking the output data: the final outcome and the output data are
    those the script left, and after the script only the two debug records
    of the backward branch and of [finalize] are logged, none of
    [check_output_data_type].  When the script raises an instance of
    [Exception], the [except] clause shared with forward execution stores
    the exception under ["error"] and finalizes with the outcome -1
    ("aborted"), which becomes the final outcome. *)
Theorem run_backward_sets_no_outcome (s s1 : State) :
  backward_execution s = true →
  script_build_module (state_at_execute s) = (Return tt, s1) →
  (∀ outcome_item s2,
     script_execute true s1 = (Return outcome_item, s2) →
     _execute true (state_at_execute s) = (Return None, s2)
     ∧ ∃ s', run s = (Return tt, s')
             ∧ _final_outcome s' = _final_outcome s2
             ∧ _output_data s' = _output_data s2
             ∧ logger s'
               = logger s2
                 ++ [mkLogRecord DEBUG
                       "Finished backward executing state with id %s and name %s"
                       [VStr (_state_id s); VStr (_name s)];
                     mkLogRecord DEBUG "Finished execution of {0}: {1}"
                       [str_of_state s2;
                        from_option VOutcome VNone (_final_outcome s2)]])
  ∧ (∀ e s2,
       script_execute true s1 = (Raise e, s2) →
       is_Exception (exc_class e) = true →
       ∃ s', run s = (Return tt, s')
             ∧ _final_outcome s' = Some (mkOutcome (-1) "aborted")
             ∧ _output_data s' = <["error" := VExc e]> (_output_data s2)).
Proof.
  intros Hbackward Hbuild. split.
  - intros outcome_item s2 Hscript.
    assert (_execute true (state_at_execute s) = (Return None, s2)) as Hexecute.
    { unfold _execute. munfold. by rewrite Hbuild, Hscript. }
    split; [done|].
    destruct (run_backward_returns s s2 None Hbackward Hexecute)
      as (s' & Hrun & Hfinal & Hdata & _ & _ & Hlog).
    by exists s'.
  - intros e s2 Hscript Hclass.
    destruct (run_handles_raise s s2 e) as (s' & Hrun & Hdata & Hfinal & _);
      [|done|by exists s'].
    rewrite Hbackward. unfold _execute. munfold. by rewrite Hbuild, Hscript.
Qed.

(** ** C3: the object returned by the script *)

Lemma outcome_id_by_name_Some (outcome_item : Value) (entries : list (Z * Outcome))
    (key : Z) :
  outcome_id_by_name outcome_item entries = Some key →
  ∃ outcome, (key, outcome) ∈ entries
             ∧ value_eq_str outcome_item (outcome_name outcome) = true.
Proof.
  induction entries as [|[key' outcome'] rest IH]; [done|]. cbn.
  destruct (value_eq_str outcome_item (outcome_name outcome')) eqn:Hname.
  - intros [= ->]. exists outcome'. split; [by left|done].
  - intros Hrest. destruct (IH Hrest) as (outcome & Hin & Heq).
    exists outcome. split; [by right|done].
Qed.

Lemma outcome_id_by_name_None (outcome_item : Value) (entries : list (Z * Outcome)) :
  outcome_id_by_name outcome_item entries = None →
  ∀ key outcome, (key, outcome) ∈ entries →
    value_eq_str outcome_item (outcome_name outcome) = false.
Proof.
  induction entries as [|[key' outcome'] rest IH]; intros Hnone key outcome Hin.
  - by apply elem_of_nil in Hin.
  - cbn in Hnone.
    destruct (value_eq_str outcome_item (outcome_name outcome')) eqn:Hname; [done|].
    apply elem_of_cons in Hin as [Heq|Hin]; [|by eapply IH].
    by inversion Heq; subst.
Qed.

(** An object under which a dictionary with integer keys is searched can
    be hashed. *)
Lemma dict_key_hashable (v : Value) (key : Z) :
  dict_key v = Some key → hashable v = true.
Proof. by destruct v. Qed.

(** What [_execute] returns in forward execution when the script returns a
    hashable object and the state is not preempted afterwards. *)
Lemma _execute_forward (s0 s1 s2 : State) (outcome_item : Value) :
  script_build_module s0 = (Return tt, s1) →
  script_execute false s1 = (Return outcome_item, s2) →
  _preempted s2 = false →
  hashable outcome_item = true →
  ∃ outcome s2',
    _execute false s0 = (Return (Some outcome), s2')
    ∧ _output_data s2' = _output_data s2
    ∧ _final_outcome s2' = _final_outcome s2
    ∧ (∀ key, dict_key outcome_item = Some key → is_Some (_outcomes s2 !! key) →
         _outcomes s2 !! key = Some outcome ∧ s2' = s2)
    ∧ (key_in outcome_item (_outcomes s2) = false →
       (∃ key other, _outcomes s2 !! key = Some other
                     ∧ value_eq_str outcome_item (outcome_name other) = true) →
       (∃ key, _outcomes s2 !! key = Some outcome)
       ∧ value_eq_str outcome_item (outcome_name outcome) = true ∧ s2' = s2)
    ∧ (key_in outcome_item (_outcomes s2) = false →
       (∀ key other, _outcomes s2 !! key = Some other →
                     value_eq_str outcome_item (outcome_name other) = false) →
       outcome = mkOutcome (-1) "aborted"
       ∧ s2' = with_logger
                 (logger s2
                  ++ [mkLogRecord ERROR
                        "Returned outcome for execution state '{0}' not existing: {1}"
                        [VStr (_name s2); outcome_item]]) s2).
Proof.
  intros Hbuild Hscript Hpreempted Hhashable.
  unfold _execute, dict_getitem_value, dict_getitem, value_in. munfold.
  rewrite Hbuild, Hscript, Hpreempted, Hhashable.
  destruct (key_in outcome_item (_outcomes s2)) eqn:Hin.
  - unfold key_in in Hin.
    destruct (dict_key outcome_item) as [key|] eqn:Hkey; [|done].
    apply dict_in_true in Hin as [outcome Hlookup].
    rewrite Hlookup. exists outcome, s2.
    split; [done|]. split; [done|]. split; [done|]. split; [|by split].
    intros key' [= <-] _. by split.
  - destruct (outcome_id_by_name outcome_item (iteritems _ (_outcomes s2)))
      as [key|] eqn:Hname.
    + apply outcome_id_by_name_Some in Hname as (outcome & Hlookup & Heq).
      apply elem_of_iteritems in Hlookup. rewrite Hlookup. exists outcome, s2.
      split; [done|]. split; [done|]. split; [done|]. split; [|split].
      * intros key' Hkey Hsome. exfalso. unfold key_in in Hin.
        rewrite Hkey in Hin. apply dict_in_true in Hsome. congruence.
      * intros _ _. split; [by exists key|by split].
      * intros _ Hnone. rewrite (Hnone key outcome Hlookup) in Heq. done.
    + eexists _, _. split; [done|]. split; [by destruct s2|].
      split; [by destruct s2|]. split; [|split].
      * intros key' Hkey Hsome. exfalso. unfold key_in in Hin.
        rewrite Hkey in Hin. apply dict_in_true in Hsome. congruence.
      * intros _ (key & other & Hlookup & Heq). exfalso.
        apply elem_of_iteritems in Hlookup.
        rewrite (outcome_id_by_name_None _ _ Hname key other Hlookup) in Heq. done.
      * intros _ _. by split.
Qed.

(** The membership test of [_execute] raises for an unhashable object. *)
Lemma _execute_unhashable (s0 s1 s2 : State) (outcome_item : Value) :
  script_build_module s0 = (Return tt, s1) →
  script_execute false s1 = (Return outcome_item, s2) →
  _preempted s2 = false →
  hashable outcome_item = false →
  _execute false s0 = (Raise (unhashable_type outcome_item), s2).
Proof.
  intros Hbuild Hscript Hpreempted Hhashable. unfold _execute, value_in. munfold.
  by rewrite Hbuild, Hscript, Hpreempted, Hhashable.
Qed.

(** C3 (amended).  For every leaf execution state in forward execution whose
    script returns an object and which is not preempted when the script
    returns.  If the object can be hashed, [_execute] returns an outcome and
    [run] returns with that outcome as final outcome: when the object is an
    outcome id of the state, it is the outcome with that id; otherwise, when
    the object is the name of an outcome of the state, it is an outcome of
    the state with that name; when the object is neither, it is the reserved
    outcome -1 ("aborted"), an error record is logged, and nothing is
    written under ["error"]: [run] leaves the output data as the script left
    them.  If the object cannot be hashed (a list, a dict, a set, or a tuple
    that holds one), the test whether it is an outcome id raises
    [TypeError], which [run] handles as it handles an exception of the
    script: the final outcome is -1 and the [TypeError] is stored under
    ["error"]. *)
Theorem run_routes_returned_object (s s1 s2 : State) (outcome_item : Value) :
  backward_execution s = false →
  script_build_module (state_at_execute s) = (Return tt, s1) →
  script_execute false s1 = (Return outcome_item, s2) →
  _preempted s2 = false →
  (hashable outcome_item = true →
   ∃ outcome s2' s',
     _execute false (state_at_execute s) = (Return (Some outcome), s2')
     ∧ run s = (Return tt, s')
     ∧ _final_outcome s' = Some outcome
     ∧ _output_data s' = _output_data s2
     ∧ (∀ key, dict_key outcome_item = Some key → is_Some (_outcomes s2 !! key) →
          _outcomes s2 !! key = Some outcome)
     ∧ (key_in outcome_item (_outcomes s2) = false →
        (∃ key other, _outcomes s2 !! key = Some other
                      ∧ value_eq_str outcome_item (outcome_name other) = true) →
        (∃ key, _outcomes s2 !! key = Some outcome)
        ∧ value_eq_str outcome_item (outcome_name outcome) = true)
     ∧ (key_in outcome_item (_outcomes s2) = false →
        (∀ key other, _outcomes s2 !! key = Some other →
                      value_eq_str outcome_item (outcome_name other) = false) →
        outcome = mkOutcome (-1) "aborted"
        ∧ logger s2'
          = logger s2
            ++ [mkLogRecord ERROR
                  "Returned outcome for execution state '{0}' not existing: {1}"
                  [VStr (_name s2); outcome_item]]))
  ∧ (hashable outcome_item = false →
     ∃ s',
       _execute false (state_at_execute s)
       = (Raise (unhashable_type outcome_item), s2)
       ∧ run s = (Return tt, s')
       ∧ _final_outcome s' = Some (mkOutcome (-1) "aborted")
       ∧ _output_data s'
         = <["error" := VExc (unhashable_type outcome_item)]> (_output_data s2)).
Proof.
  intros Hforward Hbuild Hscript Hpreempted. split; intros Hhashable.
  - destruct (_execute_forward _ _ _ _ Hbuild Hscript Hpreempted Hhashable)
      as (outcome & s2' & Hexecute & Hdata & _ & Hid & Hname & Hnone).
    destruct (run_forward_returns s s2' (Some outcome) Hforward Hexecute)
      as (s' & Hrun & Hfinal & Hdata' & _).
    exists outcome, s2', s'.
    split; [done|]. split; [done|]. split; [done|]. split; [congruence|].
    split; [|split].
    + intros key Hkey Hsome. by apply Hid.
    + intros Hin Hex. destruct (Hname Hin Hex) as (? & ? & _). by split.
    + intros Hin Hall. destruct (Hnone Hin Hall) as [-> ->]. split; [done|].
      by destruct s2.
  - pose proof (_execute_unhashable _ _ _ _ Hbuild Hscript Hpreempted Hhashable)
      as Hexecute.
    destruct (run_handles_raise s s2 (unhashable_type outcome_item))
      as (s' & Hrun & Hdata & Hfinal & _); [by rewrite Hforward|done|].
    by exists s'.
Qed.

(** ** C5: default input values *)

(** The default of a port does not depend on the state of the caller and
    leaves it untouched. *)
Lemma port_default_spec (state : State) (key : Z) (port : DataPort) :
  runtime_values_defined state →
  is_Some (_input_data_ports state !! key) →
  ∃ default',
    (∀ s, port_default state key port s = (Return default', s))
    ∧ (is_library_state state = false → default' = default_value port)
    ∧ (is_library_state state = true →
       use_runtime_value_input_data_ports state !! key = Some false →
       default' = default_value port)
    ∧ (is_library_state state = true →
       use_runtime_value_input_data_ports state !! key = Some true →
       input_data_port_runtime_values state !! key = Some default').
Proof.
  intros Hdefined Hkey. unfold port_default, dict_getitem.
  destruct (is_library_state state) eqn:Hlibrary.
  - destruct (Hdefined Hlibrary key Hkey) as (use & Huse & Hruntime).
    rewrite Huse. destruct use.
    + destruct (Hruntime eq_refl) as [v Hv]. rewrite Hv.
      exists v. split; [done|]. split; [done|]. by split.
    + exists (default_value port). split; [done|]. split; [done|]. by split.
  - exists (default_value port). split; [done|]. split; [done|]. by split.
Qed.

Lemma get_default_input_values_loop_spec (gvm : gmap string Value) (state : State)
    (entries : list (Z * DataPort)) :
  (∀ key port, (key, port) ∈ entries →
     ∃ default', ∀ s, port_default state key port s = (Return default', s)) →
  ∀ (result_dict : gmap string Value) (s : State),
    ∃ result_dict' records,
      get_default_input_values_loop gvm state entries result_dict s
      = (Return result_dict', with_logger (logger s ++ records) s)
      ∧ (∀ name, (∀ key port, (key, port) ∈ entries → port_name port ≠ name) →
                 result_dict' !! name = result_dict !! name)
      ∧ (NoDup ((λ entry, port_name entry.2) <$> entries) →
         ∀ key port default' s0,
           (key, port) ∈ entries →
           port_default state key port s0 = (Return default', s0) →
           result_dict' !! port_name port = Some (input_value gvm default')
           ∧ ∀ var_name, global_variable_name default' = Some var_name →
               gvm !! var_name = None →
               mkLogRecord ERROR "The global variable '{0}' does not exist"
                 [VStr var_name] ∈ records).
Proof.
  induction entries as [|[key port] rest IH]; intros Hdefault result_dict s.
  - exists result_dict, []. cbn. rewrite with_logger_nil. split; [done|].
    split; [done|]. intros _ ? ? ? ? Hin. by apply elem_of_nil in Hin.
  - destruct (Hdefault key port) as [default' Hport]; [by left|].
    assert (∀ key' port', (key', port') ∈ rest →
              ∃ d, ∀ s, port_default state key' port' s = (Return d, s)) as Hrest.
    { intros key' port' Hin. apply Hdefault. by right. }
    cbn [get_default_input_values_loop]. unfold mbind at 1, M_bind at 1.
    rewrite Hport.
    set (head_records :=
           match global_variable_name default' with
           | Some var_name =>
               if negb (dict_in var_name gvm)
               then [mkLogRecord ERROR "The global variable '{0}' does not exist"
                       [VStr var_name]]
               else []
           | None => []
           end).
    destruct (IH Hrest (<[port_name port := input_value gvm default']> result_dict)
                (with_logger (logger s ++ head_records) s))
      as (result_dict' & records & Hloop & Hother & Hentries).
    exists result_dict', (head_records ++ records).
    split; [|split].
    + rewrite <- with_logger_app, <- Hloop. unfold input_value, head_records.
      destruct (global_variable_name default') as [var_name|].
      * munfold. destruct (dict_in var_name gvm) eqn:Hin; cbn [negb].
        -- by rewrite with_logger_nil.
        -- apply dict_in_false in Hin. by rewrite Hin.
      * by rewrite with_logger_nil.
    + intros name Hname. rewrite Hother.
      * apply lookup_insert_ne. apply (Hname key port). by left.
      * intros key' port' Hin. apply (Hname key' port'). by right.
    + intros Hnodup key' port' default'' s0 Hin Hport'.
      rewrite fmap_cons in Hnodup. apply NoDup_cons in Hnodup as [Hhead Hnodup].
      apply elem_of_cons in Hin as [Heq|Hin].
      * inversion Heq; subst key' port'. clear Heq.
        rewrite Hport in Hport'. injection Hport' as <-.
        split.
        -- rewrite Hother; [by rewrite lookup_insert_eq|].
           intros key' port' Hin Hname. apply Hhead.
           apply list_elem_of_fmap. by exists (key', port').
        -- intros var_name Hvar Hmissing. apply elem_of_app. left.
           unfold head_records. rewrite Hvar.
           rewrite (proj2 (dict_in_false var_name gvm) Hmissing). by left.
      * destruct (Hentries Hnodup key' port' default'' s0 Hin Hport') as [Hvalue Hlog].
        split; [done|]. intros var_name Hvar Hmissing.
        apply elem_of_app. right. by apply Hlog.
Qed.

Lemma global_variable_name_Some (default' : Value) (var_name : string) :
  global_variable_name default' = Some var_name
  ↔ default' = VStr (String "$" var_name).
Proof.
  split; [|by intros ->].
  destruct default' as [| | |str| | | | | |]; try done.
  destruct str as [|c str]; [done|]. cbn.
  destruct c as [[] [] [] [] [] [] [] []]; try done. by intros [= ->].
Qed.

(** C5.  For every state whose input ports carry distinct names (and whose
    runtime-value dictionaries are filled in, when it is a library state),
    [get_default_input_values_for_state] returns a dictionary that maps the
    name of every input port to the value of the global variable named by
    the port's default without its leading "$", when the default is a string
    that starts with "$" and the global variable exists; to [None], with an
    error record logged, when the default starts with "$" and the global
    variable does not exist; and otherwise to (a copy of) the default.  The
    default is the port's default value or, for a library state with
    [use_runtime_value] set for the port, the runtime value of the port. *)
Theorem get_default_input_values_for_state_spec (gvm : gmap string Value)
    (state s : State) :
  port_names_unique (_input_data_ports state) →
  runtime_values_defined state →
  ∃ result_dict s',
    get_default_input_values_for_state gvm state s = (Return result_dict, s')
    ∧ ∀ key port, _input_data_ports state !! key = Some port →
        ∃ default',
          (is_library_state state = false → default' = default_value port)
          ∧ (is_library_state state = true →
             use_runtime_value_input_data_ports state !! key = Some false →
             default' = default_value port)
          ∧ (is_library_state state = true →
             use_runtime_value_input_data_ports state !! key = Some true →
             input_data_port_runtime_values state !! key = Some default')
          ∧ (∀ var_name global_value,
               default' = VStr (String "$" var_name) →
               gvm !! var_name = Some global_value →
               result_dict !! port_name port = Some global_value)
          ∧ (∀ var_name,
               default' = VStr (String "$" var_name) →
               gvm !! var_name = None →
               result_dict !! port_name port = Some VNone
               ∧ mkLogRecord ERROR "The global variable '{0}' does not exist"
                   [VStr var_name] ∈ logger s')
          ∧ ((∀ var_name, default' ≠ VStr (String "$" var_name)) →
             result_dict !! port_name port = Some (copy_copy default')).
Proof.
  intros Hunique Hdefined. unfold get_default_input_values_for_state.
  destruct (get_default_input_values_loop_spec gvm state
              (iteritems _ (_input_data_ports state))) with (result_dict := (∅ : gmap string Value)) (s := s)
    as (result_dict & records & Hloop & _ & Hentries).
  { intros key port Hin%elem_of_iteritems.
    destruct (port_default_spec state key port Hdefined) as (d & Hd & _);
      [by eexists|]. by exists d. }
  exists result_dict, (with_logger (logger s ++ records) s). split; [done|].
  intros key port Hport.
  destruct (port_default_spec state key port Hdefined)
    as (default' & Hdefault & Hplain & Hunused & Hused); [by eexists|].
  exists default'. split; [done|]. split; [done|]. split; [done|].
  destruct (Hentries) with (key := key) (port := port) (default' := default') (s0 := s)
    as [Hvalue Hlog].
  { apply NoDup_fmap_2_strong.
    - intros [key1 port1] [key2 port2] Hin1%elem_of_iteritems Hin2%elem_of_iteritems Hname.
      cbn in Hname. pose proof (Hunique _ _ _ _ Hin1 Hin2 Hname) as <-.
      congruence.
    - rewrite (iteritems_perm _ _). apply NoDup_map_to_list. }
  { by apply elem_of_iteritems. }
  { apply Hdefault. }
  unfold input_value in Hvalue. split; [|split].
  - intros var_name global_value Heq%global_variable_name_Some Hglobal.
    by rewrite Heq, Hglobal in Hvalue.
  - intros var_name Heq%global_variable_name_Some Hglobal. split.
    + by rewrite Heq, Hglobal in Hvalue.
    + destruct s; cbn. apply elem_of_app. right. by apply Hlog.
  - intros Hplain'. destruct (global_variable_name default') as [var_name|] eqn:Hvar.
    + apply global_variable_name_Some in Hvar. by destruct (Hplain' var_name).
    + done.
Qed.

(** * Further properties *)

Local Set Warnings "-clear-no-such-hyp".

(** ** Validity of an outcome *)

Lemma _check_outcome_validity_loop_true (check_outcome : Outcome) (stored : bool)
    (entries : list (Z * Outcome)) :
  (_check_outcome_validity_loop check_outcome stored entries).1 = true
  ↔ ∀ key other, (key, other) ∈ entries →
      (stored = true ∧ key = outcome_id check_outcome)
      ∨ (key ≠ outcome_id check_outcome
         ∧ outcome_name check_outcome ≠ outcome_name other).
Proof.
  induction entries as [|[key other] rest IH].
  - split; [|done]. intros _ ? ? Hin. by apply elem_of_nil in Hin.
  - cbn [_check_outcome_validity_loop].
    destruct (decide (key = outcome_id check_outcome)) as [Hkey|Hkey].
    + rewrite (bool_decide_eq_true_2 _ Hkey). destruct stored; cbn [andb negb].
      * rewrite IH. split.
        -- intros Hrest key' other' [Heq|Hin]%elem_of_cons; [|by apply Hrest].
           inversion Heq; subst. by left.
        -- intros Hall key' other' Hin. apply Hall. by right.
      * rewrite bool_decide_eq_true_2 by done. split; [done|].
        intros Hall. destruct (Hall key other) as [[? _]|[? _]]; [by left|done..].
    + rewrite (bool_decide_eq_false_2 _ Hkey). rewrite andb_false_r. cbn [negb].
      rewrite bool_decide_eq_false_2 by done.
      destruct (decide (outcome_name check_outcome = outcome_name other)) as [Hname|Hname].
      * rewrite (bool_decide_eq_true_2 _ Hname). split; [done|].
        intros Hall. destruct (Hall key other) as [[_ ?]|[_ ?]]; [by left|done..].
      * rewrite (bool_decide_eq_false_2 _ Hname). rewrite IH. split.
        -- intros Hrest key' other' [Heq|Hin]%elem_of_cons; [|by apply Hrest].
           inversion Heq; subst. by right.
        -- intros Hall key' other' Hin. apply Hall. by right.
Qed.

Lemma _check_outcome_validity_new (s : State) (check_outcome : Outcome) :
  (_check_outcome_validity s check_outcome false).1 = true
  ↔ _outcomes s !! outcome_id check_outcome = None
    ∧ ¬ outcome_name_in_use (outcome_name check_outcome) s.
Proof.
  unfold _check_outcome_validity. rewrite _check_outcome_validity_loop_true.
  split.
  - intros Hall. split.
    + destruct (_outcomes s !! outcome_id check_outcome) as [other|] eqn:Hid; [|done].
      apply elem_of_iteritems in Hid.
      destruct (Hall _ _ Hid) as [[? _]|[? _]]; done.
    + intros (key & other & Hkey%elem_of_iteritems & Hname).
      destruct (Hall _ _ Hkey) as [[? _]|[_ ?]]; done.
  - intros [Hfree Hname] key other Hin%elem_of_iteritems. right. split.
    + intros ->. congruence.
    + intros Heq. apply Hname. by exists key, other.
Qed.

Lemma _check_outcome_validity_stored (s : State) (check_outcome : Outcome) :
  (_check_outcome_validity s check_outcome true).1 = true
  ↔ ∀ key other, _outcomes s !! key = Some other →
      key ≠ outcome_id check_outcome →
      outcome_name other ≠ outcome_name check_outcome.
Proof.
  unfold _check_outcome_validity. rewrite _check_outcome_validity_loop_true.
  split.
  - intros Hall key other Hin%elem_of_iteritems Hkey.
    destruct (Hall _ _ Hin) as [[_ ?]|[_ ?]]; [done|]. by intros Heq.
  - intros Hall key other Hin%elem_of_iteritems.
    destruct (decide (key = outcome_id check_outcome)) as [->|Hkey]; [by left|].
    right. split; [done|]. intros Heq. by apply (Hall key other).
Qed.

(** X1.  [_check_outcome_validity] accepts an outcome that the state does
    not hold yet exactly when its id is free and no outcome of the state
    carries its name; an outcome that the state holds under its id is
    accepted exactly when no other outcome carries its name. *)
Theorem _check_outcome_validity_spec (s : State) (check_outcome : Outcome) :
  ((_check_outcome_validity s check_outcome false).1 = true
   ↔ _outcomes s !! outcome_id check_outcome = None
     ∧ ¬ outcome_name_in_use (outcome_name check_outcome) s)
  ∧ ((_check_outcome_validity s check_outcome true).1 = true
     ↔ ∀ key other, _outcomes s !! key = Some other →
         key ≠ outcome_id check_outcome →
         outcome_name other ≠ outcome_name check_outcome).
Proof.
  split; [apply _check_outcome_validity_new|apply _check_outcome_validity_stored].
Qed.

(** ** The setters of the element dictionaries *)

Lemma set_parent_spec (child : Child) (s : State) :
  set_parent child s
  = if (check_child_validity s child).1 then (Return tt, s)
    else (Raise (error_of ValueError (check_child_validity s child).2), s).
Proof.
  unfold set_parent. munfold.
  by destruct (check_child_validity s child) as [[] message].
Qed.

(** A loop that attaches elements to the state: it returns without a change
    when every element is valid, and otherwise raises the [ValueError] of
    the first invalid one, in the state that its handler restores. *)
Lemma for_each_validate {A : Type} (l : list A) (body : A → M unit)
    (child : A → Child) (restored s : State) :
  (∀ x, x ∈ l →
     body x s
     = if (check_child_validity s (child x)).1 then (Return tt, s)
       else (Raise (error_of ValueError (check_child_validity s (child x)).2),
             restored)) →
  (for_each l body s = (Return tt, s)
   ∧ ∀ x, x ∈ l → (check_child_validity s (child x)).1 = true)
  ∨ (∃ e, for_each l body s = (Raise e, restored) ∧ exc_class e = ValueError).
Proof.
  induction l as [|x l IH]; intros Hbody.
  - left. split; [done|]. intros x Hin. by apply elem_of_nil in Hin.
  - cbn [for_each]. unfold mbind, M_bind. rewrite (Hbody x) by (by left).
    destruct (check_child_validity s (child x)).1 eqn:Hx.
    + destruct IH as [[Hloop Hall]|(e & Hloop & Hclass)].
      * intros y Hy. apply Hbody. by right.
      * left. split; [done|]. intros y [->|Hy]%elem_of_cons; [done|by apply Hall].
      * right. by exists e.
    + right. eexists. split; [done|]. by destruct (check_child_validity s (child x)).2.
Qed.

Lemma attach_or_restore (child : Child) (restore : State → State) (s : State) :
  try_except (set_parent child) (except_ValueError (modify restore)) s
  = if (check_child_validity s child).1 then (Return tt, s)
    else (Raise (error_of ValueError (check_child_validity s child).2), restore s).
Proof.
  unfold try_except. rewrite set_parent_spec.
  destruct (check_child_validity s child) as [[] [fmt args]]; done.
Qed.

Lemma outcome_names_unique_insert (outcomes : gmap Z Outcome) (id : Z) (name : string) :
  outcome_names_unique outcomes →
  (∀ key other, outcomes !! key = Some other → key ≠ id → outcome_name other ≠ name) →
  outcome_names_unique (<[id := mkOutcome id name]> outcomes).
Proof.
  intros Hunique Hname key1 outcome1 key2 outcome2 Hkey1 Hkey2 Heq.
  destruct (decide (key1 = id)) as [->|Hne1]; destruct (decide (key2 = id)) as [->|Hne2];
    try done.
  - rewrite lookup_insert_eq in Hkey1. rewrite lookup_insert_ne in Hkey2 by done.
    injection Hkey1 as <-. cbn in Heq. by destruct (Hname key2 outcome2).
  - rewrite lookup_insert_eq in Hkey2. rewrite lookup_insert_ne in Hkey1 by done.
    injection Hkey2 as <-. cbn in Heq. by destruct (Hname key1 outcome1).
  - rewrite lookup_insert_ne in Hkey1, Hkey2 by done. by eapply Hunique.
Qed.

Lemma outcome_name_in_use_dec (name : string) (s : State) :
  outcome_name_in_use name s ∨ ¬ outcome_name_in_use name s.
Proof.
  destruct (existsb (λ '(_, other), bool_decide (outcome_name other = name))
              (iteritems _ (_outcomes s))) eqn:Hex.
  - left. apply existsb_elem_of in Hex as ([key other] & Hin & Hname).
    exists key, other. split; [by apply elem_of_iteritems|].
    by apply bool_decide_eq_true in Hname.
  - right. intros (key & other & Hkey & Hname).
    apply elem_of_iteritems in Hkey.
    apply (existsb_false_elem_of _ _ _ Hex) in Hkey. cbn in Hkey.
    by rewrite bool_decide_eq_true_2 in Hkey.
Qed.

(** The step that creates a missing reserved outcome. *)
Lemma reserved_outcome_step_spec (id : Z) (name : string) (s : State) :
  (is_Some (_outcomes s !! id) ∧ reserved_outcome_step id name s = (Return tt, s))
  ∨ (_outcomes s !! id = None ∧ ¬ outcome_name_in_use name s
     ∧ reserved_outcome_step id name s
       = (Return tt, with_outcomes (<[id := mkOutcome id name]> (_outcomes s)) s))
  ∨ (_outcomes s !! id = None ∧ outcome_name_in_use name s
     ∧ ∃ e, reserved_outcome_step id name s = (Raise e, s)).
Proof.
  unfold reserved_outcome_step, Outcome_init. munfold.
  destruct (dict_in id (_outcomes s)) eqn:Hin; cbn [negb].
  - left. split; [by apply dict_in_true|done].
  - apply dict_in_false in Hin. right. rewrite set_parent_spec. cbn.
    destruct (_check_outcome_validity s (mkOutcome id name) false).1 eqn:Hvalid.
    + apply (_check_outcome_validity_new s (mkOutcome id name)) in Hvalid as [_ Hname].
      left. by split.
    + right. split; [done|]. split; [|by eexists].
      destruct (outcome_name_in_use_dec name s) as [Huse|Huse]; [done|].
      exfalso. assert (false = true) as Habs; [|done]. rewrite <- Hvalid.
      by apply (_check_outcome_validity_new s (mkOutcome id name)).
Qed.

Lemma outcomes_setter_unfold (outcomes : gmap Z Outcome) (s : State) :
  outcomes_setter outcomes s
  = if existsb (λ '(outcome_id', outcome),
         negb (bool_decide (outcome_id' = outcome_id outcome)))
        (iteritems _ outcomes)
    then (Raise (Exc AttributeError
           "The key of the outcomes dictionary and the id of the outcome do not match" []),
          s)
    else
      match for_each (iteritems _ outcomes)
              (λ '(outcome_id', outcome),
                 try_except (set_parent (COutcome outcome true))
                   (except_ValueError (modify (with_outcomes (_outcomes s)))))
              (with_outcomes outcomes s) with
      | (Return _, s1) =>
          match reserved_outcome_step (-1) "aborted" s1 with
          | (Return _, s2) => reserved_outcome_step (-2) "preempted" s2
          | (Raise e, s2) => (Raise e, s2)
          end
      | (Raise e, s1) => (Raise e, s1)
      end.
Proof. unfold outcomes_setter. by destruct (existsb _ _). Qed.

Lemma with_outcomes_with_outcomes (outcomes1 outcomes2 : gmap Z Outcome) (s : State) :
  with_outcomes outcomes2 (with_outcomes outcomes1 s) = with_outcomes outcomes2 s.
Proof. done. Qed.

(** The loop of the [outcomes] setter. *)
Lemma outcomes_setter_loop (outcomes : gmap Z Outcome) (s : State) :
  (for_each (iteritems _ outcomes)
     (λ '(outcome_id', outcome),
        try_except (set_parent (COutcome outcome true))
          (except_ValueError (modify (with_outcomes (_outcomes s)))))
     (with_outcomes outcomes s)
   = (Return tt, with_outcomes outcomes s)
   ∧ ∀ key outcome, outcomes !! key = Some outcome →
       ∀ key' other, outcomes !! key' = Some other → key' ≠ outcome_id outcome →
         outcome_name other ≠ outcome_name outcome)
  ∨ (∃ e, for_each (iteritems _ outcomes)
            (λ '(outcome_id', outcome),
               try_except (set_parent (COutcome outcome true))
                 (except_ValueError (modify (with_outcomes (_outcomes s)))))
            (with_outcomes outcomes s)
          = (Raise e, s)
          ∧ exc_class e = ValueError).
Proof.
  destruct (for_each_validate (iteritems _ outcomes)
              (λ '(outcome_id', outcome),
                 try_except (set_parent (COutcome outcome true))
                   (except_ValueError (modify (with_outcomes (_outcomes s)))))
              (λ entry, COutcome entry.2 true) s (with_outcomes outcomes s))
    as [[Hloop Hall]|Hraise].
  - intros [key outcome] _. rewrite attach_or_restore. cbn [snd].
    by rewrite with_outcomes_with_outcomes, with_outcomes_id.
  - left. split; [done|]. intros key outcome Hkey%elem_of_iteritems.
    apply Hall in Hkey. cbn [check_child_validity snd] in Hkey.
    pose proof (proj1 (_check_outcome_validity_stored _ _) Hkey) as Hvalid.
    intros key' other Hkey'. apply Hvalid. by destruct s.
  - by right.
Qed.

Lemma outcomes_setter_properties (outcomes : gmap Z Outcome) (s : State) :
  (∀ s', outcomes_setter outcomes s = (Return tt, s') →
     s' = with_outcomes (_outcomes s') s
     ∧ (∀ key outcome, outcomes !! key = Some outcome →
          _outcomes s' !! key = Some outcome ∧ outcome_id outcome = key)
     ∧ dom (_outcomes s') = dom outcomes ∪ {[ -1; -2 ]}
     ∧ (outcomes !! (-1) = None →
        _outcomes s' !! (-1) = Some (mkOutcome (-1) "aborted"))
     ∧ (outcomes !! (-2) = None →
        _outcomes s' !! (-2) = Some (mkOutcome (-2) "preempted"))
     ∧ outcome_names_unique (_outcomes s'))
  ∧ (is_Some (outcomes !! (-1)) → is_Some (outcomes !! (-2)) →
     ∀ e s', outcomes_setter outcomes s = (Raise e, s') → s' = s).
Proof.
  clear script_build_module script_execute generate_data_port_id
    generate_outcome_id DataPort_init_error state_id_generator.
  rewrite outcomes_setter_unfold.
  destruct (existsb _ (iteritems _ outcomes)) eqn:Hkeys.
  { split; [done|]. by intros _ _ e s' [= _ <-]. }
  assert (∀ key outcome, outcomes !! key = Some outcome → outcome_id outcome = key)
    as Hids.
  { intros key outcome Hkey%elem_of_iteritems.
    apply (existsb_false_elem_of _ _ _ Hkeys) in Hkey. cbn in Hkey.
    apply negb_false_iff, bool_decide_eq_true in Hkey. done. }
  destruct (outcomes_setter_loop outcomes s) as [[-> Hnames]|(e & -> & _)].
  2: { split; [done|]. by intros _ _ e' s' [= _ <-]. }
  assert (outcome_names_unique outcomes) as Hunique.
  { intros key1 outcome1 key2 outcome2 Hkey1 Hkey2 Heq.
    destruct (decide (key1 = key2)) as [|Hne]; [done|].
    exfalso. apply (Hnames key2 outcome2 Hkey2 key1 outcome1 Hkey1); [|done].
    by rewrite (Hids key2 outcome2 Hkey2). }
  split.
  - intros s'.
    destruct (reserved_outcome_step_spec (-1) "aborted" (with_outcomes outcomes s))
      as [[Haborted ->]|[(Haborted & Hname & ->)|(_ & _ & e & ->)]]; [| |done].
    + destruct (reserved_outcome_step_spec (-2) "preempted" (with_outcomes outcomes s))
        as [[Hpreempted ->]|[(Hpreempted & Hname' & ->)|(_ & _ & e & ->)]]; [| |done].
      * intros [= <-]. destruct s; cbn in *.
        split; [done|]. split; [by eauto|]. split.
        { apply elem_of_dom in Haborted, Hpreempted. set_solver. }
        split; [by intros Hnone; rewrite Hnone in Haborted; destruct Haborted|].
        split; [by intros Hnone; rewrite Hnone in Hpreempted; destruct Hpreempted|done].
      * intros [= <-]. destruct s; cbn in *.
        split; [done|]. split.
        { intros key outcome Hkey. split; [|by eauto].
          rewrite lookup_insert_ne; [done|]. intros <-. congruence. }
        split. { rewrite dom_insert_L. apply elem_of_dom in Haborted. set_solver. }
        split; [by intros Hnone; rewrite Hnone in Haborted; destruct Haborted|].
        split; [by intros _; rewrite lookup_insert_eq|].
        apply outcome_names_unique_insert; [done|].
        intros key other Hkey _ Heq. apply Hname'. by exists key, other.
    + destruct (reserved_outcome_step_spec (-2) "preempted"
                  (with_outcomes (<[-1 := mkOutcome (-1) "aborted"]>
                                    (_outcomes (with_outcomes outcomes s)))
                     (with_outcomes outcomes s)))
        as [[Hpreempted ->]|[(Hpreempted & Hname' & ->)|(_ & _ & e & ->)]]; [| |done].
      * intros [= <-]. destruct s; cbn in *.
        rewrite lookup_insert_ne in Hpreempted by done.
        split; [done|]. split.
        { intros key outcome Hkey. split; [|by eauto].
          rewrite lookup_insert_ne; [done|]. intros <-. congruence. }
        split. { rewrite dom_insert_L. apply elem_of_dom in Hpreempted. set_solver. }
        split; [by intros _; rewrite lookup_insert_eq|].
        split; [by intros Hnone; rewrite Hnone in Hpreempted; destruct Hpreempted|].
        apply outcome_names_unique_insert; [done|].
        intros key other Hkey _ Heq. apply Hname. by exists key, other.
      * intros [= <-]. destruct s; cbn in *.
        rewrite lookup_insert_ne in Hpreempted by done.
        split; [done|]. split.
        { intros key outcome Hkey. split; [|by eauto].
          rewrite !lookup_insert_ne; [done|intros <-; congruence..]. }
        split. { rewrite !dom_insert_L. set_solver. }
        split; [by intros _; rewrite lookup_insert_ne, lookup_insert_eq|].
        split; [by intros _; rewrite lookup_insert_eq|].
        apply outcome_names_unique_insert.
        -- apply outcome_names_unique_insert; [done|].
           intros key other Hkey _ Heq. apply Hname. by exists key, other.
        -- intros key other Hkey Hne Heq. apply Hname'. by exists key, other.
  - intros Haborted Hpreempted e s'.
    destruct (reserved_outcome_step_spec (-1) "aborted" (with_outcomes outcomes s))
      as [[_ ->]|[(Hnone & _)|(Hnone & _)]];
      [|destruct s; cbn in Hnone; rewrite Hnone in Haborted; by destruct Haborted..].
    destruct (reserved_outcome_step_spec (-2) "preempted" (with_outcomes outcomes s))
      as [[_ ->]|[(Hnone & _)|(Hnone & _)]];
      [done|destruct s; cbn in Hnone; rewrite Hnone in Hpreempted; by destruct Hpreempted..].
Qed.

(** X2.  When the [outcomes] setter returns, the state differs from the one
    before in its outcomes only: they are the assigned outcomes, each under
    its own id, together with the reserved outcomes -1 ("aborted") and -2
    ("preempted") where the assigned dictionary lacks them, and no two of
    them carry the same name.  When the assigned dictionary has both
    reserved ids, the setter is all or nothing: if it raises, the state is
    as before. *)
Theorem outcomes_setter_spec (outcomes : gmap Z Outcome) (s : State) :
  (∀ s', outcomes_setter outcomes s = (Return tt, s') →
     s' = with_outcomes (_outcomes s') s
     ∧ (∀ key outcome, outcomes !! key = Some outcome →
          _outcomes s' !! key = Some outcome ∧ outcome_id outcome = key)
     ∧ dom (_outcomes s') = dom outcomes ∪ {[ -1; -2 ]}
     ∧ (outcomes !! (-1) = None →
        _outcomes s' !! (-1) = Some (mkOutcome (-1) "aborted"))
     ∧ (outcomes !! (-2) = None →
        _outcomes s' !! (-2) = Some (mkOutcome (-2) "preempted"))
     ∧ outcome_names_unique (_outcomes s'))
  ∧ (is_Some (outcomes !! (-1)) → is_Some (outcomes !! (-2)) →
     ∀ e s', outcomes_setter outcomes s = (Raise e, s') → s' = s).
Proof. apply outcomes_setter_properties. Qed.

(** ** The setters of the port dictionaries *)

Lemma same_port_stored (data_port : DataPort) (direction : Direction) (key : Z) :
  same_port data_port (Some direction) direction key
  = bool_decide (key = data_port_id data_port).
Proof. by destruct direction. Qed.

(** A port that the state holds among its input ports is valid only if no
    output port has its id and no other input port has its name. *)
Lemma _check_data_port_validity_stored_input (s : State) (data_port : DataPort) :
  is_Some (_input_data_ports s !! data_port_id data_port) →
  (_check_data_port_validity s data_port (Some Input)).1 = true →
  _output_data_ports s !! data_port_id data_port = None
  ∧ ∀ key other, _input_data_ports s !! key = Some other →
      port_name data_port = port_name other → key = data_port_id data_port.
Proof.
  intros Hin Hvalid. pose proof (_check_data_port_validity_id _ _ _ Hvalid) as Hid.
  unfold _check_data_port_validity in Hvalid. unfold _check_data_port_id in *.
  destruct (existsb _ (iteritems _ (_input_data_ports s))) eqn:Hex1; [done|].
  destruct (existsb _ (iteritems _ (_output_data_ports s))) eqn:Hex2; [done|].
  cbn [valid negb] in Hvalid. unfold _check_data_port_name in Hvalid.
  apply dict_in_true in Hin. rewrite Hin in Hvalid.
  destruct (existsb _ (iteritems _ (_input_data_ports s))) eqn:Hex3 in Hvalid; [done|].
  split.
  - destruct (_output_data_ports s !! data_port_id data_port) as [other|] eqn:Hout;
      [|done].
    apply elem_of_iteritems in Hout.
    apply (existsb_false_elem_of _ _ _ Hex2) in Hout. cbn in Hout.
    by rewrite bool_decide_eq_true_2 in Hout.
  - intros key other Hkey%elem_of_iteritems Hname.
    apply (existsb_false_elem_of _ _ _ Hex3) in Hkey. cbn in Hkey.
    rewrite (bool_decide_eq_true_2 _ Hname) in Hkey. cbn in Hkey.
    by apply negb_false_iff, bool_decide_eq_true in Hkey.
Qed.

Lemma _check_data_port_validity_stored_output (s : State) (data_port : DataPort) :
  is_Some (_output_data_ports s !! data_port_id data_port) →
  (_check_data_port_validity s data_port (Some Output)).1 = true →
  _input_data_ports s !! data_port_id data_port = None
  ∧ ∀ key other, _output_data_ports s !! key = Some other →
      port_name data_port = port_name other → key = data_port_id data_port.
Proof.
  intros Hin Hvalid. pose proof (_check_data_port_validity_id _ _ _ Hvalid) as Hid.
  unfold _check_data_port_validity in Hvalid. unfold _check_data_port_id in *.
  destruct (existsb _ (iteritems _ (_input_data_ports s))) eqn:Hex1; [done|].
  destruct (existsb _ (iteritems _ (_output_data_ports s))) eqn:Hex2; [done|].
  assert (_input_data_ports s !! data_port_id data_port = None) as Hfree.
  { destruct (_input_data_ports s !! data_port_id data_port) as [other|] eqn:Hother;
      [|done].
    apply elem_of_iteritems in Hother.
    apply (existsb_false_elem_of _ _ _ Hex1) in Hother. cbn in Hother.
    by rewrite bool_decide_eq_true_2 in Hother. }
  split; [done|].
  cbn [valid negb] in Hvalid. unfold _check_data_port_name in Hvalid.
  apply dict_in_false in Hfree. rewrite Hfree in Hvalid.
  apply dict_in_true in Hin. rewrite Hin in Hvalid.
  destruct (existsb _ (iteritems _ (_output_data_ports s))) eqn:Hex3 in Hvalid; [done|].
  intros key other Hkey%elem_of_iteritems Hname.
  apply (existsb_false_elem_of _ _ _ Hex3) in Hkey. cbn in Hkey.
  rewrite (bool_decide_eq_true_2 _ Hname) in Hkey. cbn in Hkey.
  by apply negb_false_iff, bool_decide_eq_true in Hkey.
Qed.

Lemma input_data_ports_setter_unfold (input_data_ports : gmap Z DataPort) (s : State) :
  input_data_ports_setter input_data_ports s
  = if existsb (λ '(port_id, port), negb (bool_decide (port_id = data_port_id port)))
         (iteritems _ input_data_ports)
    then (Raise (Exc AttributeError
           "The key of the input dictionary and the id of the data port do not match" []),
          s)
    else for_each (iteritems _ input_data_ports)
           (λ '(port_id, port),
              try_except (set_parent (CDataPort port (Some Input)))
                (except_ValueError
                   (modify (with_input_data_ports (_input_data_ports s)))))
           (with_input_data_ports input_data_ports s).
Proof. unfold input_data_ports_setter. by destruct (existsb _ _). Qed.

Lemma output_data_ports_setter_unfold (output_data_ports : gmap Z DataPort) (s : State) :
  output_data_ports_setter output_data_ports s
  = if existsb (λ '(port_id, port), negb (bool_decide (port_id = data_port_id port)))
         (iteritems _ output_data_ports)
    then (Raise (Exc AttributeError
           "The key of the output dictionary and the id of the data port do not match" []),
          s)
    else for_each (iteritems _ output_data_ports)
           (λ '(port_id, port),
              try_except (set_parent (CDataPort port (Some Output)))
                (except_ValueError
                   (modify (with_output_data_ports (_output_data_ports s)))))
           (with_output_data_ports output_data_ports s).
Proof. unfold output_data_ports_setter. by destruct (existsb _ _). Qed.

Lemma keys_match_ids (ports : gmap Z DataPort) :
  existsb (λ '(port_id, port), negb (bool_decide (port_id = data_port_id port)))
    (iteritems _ ports) = false →
  ∀ key port, ports !! key = Some port → data_port_id port = key.
Proof.
  intros Hkeys key port Hkey%elem_of_iteritems.
  apply (existsb_false_elem_of _ _ _ Hkeys) in Hkey. cbn in Hkey.
  by apply negb_false_iff, bool_decide_eq_true in Hkey.
Qed.

Lemma input_data_ports_setter_cases (input_data_ports : gmap Z DataPort) (s : State) :
  (input_data_ports_setter input_data_ports s
   = (Return tt, with_input_data_ports input_data_ports s)
   ∧ (∀ key port, input_data_ports !! key = Some port →
        data_port_id port = key ∧ _output_data_ports s !! key = None)
   ∧ port_names_unique input_data_ports)
  ∨ (∃ e, input_data_ports_setter input_data_ports s = (Raise e, s)
          ∧ (exc_class e = AttributeError ∨ exc_class e = ValueError)).
Proof.
  rewrite input_data_ports_setter_unfold.
  destruct (existsb _ (iteritems _ input_data_ports)) eqn:Hkeys.
  { right. eexists. split; [done|by left]. }
  pose proof (keys_match_ids _ Hkeys) as Hids.
  destruct (for_each_validate (iteritems _ input_data_ports)
              (λ '(port_id, port),
                 try_except (set_parent (CDataPort port (Some Input)))
                   (except_ValueError
                      (modify (with_input_data_ports (_input_data_ports s)))))
              (λ entry, CDataPort entry.2 (Some Input)) s
              (with_input_data_ports input_data_ports s))
    as [[Hloop Hall]|(e & Hloop & Hclass)].
  - intros [key port] _. rewrite attach_or_restore. cbn [snd].
    by destruct s.
  - left. split; [done|].
    assert (∀ key port, input_data_ports !! key = Some port →
              _output_data_ports s !! key = None
              ∧ ∀ key' other, input_data_ports !! key' = Some other →
                  port_name port = port_name other → key' = key) as Hports.
    { intros key port Hkey. pose proof (Hids _ _ Hkey) as Hid.
      pose proof Hkey as Hvalid%elem_of_iteritems. apply Hall in Hvalid.
      cbn [check_child_validity snd] in Hvalid.
      apply _check_data_port_validity_stored_input in Hvalid.
      - rewrite Hid in Hvalid. by destruct s.
      - rewrite Hid. destruct s; cbn. by eexists. }
    split.
    + intros key port Hkey. split; [by eauto|]. by apply (Hports key port).
    + intros key1 port1 key2 port2 Hkey1 Hkey2 Hname.
      by apply (proj2 (Hports key2 port2 Hkey2) key1 port1).
  - right. exists e. split; [done|by right].
Qed.

Lemma output_data_ports_setter_cases (output_data_ports : gmap Z DataPort) (s : State) :
  (output_data_ports_setter output_data_ports s
   = (Return tt, with_output_data_ports output_data_ports s)
   ∧ (∀ key port, output_data_ports !! key = Some port →
        data_port_id port = key ∧ _input_data_ports s !! key = None)
   ∧ port_names_unique output_data_ports)
  ∨ (∃ e, output_data_ports_setter output_data_ports s = (Raise e, s)
          ∧ (exc_class e = AttributeError ∨ exc_class e = ValueError)).
Proof.
  rewrite output_data_ports_setter_unfold.
  destruct (existsb _ (iteritems _ output_data_ports)) eqn:Hkeys.
  { right. eexists. split; [done|by left]. }
  pose proof (keys_match_ids _ Hkeys) as Hids.
  destruct (for_each_validate (iteritems _ output_data_ports)
              (λ '(port_id, port),
                 try_except (set_parent (CDataPort port (Some Output)))
                   (except_ValueError
                      (modify (with_output_data_ports (_output_data_ports s)))))
              (λ entry, CDataPort entry.2 (Some Output)) s
              (with_output_data_ports output_data_ports s))
    as [[Hloop Hall]|(e & Hloop & Hclass)].
  - intros [key port] _. rewrite attach_or_restore. cbn [snd].
    by destruct s.
  - left. split; [done|].
    assert (∀ key port, output_data_ports !! key = Some port →
              _input_data_ports s !! key = None
              ∧ ∀ key' other, output_data_ports !! key' = Some other →
                  port_name port = port_name other → key' = key) as Hports.
    { intros key port Hkey. pose proof (Hids _ _ Hkey) as Hid.
      pose proof Hkey as Hvalid%elem_of_iteritems. apply Hall in Hvalid.
      cbn [check_child_validity snd] in Hvalid.
      apply _check_data_port_validity_stored_output in Hvalid.
      - rewrite Hid in Hvalid. by destruct s.
      - rewrite Hid. destruct s; cbn. by eexists. }
    split.
    + intros key port Hkey. split; [by eauto|]. by apply (Hports key port).
    + intros key1 port1 key2 port2 Hkey1 Hkey2 Hname.
      by apply (proj2 (Hports key2 port2 Hkey2) key1 port1).
  - right. exists e. split; [done|by right].
Qed.

(** X3.  Assigning the input ports of a state is all or nothing.  If the
    setter raises, the state is as it was before, and the error is an
    [AttributeError] (a key differs from the id of its port) or a
    [ValueError] (a port is not valid in the state).  If it returns, the
    input ports are the assigned ones and nothing else has changed; every
    port sits under its own id, no output port of the state has that id,
    and no two of the assigned ports carry the same name. *)
Theorem input_data_ports_setter_all_or_nothing
    (input_data_ports : gmap Z DataPort) (s : State) :
  (∀ e s', input_data_ports_setter input_data_ports s = (Raise e, s') →
     s' = s ∧ (exc_class e = AttributeError ∨ exc_class e = ValueError))
  ∧ (∀ s', input_data_ports_setter input_data_ports s = (Return tt, s') →
       s' = with_input_data_ports input_data_ports s
       ∧ (∀ key port, input_data_ports !! key = Some port →
            data_port_id port = key ∧ _output_data_ports s !! key = None)
       ∧ port_names_unique input_data_ports).
Proof.
  destruct (input_data_ports_setter_cases input_data_ports s)
    as [(-> & Hids & Hnames)|(e & -> & Hclass)].
  - split; [done|]. by intros s' [= <-].
  - split; [|done]. by intros e' s' [= <- <-].
Qed.

(** X4.  Assigning the output ports of a state is all or nothing in the
    same way: a raise ([AttributeError] or [ValueError]) leaves the state as
    it was; a return installs the assigned ports and changes nothing else,
    every port sits under its own id, no input port of the state has that
    id, and no two of the assigned ports carry the same name. *)
Theorem output_data_ports_setter_all_or_nothing
    (output_data_ports : gmap Z DataPort) (s : State) :
  (∀ e s', output_data_ports_setter output_data_ports s = (Raise e, s') →
     s' = s ∧ (exc_class e = AttributeError ∨ exc_class e = ValueError))
  ∧ (∀ s', output_data_ports_setter output_data_ports s = (Return tt, s') →
       s' = with_output_data_ports output_data_ports s
       ∧ (∀ key port, output_data_ports !! key = Some port →
            data_port_id port = key ∧ _input_data_ports s !! key = None)
       ∧ port_names_unique output_data_ports).
Proof.
  destruct (output_data_ports_setter_cases output_data_ports s)
    as [(-> & Hids & Hnames)|(e & -> & Hclass)].
  - split; [done|]. by intros s' [= <-].
  - split; [|done]. by intros e' s' [= <- <-].
Qed.

(** ** Removal of ports and outcomes, and what it does to the parent *)

Lemma with_parent_id (s : State) : with_parent (_parent s) s = s.
Proof. by destruct s. Qed.

Lemma for_each_parent_remove_data_flow_spec (ids : list Z) (s : State) :
  for_each ids parent_remove_data_flow s
  = (Return tt,
     with_parent
       ((λ parent, mkContainerState (transitions parent)
                     (foldl (λ flows data_flow_id, delete data_flow_id flows)
                        (data_flows parent) ids)) <$> _parent s)
       s).
Proof.
  revert s. induction ids as [|data_flow_id ids IH]; intros s.
  - cbn. destruct s as [? ? ? ? ? ? ? ? ? ? ? ? ? ? ? [[]|] ? ? ?]; done.
  - cbn [for_each foldl]. unfold mbind, M_bind.
    unfold parent_remove_data_flow at 1. unfold modify. rewrite IH.
    destruct s as [? ? ? ? ? ? ? ? ? ? ? ? ? ? ? [[]|] ? ? ?]; done.
Qed.

Lemma lookup_foldl_delete {A : Type} (ids : list Z) (d : gmap Z A) (j : Z) :
  foldl (λ flows data_flow_id, delete data_flow_id flows) d ids !! j
  = if bool_decide (j ∈ ids) then None else d !! j.
Proof.
  revert d. induction ids as [|i ids IH]; intros d.
  - cbn. rewrite bool_decide_eq_false_2; [done|]. apply not_elem_of_nil.
  - cbn [foldl]. rewrite IH. destruct (decide (j ∈ ids)) as [Hin|Hin].
    + rewrite !bool_decide_eq_true_2; [done|by right|done].
    + rewrite (bool_decide_eq_false_2 _ Hin).
      destruct (decide (j = i)) as [->|Hne].
      * rewrite lookup_delete_eq. rewrite bool_decide_eq_true_2; [done|by left].
      * rewrite lookup_delete_ne by done. rewrite bool_decide_eq_false_2; [done|].
        by intros [?|?]%elem_of_cons.
Qed.

Lemma elem_of_List_filter {A : Type} (f : A → bool) (l : list A) (x : A) :
  x ∈ List.filter f l ↔ x ∈ l ∧ f x = true.
Proof. rewrite !list_elem_of_In. apply filter_In. Qed.

Lemma remove_data_flows_with_data_port_id_spec (data_port_id : Z) (s : State) :
  ∃ parent',
    remove_data_flows_with_data_port_id data_port_id s
    = (Return tt, with_parent parent' s)
    ∧ data_flows_removed (_state_id s) data_port_id (_parent s) parent'.
Proof.
  unfold remove_data_flows_with_data_port_id. munfold.
  destruct (_parent s) as [parent|] eqn:Hparent.
  2: { exists None. split; [|done]. by rewrite <- Hparent, with_parent_id. }
  rewrite for_each_parent_remove_data_flow_spec. rewrite Hparent. cbn [fmap option_fmap option_map].
  eexists. split; [done|]. cbn [data_flows_removed transitions data_flows].
  split; [done|]. intros j data_flow. rewrite lookup_foldl_delete.
  set (touching := λ '(_, data_flow0),
         bool_decide (df_from_state data_flow0 = _state_id s)
         && bool_decide (from_key data_flow0 = data_port_id)
         || bool_decide (df_to_state data_flow0 = _state_id s)
            && bool_decide (to_key data_flow0 = data_port_id)).
  assert (∀ key flow, touching (key : Z, flow) = true
                      ↔ touches (_state_id s) data_port_id flow) as Htouch.
  { intros key flow. unfold touching, touches.
    rewrite orb_true_iff, !andb_true_iff, !bool_decide_eq_true. done. }
  split.
  - destruct (bool_decide _) eqn:Hin; [done|]. intros Hflow. split; [done|].
    intros Htouches. apply bool_decide_eq_false in Hin. apply Hin.
    apply list_elem_of_fmap. exists (j, data_flow). split; [done|].
    apply elem_of_List_filter. split; [by apply elem_of_iteritems|].
    by apply Htouch.
  - intros [Hflow Hnot]. rewrite bool_decide_eq_false_2; [done|].
    intros ([j' flow'] & -> & [Hin%elem_of_iteritems Htrue]%elem_of_List_filter)%list_elem_of_fmap.
    cbn [fst] in Hflow. rewrite Hflow in Hin. injection Hin as <-.
    apply Hnot. by apply (Htouch j').
Qed.

Lemma remove_input_data_port_spec (data_port_id : Z) (force : bool) (s : State) :
  (_input_data_ports s !! data_port_id = None
   ∧ remove_input_data_port data_port_id force s
     = (Raise (Exc AttributeError "input data port with name %s does not exit"
                 [VInt data_port_id]), s))
  ∨ (is_Some (_input_data_ports s !! data_port_id)
     ∧ ∃ parent',
         remove_input_data_port data_port_id force s
         = (Return tt,
            with_input_data_ports (delete data_port_id (_input_data_ports s))
              (with_parent parent' s))
         ∧ data_flows_removed (_state_id s) data_port_id (_parent s) parent').
Proof.
  unfold remove_input_data_port, mbind, M_bind, get. lazy beta iota zeta.
  destruct (dict_in data_port_id (_input_data_ports s)) eqn:Hin.
  - right. split; [by apply dict_in_true|].
    destruct (remove_data_flows_with_data_port_id_spec data_port_id s)
      as (parent' & Hflows & Hremoved).
    exists parent'. split; [|done]. rewrite Hflows. done.
  - left. split; [by apply dict_in_false|done].
Qed.

Lemma remove_output_data_port_spec (data_port_id : Z) (force : bool) (s : State) :
  (_output_data_ports s !! data_port_id = None
   ∧ remove_output_data_port data_port_id force s
     = (Raise (Exc AttributeError "output data port with name %s does not exit"
                 [VInt data_port_id]), s))
  ∨ (is_Some (_output_data_ports s !! data_port_id)
     ∧ ∃ parent',
         remove_output_data_port data_port_id force s
         = (Return tt,
            with_output_data_ports (delete data_port_id (_output_data_ports s))
              (with_parent parent' s))
         ∧ data_flows_removed (_state_id s) data_port_id (_parent s) parent').
Proof.
  unfold remove_output_data_port, mbind, M_bind, get. lazy beta iota zeta.
  destruct (dict_in data_port_id (_output_data_ports s)) eqn:Hin.
  - right. split; [by apply dict_in_true|].
    destruct (remove_data_flows_with_data_port_id_spec data_port_id s)
      as (parent' & Hflows & Hremoved).
    exists parent'. split; [|done]. rewrite Hflows. done.
  - left. split; [by apply dict_in_false|done].
Qed.

(** X5.  Removing an input port that the state does not have raises
    [AttributeError] and changes nothing.  Removing one that it has
    returns; the port is gone from the input ports, and in the parent of the
    state exactly the data flows that start or end at this port of this
    state are gone, while the transitions of the parent and everything else
    in the state are as before; for a root state only the port goes.  The
    flag [force] makes no difference. *)
Theorem remove_input_data_port_removes_data_flows (data_port_id : Z) (force : bool)
    (s : State) :
  (_input_data_ports s !! data_port_id = None →
   remove_input_data_port data_port_id force s
   = (Raise (Exc AttributeError "input data port with name %s does not exit"
               [VInt data_port_id]), s))
  ∧ (is_Some (_input_data_ports s !! data_port_id) →
     ∃ parent',
       remove_input_data_port data_port_id force s
       = (Return tt,
          with_input_data_ports (delete data_port_id (_input_data_ports s))
            (with_parent parent' s))
       ∧ data_flows_removed (_state_id s) data_port_id (_parent s) parent')
  ∧ remove_input_data_port data_port_id force s
    = remove_input_data_port data_port_id (negb force) s.
Proof.
  split; [|split; [|done]].
  - intros Hnone.
    destruct (remove_input_data_port_spec data_port_id force s)
      as [[_ ->]|[Hsome _]]; [done|].
    rewrite Hnone in Hsome. by destruct Hsome.
  - intros Hsome.
    destruct (remove_input_data_port_spec data_port_id force s)
      as [[Hnone _]|[_ Hremove]]; [|done].
    rewrite Hnone in Hsome. by destruct Hsome.
Qed.

(** X6.  The same holds for output ports: removing a missing one raises
    [AttributeError] and changes nothing; removing an existing one deletes
    the port and, in the parent, exactly the data flows that start or end at
    this port of this state. *)
Theorem remove_output_data_port_removes_data_flows (data_port_id : Z) (force : bool)
    (s : State) :
  (_output_data_ports s !! data_port_id = None →
   remove_output_data_port data_port_id force s
   = (Raise (Exc AttributeError "output data port with name %s does not exit"
               [VInt data_port_id]), s))
  ∧ (is_Some (_output_data_ports s !! data_port_id) →
     ∃ parent',
       remove_output_data_port data_port_id force s
       = (Return tt,
          with_output_data_ports (delete data_port_id (_output_data_ports s))
            (with_parent parent' s))
       ∧ data_flows_removed (_state_id s) data_port_id (_parent s) parent')
  ∧ remove_output_data_port data_port_id force s
    = remove_output_data_port data_port_id (negb force) s.
Proof.
  split; [|split; [|done]].
  - intros Hnone.
    destruct (remove_output_data_port_spec data_port_id force s)
      as [[_ ->]|[Hsome _]]; [done|].
    rewrite Hnone in Hsome. by destruct Hsome.
  - intros Hsome.
    destruct (remove_output_data_port_spec data_port_id force s)
      as [[Hnone _]|[_ Hremove]]; [|done].
    rewrite Hnone in Hsome. by destruct Hsome.
Qed.

(** The removal of the transition that leaves an outcome. *)
Lemma find_leaving_transition (state_id : string) (outcome_id : Z)
    (parent : ContainerState) :
  match List.find (λ '(_, transition),
            bool_decide (from_outcome transition = Some outcome_id)
            && bool_decide (from_state transition = Some state_id))
          (iteritems _ (transitions parent)) with
  | Some (transition_id, transition) =>
      transitions parent !! transition_id = Some transition
      ∧ leaves state_id outcome_id transition
  | None =>
      ∀ transition_id transition,
        transitions parent !! transition_id = Some transition →
        ¬ leaves state_id outcome_id transition
  end.
Proof.
  destruct (List.find _ _) as [[transition_id transition]|] eqn:Hfind.
  - apply find_some in Hfind as [Hin%list_elem_of_In%elem_of_iteritems Htrue].
    split; [done|].
    apply andb_true_iff in Htrue as [?%bool_decide_eq_true ?%bool_decide_eq_true].
    by split.
  - intros transition_id transition Hin%elem_of_iteritems%list_elem_of_In [Hout Hfrom].
    apply (find_none _ _ Hfind) in Hin. cbn in Hin.
    by rewrite !bool_decide_eq_true_2 in Hin.
Qed.

Lemma remove_outcome_allowed (outcome_id : Z) (force : bool) (s : State) :
  is_Some (_outcomes s !! outcome_id) →
  force = true ∨ (outcome_id ≠ -1 ∧ outcome_id ≠ -2) →
  ∃ parent',
    remove_outcome outcome_id force s
    = (Return tt,
       with_outcomes (delete outcome_id (_outcomes s)) (with_parent parent' s))
    ∧ transition_removed (_state_id s) outcome_id (_parent s) parent'.
Proof.
  intros Hsome%dict_in_true Hallowed. unfold remove_outcome, remove_outcome_hook.
  unfold mbind, M_bind, get. lazy beta iota zeta. rewrite Hsome. cbn [negb].
  assert (negb force
          && (bool_decide (outcome_id = -1) || bool_decide (outcome_id = -2))
          = false) as ->.
  { destruct Hallowed as [->|[? ?]]; [done|].
    rewrite !bool_decide_eq_false_2 by done. by destruct force. }
  munfold. destruct (_parent s) as [parent|] eqn:Hparent.
  2: { exists None. split; [|done]. by rewrite <- Hparent, with_parent_id. }
  pose proof (find_leaving_transition (_state_id s) outcome_id parent) as Hfind.
  destruct (List.find _ _) as [[transition_id transition]|].
  - unfold parent_remove_transition, modify. rewrite Hparent.
    cbn [fmap option_fmap option_map]. eexists. split; [by destruct s|].
    cbn [transition_removed data_flows transitions]. split; [done|].
    right. exists transition_id, transition. by destruct Hfind.
  - exists (Some parent). split; [by rewrite <- Hparent, with_parent_id|].
    cbn [transition_removed]. split; [done|]. by left.
Qed.

Lemma remove_outcome_missing (outcome_id : Z) (force : bool) (s : State) :
  _outcomes s !! outcome_id = None →
  remove_outcome outcome_id force s
  = (Raise (Exc AttributeError "There is no outcome_id %s" [VInt outcome_id]), s).
Proof.
  intros Hnone%dict_in_false. unfold remove_outcome.
  unfold mbind, M_bind, get. lazy beta iota zeta. by rewrite Hnone.
Qed.

(** X7.  [remove_outcome] on an id that the state does not have raises
    [AttributeError] and changes nothing; so does the removal of a reserved
    id (-1 or -2) that is not forced.  On an outcome that the state has, and
    that is not reserved unless the removal is forced, it returns: the
    outcome is gone; the parent has lost one transition that left this
    outcome of this state if it had one (a single one, also where several
    leave the outcome) and none otherwise; the data flows of the parent and
    everything else in the state are as before. *)
Theorem remove_outcome_removes_one_transition (outcome_id : Z) (force : bool)
    (s : State) :
  (_outcomes s !! outcome_id = None →
   remove_outcome outcome_id force s
   = (Raise (Exc AttributeError "There is no outcome_id %s" [VInt outcome_id]), s))
  ∧ (is_Some (_outcomes s !! outcome_id) →
     force = true ∨ (outcome_id ≠ -1 ∧ outcome_id ≠ -2) →
     ∃ parent',
       remove_outcome outcome_id force s
       = (Return tt,
          with_outcomes (delete outcome_id (_outcomes s)) (with_parent parent' s))
       ∧ transition_removed (_state_id s) outcome_id (_parent s) parent')
  ∧ (force = false → outcome_id = -1 ∨ outcome_id = -2 →
     ∃ e, remove_outcome outcome_id force s = (Raise e, s)
          ∧ exc_class e = AttributeError).
Proof.
  split; [apply remove_outcome_missing|]. split; [apply remove_outcome_allowed|].
  intros ->. apply remove_reserved_outcome_refused.
Qed.

(** ** Adding an element and removing it again *)

Lemma add_outcome_cases (name : string) (outcome_id : option Z) (s : State) :
  let new_id := default (generate_outcome_id (keys (_outcomes s))) outcome_id in
  (is_Some (_outcomes s !! new_id)
   ∧ add_outcome name outcome_id s
     = (Return None,
        with_logger
          (logger s
           ++ [mkLogRecord ERROR "Two outcomes cannot have the same outcome_ids" []])
          s))
  ∨ (_outcomes s !! new_id = None ∧ outcome_name_in_use name s
     ∧ ∃ e, add_outcome name outcome_id s = (Raise e, s)
            ∧ exc_class e = ValueError)
  ∨ (_outcomes s !! new_id = None ∧ ¬ outcome_name_in_use name s
     ∧ add_outcome name outcome_id s
       = (Return (Some new_id),
          with_outcomes (<[new_id := mkOutcome new_id name]> (_outcomes s)) s)).
Proof.
  intros new_id. unfold add_outcome, Outcome_init, value_in, key_in. munfold.
  cbn [hashable dict_key]. lazy beta iota zeta.
  change (match outcome_id with Some i => i | None => _ end) with new_id.
  destruct (dict_in new_id (_outcomes s)) eqn:Hin.
  - left. split; [by apply dict_in_true|done].
  - apply dict_in_false in Hin. right. rewrite set_parent_spec.
    cbn [check_child_validity].
    destruct (_check_outcome_validity s (mkOutcome new_id name) false).1 eqn:Hvalid.
    + right.
      apply (_check_outcome_validity_new s (mkOutcome new_id name)) in Hvalid
        as [_ Hname].
      by split.
    + left. split; [done|]. split.
      * destruct (outcome_name_in_use_dec name s) as [Huse|Huse]; [done|].
        exfalso. assert (false = true) as Habs; [|done]. rewrite <- Hvalid.
        by apply (_check_outcome_validity_new s (mkOutcome new_id name)).
      * eexists. split; [done|].
        by destruct (_check_outcome_validity s (mkOutcome new_id name) false).2.
Qed.

Lemma transition_removed_none (state_id : string) (outcome_id : Z)
    (before after : option ContainerState) :
  (∀ parent transition_id transition,
     before = Some parent →
     transitions parent !! transition_id = Some transition →
     ¬ leaves state_id outcome_id transition) →
  transition_removed state_id outcome_id before after → after = before.
Proof.
  intros Hnone. destruct before as [[ts fs]|], after as [[ts' fs']|]; try done.
  cbn. intros [-> [[_ ->]|(transition_id & transition & Hin & Hleaves & _)]]; [done|].
  by destruct (Hnone _ _ _ eq_refl Hin).
Qed.

Lemma data_flows_removed_none (state_id : string) (data_port_id : Z)
    (before after : option ContainerState) :
  (∀ parent data_flow_id data_flow,
     before = Some parent →
     data_flows parent !! data_flow_id = Some data_flow →
     ¬ touches state_id data_port_id data_flow) →
  data_flows_removed state_id data_port_id before after → after = before.
Proof.
  intros Hnone. destruct before as [[ts fs]|], after as [[ts' fs']|]; try done.
  cbn. intros [-> Hflows]. f_equal. f_equal. apply map_eq. intros j.
  apply option_eq. intros data_flow. rewrite Hflows. split; [by intros [? _]|].
  intros Hin. split; [done|]. by apply (Hnone _ _ _ eq_refl Hin).
Qed.

Lemma add_outcome_remove_outcome (name : string) (outcome_id : option Z)
    (force : bool) (s s' : State) (new_id : Z) :
  add_outcome name outcome_id s = (Return (Some new_id), s') →
  (∀ parent transition_id transition,
     _parent s = Some parent →
     transitions parent !! transition_id = Some transition →
     ¬ leaves (_state_id s) new_id transition) →
  force = true ∨ (new_id ≠ -1 ∧ new_id ≠ -2) →
  new_id = default (generate_outcome_id (keys (_outcomes s))) outcome_id
  ∧ _outcomes s !! new_id = None
  ∧ _outcomes s' !! new_id = Some (mkOutcome new_id name)
  ∧ remove_outcome new_id force s' = (Return tt, s).
Proof.
  intros Hadd Hnone Hallowed.
  destruct (add_outcome_cases name outcome_id s)
    as [[_ Heq]|[(_ & _ & e & Heq & _)|(Hfree & _ & Heq)]];
    rewrite Heq in Hadd; try done.
  injection Hadd as <- <-. split; [done|]. split; [done|].
  split; [destruct s; cbn; by rewrite lookup_insert_eq|].
  set (new_id := default (generate_outcome_id (keys (_outcomes s))) outcome_id) in *.
  destruct (remove_outcome_allowed new_id force
              (with_outcomes (<[new_id := mkOutcome new_id name]> (_outcomes s)) s))
    as (parent' & -> & Hremoved); [|done|].
  { destruct s; cbn. rewrite lookup_insert_eq. by eexists. }
  apply transition_removed_none in Hremoved.
  - subst parent'. f_equal. destruct s; cbn in *. by rewrite delete_insert_id.
  - destruct s; cbn in *. done.
Qed.

(** X8.  An outcome that [add_outcome] has added can be removed again, and
    the state is then exactly as it was before the two calls: if
    [add_outcome] returns the id [new_id], that id was free and now holds an
    outcome with the given name, and [remove_outcome new_id] returns and
    restores the state, provided that no transition of the parent leaves the
    outcome [new_id] of this state and that the removal is forced or
    [new_id] is not a reserved id. *)
Theorem add_outcome_then_remove_outcome_restores (name : string)
    (outcome_id : option Z) (force : bool) (s s' : State) (new_id : Z) :
  add_outcome name outcome_id s = (Return (Some new_id), s') →
  (∀ parent transition_id transition,
     _parent s = Some parent →
     transitions parent !! transition_id = Some transition →
     ¬ leaves (_state_id s) new_id transition) →
  force = true ∨ (new_id ≠ -1 ∧ new_id ≠ -2) →
  new_id = default (generate_outcome_id (keys (_outcomes s))) outcome_id
  ∧ _outcomes s !! new_id = None
  ∧ _outcomes s' !! new_id = Some (mkOutcome new_id name)
  ∧ remove_outcome new_id force s' = (Return tt, s).
Proof. apply add_outcome_remove_outcome. Qed.

Lemma add_input_data_port_returns (name : string) (dt : DataType) (dv : Value)
    (id_opt : option Z) (s s' : State) (new_id : Z) :
  add_input_data_port name dt dv id_opt s = (Return new_id, s') →
  new_id = default (generate_data_port_id (get_data_port_ids s)) id_opt
  ∧ _input_data_ports s !! new_id = None
  ∧ _output_data_ports s !! new_id = None
  ∧ ¬ port_name_in_use name (_input_data_ports s)
  ∧ s' = with_input_data_ports
           (<[new_id := mkDataPort new_id name dt dv]> (_input_data_ports s)) s.
Proof.
  intros Hadd. pose proof (add_input_data_port_cases s name dt dv id_opt) as Hcases.
  cbv zeta in Hcases.
  destruct ((DataPort_init name dt dv _ s).1) as [data_port|e].
  - destruct Hcases as (Hin & Hout & Hclash & Hfresh).
    destruct (port_name_in_use_dec name (_input_data_ports s)) as [Huse|Huse].
    + by rewrite (Hclash Huse) in Hadd.
    + rewrite (Hfresh Huse) in Hadd. by injection Hadd as <- <-.
  - by rewrite Hcases in Hadd.
Qed.

Lemma add_output_data_port_returns (name : string) (dt : DataType) (dv : Value)
    (id_opt : option Z) (s s' : State) (new_id : Z) :
  add_output_data_port name dt dv id_opt s = (Return new_id, s') →
  new_id = default (generate_data_port_id (get_data_port_ids s)) id_opt
  ∧ _input_data_ports s !! new_id = None
  ∧ _output_data_ports s !! new_id = None
  ∧ ¬ port_name_in_use name (_output_data_ports s)
  ∧ s' = with_output_data_ports
           (<[new_id := mkDataPort new_id name dt dv]> (_output_data_ports s)) s.
Proof.
  intros Hadd. pose proof (add_output_data_port_cases s name dt dv id_opt) as Hcases.
  cbv zeta in Hcases.
  destruct ((DataPort_init name dt dv _ s).1) as [data_port|e].
  - destruct Hcases as (Hin & Hout & Hclash & Hfresh).
    destruct (port_name_in_use_dec name (_output_data_ports s)) as [Huse|Huse].
    + by rewrite (Hclash Huse) in Hadd.
    + rewrite (Hfresh Huse) in Hadd. by injection Hadd as <- <-.
  - by rewrite Hcases in Hadd.
Qed.

Lemma add_input_data_port_remove_input_data_port (name : string) (dt : DataType)
    (dv : Value) (id_opt : option Z) (force : bool) (s s' : State) (new_id : Z) :
  add_input_data_port name dt dv id_opt s = (Return new_id, s') →
  (∀ parent data_flow_id data_flow,
     _parent s = Some parent →
     data_flows parent !! data_flow_id = Some data_flow →
     ¬ touches (_state_id s) new_id data_flow) →
  remove_input_data_port new_id force s' = (Return tt, s).
Proof.
  intros (_ & Hfree & _ & _ & ->)%add_input_data_port_returns Hnone.
  destruct (remove_input_data_port_spec new_id force
              (with_input_data_ports
                 (<[new_id := mkDataPort new_id name dt dv]> (_input_data_ports s)) s))
    as [[Habsent _]|[_ (parent' & -> & Hremoved)]].
  { destruct s; cbn in Habsent. by rewrite lookup_insert_eq in Habsent. }
  apply data_flows_removed_none in Hremoved.
  - subst parent'. f_equal. destruct s; cbn in *. by rewrite delete_insert_id.
  - destruct s; cbn in *. done.
Qed.

Lemma add_output_data_port_remove_output_data_port (name : string) (dt : DataType)
    (dv : Value) (id_opt : option Z) (force : bool) (s s' : State) (new_id : Z) :
  add_output_data_port name dt dv id_opt s = (Return new_id, s') →
  (∀ parent data_flow_id data_flow,
     _parent s = Some parent →
     data_flows parent !! data_flow_id = Some data_flow →
     ¬ touches (_state_id s) new_id data_flow) →
  remove_output_data_port new_id force s' = (Return tt, s).
Proof.
  intros (_ & _ & Hfree & _ & ->)%add_output_data_port_returns Hnone.
  destruct (remove_output_data_port_spec new_id force
              (with_output_data_ports
                 (<[new_id := mkDataPort new_id name dt dv]> (_output_data_ports s)) s))
    as [[Habsent _]|[_ (parent' & -> & Hremoved)]].
  { destruct s; cbn in Habsent. by rewrite lookup_insert_eq in Habsent. }
  apply data_flows_removed_none in Hremoved.
  - subst parent'. f_equal. destruct s; cbn in *. by rewrite delete_insert_id.
  - destruct s; cbn in *. done.
Qed.

(** X9.  A port that [add_input_data_port] or [add_output_data_port] has
    added can be removed again, and the state is then exactly as it was
    before the two calls, provided that no data flow of the parent starts or
    ends at the id of the new port in this state. *)
Theorem add_data_port_then_remove_data_port_restores (name : string)
    (dt : DataType) (dv : Value) (id_opt : option Z) (force : bool)
    (s s' : State) (new_id : Z) :
  (∀ parent data_flow_id data_flow,
     _parent s = Some parent →
     data_flows parent !! data_flow_id = Some data_flow →
     ¬ touches (_state_id s) new_id data_flow) →
  (add_input_data_port name dt dv id_opt s = (Return new_id, s') →
   remove_input_data_port new_id force s' = (Return tt, s))
  ∧ (add_output_data_port name dt dv id_opt s = (Return new_id, s') →
     remove_output_data_port new_id force s' = (Return tt, s)).
Proof.
  intros Hnone. split; intros Hadd.
  - by eapply add_input_data_port_remove_input_data_port.
  - by eapply add_output_data_port_remove_output_data_port.
Qed.

(** ** Lookup of data ports *)

Lemma port_id_by_name_Some (name : string) (entries : list (Z * DataPort)) (key : Z) :
  port_id_by_name name entries = Some key →
  ∃ port, (key, port) ∈ entries ∧ port_name port = name.
Proof.
  induction entries as [|[port_id port] rest IH]; [done|]. cbn.
  destruct (decide (port_name port = name)) as [Hname|Hname].
  - rewrite (bool_decide_eq_true_2 _ Hname). intros [= <-]. exists port.
    split; [by left|done].
  - rewrite (bool_decide_eq_false_2 _ Hname). intros (port' & Hin & Hname')%IH.
    exists port'. split; [by right|done].
Qed.

Lemma port_id_by_name_None (name : string) (entries : list (Z * DataPort)) :
  port_id_by_name name entries = None →
  ∀ key port, (key, port) ∈ entries → port_name port ≠ name.
Proof.
  induction entries as [|[port_id port] rest IH]; cbn.
  - intros _ key port' Hin. by apply elem_of_nil in Hin.
  - destruct (decide (port_name port = name)) as [Hname|Hname].
    + by rewrite (bool_decide_eq_true_2 _ Hname).
    + rewrite (bool_decide_eq_false_2 _ Hname). intros Hrest key port'.
      intros [[= -> ->]|Hin]%elem_of_cons; [done|]. by eapply IH.
Qed.

(** The ports of a direction. *)
Lemma port_id_by_name_dict (name : string) (ports : gmap Z DataPort) :
  match port_id_by_name name (iteritems _ ports) with
  | Some key => ∃ port, ports !! key = Some port ∧ port_name port = name
  | None => ¬ port_name_in_use name ports
  end.
Proof.
  destruct (port_id_by_name name (iteritems _ ports)) as [key|] eqn:Hfind.
  - apply port_id_by_name_Some in Hfind as (port & Hin%elem_of_iteritems & Hname).
    by exists port.
  - intros (key & port & Hin%elem_of_iteritems & Hname).
    by apply (port_id_by_name_None _ _ Hfind key port).
Qed.

Lemma get_io_data_port_id_from_name_and_type_input (name : string) (s : State) :
  (∃ key port, _input_data_ports s !! key = Some port ∧ port_name port = name
               ∧ get_io_data_port_id_from_name_and_type name (Some Input) s
                 = (Return (Some key), s))
  ∨ (¬ port_name_in_use name (_input_data_ports s)
     ∧ get_io_data_port_id_from_name_and_type name (Some Input) s
       = (Raise (Exc AttributeError "Name '{0}' is not in input_data_ports"
                   [VStr name]), s)).
Proof.
  unfold get_io_data_port_id_from_name_and_type. munfold. lazy beta iota zeta.
  pose proof (port_id_by_name_dict name (_input_data_ports s)) as Hfind.
  destruct (port_id_by_name name (iteritems _ (_input_data_ports s))) as [key|].
  - left. destruct Hfind as (port & Hin & Hname). by exists key, port.
  - by right.
Qed.

Lemma get_io_data_port_id_from_name_and_type_output (name : string) (s : State) :
  (∃ key port, _output_data_ports s !! key = Some port ∧ port_name port = name
               ∧ get_io_data_port_id_from_name_and_type name (Some Output) s
                 = (Return (Some key), s))
  ∨ (¬ port_name_in_use name (_output_data_ports s)
     ∧ get_io_data_port_id_from_name_and_type name (Some Output) s
       = (if bool_decide (name = "error") then Return None
          else Raise (Exc AttributeError "Name '{0}' is not in output_data_ports"
                        [VStr name]),
          s)).
Proof.
  unfold get_io_data_port_id_from_name_and_type. munfold. lazy beta iota zeta.
  pose proof (port_id_by_name_dict name (_output_data_ports s)) as Hfind.
  destruct (port_id_by_name name (iteritems _ (_output_data_ports s))) as [key|].
  - left. destruct Hfind as (port & Hin & Hname). by exists key, port.
  - right. split; [done|]. by destruct (bool_decide (name = "error")).
Qed.

(** X10.  [get_io_data_port_id_from_name_and_type] never changes the state.
    For an input port type it returns the id of an input port with the
    given name when there is one, and raises [AttributeError] otherwise.
    For an output port type it does the same on the output ports, except
    that for the name "error" with no such output port it returns [None]
    instead of raising.  For every other type it returns [None]. *)
Theorem get_io_data_port_id_from_name_and_type_spec (name : string) (s : State) :
  ((∃ key port, _input_data_ports s !! key = Some port ∧ port_name port = name
                ∧ get_io_data_port_id_from_name_and_type name (Some Input) s
                  = (Return (Some key), s))
   ∨ (¬ port_name_in_use name (_input_data_ports s)
      ∧ get_io_data_port_id_from_name_and_type name (Some Input) s
        = (Raise (Exc AttributeError "Name '{0}' is not in input_data_ports"
                    [VStr name]), s)))
  ∧ ((∃ key port, _output_data_ports s !! key = Some port ∧ port_name port = name
                  ∧ get_io_data_port_id_from_name_and_type name (Some Output) s
                    = (Return (Some key), s))
     ∨ (¬ port_name_in_use name (_output_data_ports s)
        ∧ get_io_data_port_id_from_name_and_type name (Some Output) s
          = (if bool_decide (name = "error") then Return None
             else Raise (Exc AttributeError "Name '{0}' is not in output_data_ports"
                           [VStr name]),
             s)))
  ∧ get_io_data_port_id_from_name_and_type name None s = (Return None, s).
Proof.
  split; [apply get_io_data_port_id_from_name_and_type_input|].
  split; [apply get_io_data_port_id_from_name_and_type_output|done].
Qed.

Lemma get_data_port_by_id_lookup (s : State) (data_port_id : Z) :
  get_data_port_by_id s data_port_id
  = match _input_data_ports s !! data_port_id with
    | Some port => Some port
    | None => _output_data_ports s !! data_port_id
    end.
Proof.
  unfold get_data_port_by_id.
  destruct (_input_data_ports s !! data_port_id) as [port|] eqn:Hin.
  - assert (dict_in data_port_id (_input_data_ports s) = true) as ->; [|done].
    apply dict_in_true. by eexists.
  - apply dict_in_false in Hin as ->.
    destruct (_output_data_ports s !! data_port_id) as [port|] eqn:Hout.
    + assert (dict_in data_port_id (_output_data_ports s) = true) as ->; [|done].
      apply dict_in_true. by eexists.
    + by apply dict_in_false in Hout as ->.
Qed.

(** X11.  [get_data_port_by_id] finds a port for exactly the ids that
    [get_data_port_ids] lists; the port it returns is the input port with
    that id if there is one, and the output port with that id otherwise. *)
Theorem get_data_port_by_id_spec (s : State) (data_port_id : Z) :
  (is_Some (get_data_port_by_id s data_port_id)
   ↔ data_port_id ∈ get_data_port_ids s)
  ∧ (∀ port, _input_data_ports s !! data_port_id = Some port →
       get_data_port_by_id s data_port_id = Some port)
  ∧ (_input_data_ports s !! data_port_id = None →
     get_data_port_by_id s data_port_id = _output_data_ports s !! data_port_id).
Proof.
  rewrite get_data_port_by_id_lookup. unfold get_data_port_ids.
  rewrite elem_of_app, !elem_of_keys. split; [|split].
  - destruct (_input_data_ports s !! data_port_id) as [port|].
    + split; [by left|by eexists].
    + split; [by right|]. intros [[? [=]]|?]; done.
  - by intros port ->.
  - by intros ->.
Qed.

Lemma lookup_after_add (name : string) (ports : gmap Z DataPort) (new_id : Z)
    (port : DataPort) :
  port_name port = name →
  ¬ port_name_in_use name ports →
  ∀ key other, <[new_id := port]> ports !! key = Some other →
    port_name other = name → key = new_id.
Proof.
  intros Hname Huse key other Hkey Hother.
  destruct (decide (key = new_id)) as [|Hne]; [done|].
  rewrite lookup_insert_ne in Hkey by done. destruct Huse. by exists key, other.
Qed.

(** X12.  A port that has just been added is found by both lookups: after
    [add_input_data_port] (or [add_output_data_port]) has returned the id
    [new_id], [get_data_port_by_id] returns, for [new_id], the port with the
    given name, type and default value, and
    [get_io_data_port_id_from_name_and_type] returns [new_id] for the given
    name and the direction of the port. *)
Theorem added_data_port_is_found (name : string) (dt : DataType) (dv : Value)
    (id_opt : option Z) (s s' : State) (new_id : Z) :
  (add_input_data_port name dt dv id_opt s = (Return new_id, s') →
   get_data_port_by_id s' new_id = Some (mkDataPort new_id name dt dv)
   ∧ get_io_data_port_id_from_name_and_type name (Some Input) s'
     = (Return (Some new_id), s'))
  ∧ (add_output_data_port name dt dv id_opt s = (Return new_id, s') →
     get_data_port_by_id s' new_id = Some (mkDataPort new_id name dt dv)
     ∧ get_io_data_port_id_from_name_and_type name (Some Output) s'
       = (Return (Some new_id), s')).
Proof.
  split.
  - intros (_ & Hin & Hout & Huse & ->)%add_input_data_port_returns.
    split.
    + rewrite get_data_port_by_id_lookup. destruct s; cbn in *.
      by rewrite lookup_insert_eq.
    + destruct (get_io_data_port_id_from_name_and_type_input name
                  (with_input_data_ports
                     (<[new_id := mkDataPort new_id name dt dv]> (_input_data_ports s))
                     s))
        as [(key & port & Hkey & Hname & ->)|[Hnone _]].
      * change (<[new_id := mkDataPort new_id name dt dv]> (_input_data_ports s) !! key
                = Some port) in Hkey.
        by rewrite (lookup_after_add name (_input_data_ports s) new_id
                      (mkDataPort new_id name dt dv) eq_refl Huse key port Hkey Hname).
      * destruct Hnone. exists new_id, (mkDataPort new_id name dt dv).
        split; [|done]. destruct s; cbn. by rewrite lookup_insert_eq.
  - intros (_ & Hin & Hout & Huse & ->)%add_output_data_port_returns.
    split.
    + rewrite get_data_port_by_id_lookup. destruct s; cbn in *.
      by rewrite Hin, lookup_insert_eq.
    + destruct (get_io_data_port_id_from_name_and_type_output name
                  (with_output_data_ports
                     (<[new_id := mkDataPort new_id name dt dv]> (_output_data_ports s))
                     s))
        as [(key & port & Hkey & Hname & ->)|[Hnone _]].
      * change (<[new_id := mkDataPort new_id name dt dv]> (_output_data_ports s) !! key
                = Some port) in Hkey.
        by rewrite (lookup_after_add name (_output_data_ports s) new_id
                      (mkDataPort new_id name dt dv) eq_refl Huse key port Hkey Hname).
      * destruct Hnone. exists new_id, (mkDataPort new_id name dt dv).
        split; [|done]. destruct s; cbn. by rewrite lookup_insert_eq.
Qed.

(** ** Type checks of the data, and the set-up of a run *)

(** A loop whose body only writes log records. *)
Lemma for_each_logs {A : Type} (body : A → M unit) (f : A → list LogRecord)
    (s : State) :
  (∀ x l, body x (with_logger l s) = (Return tt, with_logger (l ++ f x) s)) →
  ∀ xs l, for_each xs body (with_logger l s)
          = (Return tt, with_logger (l ++ concat (f <$> xs)) s).
Proof.
  intros Hbody xs. induction xs as [|x xs IH]; intros l.
  - cbn. by rewrite app_nil_r.
  - cbn [for_each fmap list_fmap concat]. unfold mbind, M_bind.
    rewrite Hbody, IH. by rewrite <- app_assoc.
Qed.

Lemma with_logger_id (s : State) : with_logger (logger s) s = s.
Proof. by destruct s. Qed.

Lemma check_input_data_type_records (s : State) :
  check_input_data_type s
  = (Return tt,
     with_logger
       (logger s
        ++ concat (data_type_error
                     "{0} had an data port error: Input of execute function must be of type {1} not {2} as current value {3}"
                     s (_input_data s)
                   <$> itervalues (_input_data_ports s)))
       s).
Proof.
  unfold check_input_data_type. unfold mbind at 1, M_bind at 1, get at 1.
  lazy beta iota zeta.
  match goal with
  | |- for_each ?xs ?body s = ?r =>
      enough (for_each xs body (with_logger (logger s) s) = r) as Hgoal
        by (by rewrite with_logger_id in Hgoal)
  end.
  apply for_each_logs. intros data_port l. munfold. unfold data_type_error.
  cbn [_input_data with_logger].
  destruct (_input_data s !! port_name data_port) as [v|].
  - destruct (negb (is_None v) && negb (isinstance sys_maxint v (data_type data_port))).
    + by destruct s.
    + by rewrite app_nil_r.
  - by rewrite app_nil_r.
Qed.

Lemma check_output_data_type_records (s : State) :
  check_output_data_type s
  = (Return tt,
     with_logger
       (logger s
        ++ concat (data_type_error
                     "{0} had an data port error: Output of execute function must be of type {1} not {2} as current value {3}"
                     s (_output_data s)
                   <$> itervalues (_output_data_ports s)))
       s).
Proof.
  unfold check_output_data_type. unfold mbind at 1, M_bind at 1, get at 1.
  lazy beta iota zeta.
  match goal with
  | |- for_each ?xs ?body s = ?r =>
      enough (for_each xs body (with_logger (logger s) s) = r) as Hgoal
        by (by rewrite with_logger_id in Hgoal)
  end.
  apply for_each_logs. intros data_port l. munfold. unfold data_type_error.
  cbn [_output_data with_logger].
  destruct (_output_data s !! port_name data_port) as [v|].
  - destruct (negb (is_None v) && negb (isinstance sys_maxint v (data_type data_port))).
    + by destruct s.
    + by rewrite app_nil_r.
  - by rewrite app_nil_r.
Qed.

Lemma elem_of_itervalues {A : Type} (d : gmap Z A) (v : A) :
  v ∈ itervalues d ↔ ∃ key, d !! key = Some v.
Proof.
  unfold itervalues. rewrite list_elem_of_fmap. split.
  - intros ([key v'] & -> & Hin%elem_of_iteritems). by exists key.
  - intros [key Hin%elem_of_iteritems]. by exists (key, v).
Qed.

Lemma is_None_false (v : Value) : is_None v = false ↔ v ≠ VNone.
Proof. by destruct v. Qed.

Lemma elem_of_concat {A : Type} (x : A) (ls : list (list A)) :
  x ∈ concat ls ↔ ∃ l, x ∈ l ∧ l ∈ ls.
Proof.
  induction ls as [|l ls IH]; cbn.
  - split; [by intros ?%elem_of_nil|]. by intros (l & _ & ?%elem_of_nil).
  - rewrite elem_of_app, IH. split.
    + intros [Hx|(l' & Hx & Hl')]; [exists l|exists l']; (split; [done|]);
        [by left|by right].
    + intros (l' & Hx & [->|Hl']%elem_of_cons); [by left|]. right. by exists l'.
Qed.

Lemma elem_of_data_type_errors (format : string) (s : State)
    (data : gmap string Value) (ports : gmap Z DataPort) (record : LogRecord) :
  record ∈ concat (data_type_error format s data <$> itervalues ports)
  ↔ ∃ key port v,
      ports !! key = Some port ∧ data !! port_name port = Some v
      ∧ v ≠ VNone ∧ isinstance sys_maxint v (data_type port) = false
      ∧ record = mkLogRecord ERROR format
                   [str_of_state s; VType (data_type port); v].
Proof.
  rewrite elem_of_concat. split.
  - intros (records & Hrecord & (port & -> & [key Hport]%elem_of_itervalues)%list_elem_of_fmap).
    unfold data_type_error in Hrecord.
    destruct (data !! port_name port) as [v|] eqn:Hv; [|by apply elem_of_nil in Hrecord].
    destruct (is_None v) eqn:Hnone; [by apply elem_of_nil in Hrecord|].
    destruct (isinstance sys_maxint v (data_type port)) eqn:Hinstance;
      [by apply elem_of_nil in Hrecord|].
    apply list_elem_of_singleton in Hrecord. exists key, port, v.
    by rewrite <- is_None_false.
  - intros (key & port & v & Hport & Hv & Hnone%is_None_false & Hinstance & ->).
    exists (data_type_error format s data port). split.
    + unfold data_type_error. rewrite Hv, Hnone, Hinstance. by apply list_elem_of_singleton.
    + apply list_elem_of_fmap. exists port. split; [done|].
      apply elem_of_itervalues. by exists key.
Qed.

Lemma itervalues_perm {A : Type} (d : gmap Z A) :
  itervalues d ≡ₚ (map_to_list d).*2.
Proof. unfold itervalues. by rewrite (iteritems_perm A d). Qed.

Lemma data_type_error_cases (format : string) (s : State)
    (data : gmap string Value) (port : DataPort) :
  (∀ v, data !! port_name port = Some v → v ≠ VNone →
        isinstance sys_maxint v (data_type port) = false →
        data_type_error format s data port
        = [mkLogRecord ERROR format [str_of_state s; VType (data_type port); v]])
  ∧ (data !! port_name port = None → data_type_error format s data port = [])
  ∧ (data !! port_name port = Some VNone → data_type_error format s data port = [])
  ∧ (∀ v, data !! port_name port = Some v →
          isinstance sys_maxint v (data_type port) = true →
          data_type_error format s data port = []).
Proof.
  unfold data_type_error. split; [|split; [|split]].
  - intros v -> Hnone%is_None_false ->. by rewrite Hnone.
  - by intros ->.
  - by intros ->.
  - intros v -> ->. by rewrite andb_false_r.
Qed.

(** X13.  The type checks of the input and of the output data never raise
    and never change the state except for the log.  Each goes once through
    the ports of its dictionary and appends to the log, port by port, the
    records of [data_type_error]: exactly one error record for a port whose
    value in the data dictionary is neither [None] nor an instance of the
    type of the port (a [long] is no instance of [int]), and no record for a
    port without a value, with the value [None], or with a value of its
    type.  So the number of records is the number of mismatching ports, and
    two ports with the same type and value give the same record twice. *)
Theorem check_data_type_logs_mismatches (s : State) :
  check_input_data_type s
  = (Return tt,
     with_logger
       (logger s
        ++ concat (data_type_error
                     "{0} had an data port error: Input of execute function must be of type {1} not {2} as current value {3}"
                     s (_input_data s)
                   <$> itervalues (_input_data_ports s)))
       s)
  ∧ check_output_data_type s
    = (Return tt,
       with_logger
         (logger s
          ++ concat (data_type_error
                       "{0} had an data port error: Output of execute function must be of type {1} not {2} as current value {3}"
                       s (_output_data s)
                     <$> itervalues (_output_data_ports s)))
         s)
  ∧ itervalues (_input_data_ports s) ≡ₚ (map_to_list (_input_data_ports s)).*2
  ∧ itervalues (_output_data_ports s) ≡ₚ (map_to_list (_output_data_ports s)).*2
  ∧ ∀ format data port,
      (∀ v, data !! port_name port = Some v → v ≠ VNone →
            isinstance sys_maxint v (data_type port) = false →
            data_type_error format s data port
            = [mkLogRecord ERROR format
                 [str_of_state s; VType (data_type port); v]])
      ∧ (data !! port_name port = None → data_type_error format s data port = [])
      ∧ (data !! port_name port = Some VNone →
         data_type_error format s data port = [])
      ∧ (∀ v, data !! port_name port = Some v →
              isinstance sys_maxint v (data_type port) = true →
              data_type_error format s data port = []).
Proof.
  split; [apply check_input_data_type_records|].
  split; [apply check_output_data_type_records|].
  split; [apply itervalues_perm|]. split; [apply itervalues_perm|].
  intros format data port. apply data_type_error_cases.
Qed.

(** ** The ways out of a run *)

Lemma _execute_forward_outcome (s0 : State) (outcome : option Outcome) (s2 : State) :
  _execute false s0 = (Return outcome, s2) →
  ∃ final, outcome = Some final
           ∧ (final = mkOutcome (-2) "preempted"
              ∨ final = mkOutcome (-1) "aborted"
              ∨ ∃ key, _outcomes s2 !! key = Some final).
Proof.
  unfold _execute, dict_getitem_value, dict_getitem, value_in. munfold.
  destruct (script_build_module s0) as [[[]|e] s1]; [|done].
  destruct (script_execute false s1) as [[outcome_item|e] s3]; [|done].
  destruct (_preempted s3).
  { intros [= <- <-]. eexists. split; [done|by left]. }
  destruct (hashable outcome_item); [|done].
  destruct (key_in outcome_item (_outcomes s3)) eqn:Hin.
  - unfold key_in in Hin.
    destruct (dict_key outcome_item) as [key|] eqn:Hkey; [|done].
    apply dict_in_true in Hin as [final Hlookup]. rewrite Hlookup.
    intros [= <- <-]. exists final. split; [done|]. right. right. by exists key.
  - destruct (outcome_id_by_name outcome_item (iteritems _ (_outcomes s3)))
      as [key|] eqn:Hname.
    + apply outcome_id_by_name_Some in Hname as (final & Hlookup%elem_of_iteritems & _).
      rewrite Hlookup. intros [= <- <-]. exists final. split; [done|].
      right. right. by exists key.
    + intros [= <- <-]. eexists. split; [done|]. right. by left.
Qed.

(** An exception out of [_execute] is an exception of the script, or the
    [TypeError] of an object that cannot be hashed. *)
Lemma _execute_raises (backward : bool) (s0 s2 : State) (e : PyExc) :
  _execute backward s0 = (Raise e, s2) →
  script_build_module s0 = (Raise e, s2)
  ∨ (∃ s1, script_build_module s0 = (Return tt, s1)
           ∧ script_execute backward s1 = (Raise e, s2))
  ∨ exc_class e = TypeError.
Proof.
  unfold _execute, dict_getitem_value, dict_getitem, value_in. munfold.
  destruct (script_build_module s0) as [[[]|e0] s1] eqn:Hbuild;
    [|intros [= <- <-]; by left].
  destruct (script_execute backward s1) as [[outcome_item|e0] s3] eqn:Hscript;
    [|intros [= <- <-]; right; left; by exists s1].
  destruct backward; [done|]. destruct (_preempted s3); [done|].
  destruct (hashable outcome_item); [|intros [= <- <-]; by do 2 right].
  destruct (key_in outcome_item (_outcomes s3)) eqn:Hin.
  - unfold key_in in Hin.
    destruct (dict_key outcome_item) as [key|] eqn:Hkey; [|done].
    apply dict_in_true in Hin as [final Hlookup]. by rewrite Hlookup.
  - destruct (outcome_id_by_name outcome_item (iteritems _ (_outcomes s3)))
      as [key|] eqn:Hname; [|done].
    apply outcome_id_by_name_Some in Hname as (final & Hlookup%elem_of_iteritems & _).
    by rewrite Hlookup.
Qed.

Lemma _execute_preempted (s0 s1 s2 : State) (outcome_item : Value) :
  script_build_module s0 = (Return tt, s1) →
  script_execute false s1 = (Return outcome_item, s2) →
  _preempted s2 = true →
  _execute false s0 = (Return (Some (mkOutcome (-2) "preempted")), s2).
Proof.
  intros Hbuild Hscript Hpreempted. unfold _execute. munfold.
  by rewrite Hbuild, Hscript, Hpreempted.
Qed.

Lemma run_returns (s : State) :
  (∀ e s2, _execute (backward_execution s) (state_at_execute s) = (Raise e, s2) →
           is_Exception (exc_class e) = true) →
  ∃ s', run s = (Return tt, s')
        ∧ _state_execution_status s' = WAIT_FOR_NEXT_STATE
        ∧ (backward_execution s = false →
           ∃ final, _final_outcome s' = Some final
                    ∧ (final = mkOutcome (-2) "preempted"
                       ∨ final = mkOutcome (-1) "aborted"
                       ∨ ∃ key, _outcomes s' !! key = Some final)).
Proof.
  intros Hclass.
  destruct (_execute (backward_execution s) (state_at_execute s))
    as [[outcome|e] s2] eqn:Hexecute.
  - destruct (backward_execution s) eqn:Hbackward.
    + destruct (run_backward_returns s s2 outcome Hbackward Hexecute)
        as (s' & Hrun & _ & _ & Hstatus & _).
      exists s'. by split.
    + destruct (run_forward_returns s s2 outcome Hbackward Hexecute)
        as (s' & Hrun & Hfinal & _ & Hstatus & Houtcomes).
      exists s'. split; [done|]. split; [done|]. intros _.
      apply _execute_forward_outcome in Hexecute as (final & -> & Hwhich).
      exists final. split; [done|]. by rewrite Houtcomes.
  - destruct (run_handles_raise s s2 e Hexecute (Hclass e s2 eq_refl))
      as (s' & Hrun & _ & Hfinal & Hstatus & _).
    exists s'. split; [done|]. split; [done|]. intros _.
    eexists. split; [done|]. right. by left.
Qed.

(** X14.  [run] of an execution state returns whenever the script raises
    instances of [Exception] only: if neither building the module nor the
    body of the script ever raises an exception of another class, then,
    whether they return or raise, no exception leaves [run]; the state is
    then waiting for the next state, hence still active, and after a
    forward run it has a final outcome, which is the preempted outcome (-2),
    the aborted outcome (-1) or one of the outcomes of the state.  An
    exception out of [_execute] that is no instance of [Exception]
    ([SystemExit], [KeyboardInterrupt], [GeneratorExit]) leaves [run], in
    the state in which it was raised. *)
Theorem run_always_returns (s : State) :
  ((∀ s0 e s1, script_build_module s0 = (Raise e, s1) →
               is_Exception (exc_class e) = true) →
   (∀ backward s0 e s1, script_execute backward s0 = (Raise e, s1) →
                        is_Exception (exc_class e) = true) →
   ∃ s', run s = (Return tt, s')
         ∧ _state_execution_status s' = WAIT_FOR_NEXT_STATE
         ∧ active s' = true
         ∧ (backward_execution s = false →
            ∃ final, _final_outcome s' = Some final
                     ∧ (final = mkOutcome (-2) "preempted"
                        ∨ final = mkOutcome (-1) "aborted"
                        ∨ ∃ key, _outcomes s' !! key = Some final)))
  ∧ (∀ e s2,
       _execute (backward_execution s) (state_at_execute s) = (Raise e, s2) →
       is_Exception (exc_class e) = false →
       run s = (Raise e, s2)).
Proof.
  split; [|intros e s2; apply run_propagates].
  intros Hbuild Hscript.
  destruct (run_returns s) as (s' & Hrun & Hstatus & Hfinal).
  { intros e s2 Hraise.
    apply _execute_raises in Hraise as [Hraise|[(s1 & _ & Hraise)|Hclass]].
    - by eapply Hbuild.
    - by eapply Hscript.
    - by rewrite Hclass. }
  exists s'. split; [done|]. split; [done|]. split; [|done].
  unfold active. by rewrite Hstatus.
Qed.

(** X15.  A state that is preempted while its script runs leaves on the
    preempted outcome: in a forward run whose script returns an object with
    the preempted flag set, the final outcome is the outcome -2
    ("preempted") whatever the object is, and the output data are as the
    script left them. *)
Theorem run_preempted_ends_on_preempted_outcome (s s1 s2 : State)
    (outcome_item : Value) :
  backward_execution s = false →
  script_build_module (state_at_execute s) = (Return tt, s1) →
  script_execute false s1 = (Return outcome_item, s2) →
  _preempted s2 = true →
  ∃ s', run s = (Return tt, s')
        ∧ _final_outcome s' = Some (mkOutcome (-2) "preempted")
        ∧ _output_data s' = _output_data s2
        ∧ _state_execution_status s' = WAIT_FOR_NEXT_STATE.
Proof.
  intros Hforward Hbuild Hscript Hpreempted.
  pose proof (_execute_preempted _ _ _ _ Hbuild Hscript Hpreempted) as Hexecute.
  destruct (run_forward_returns s s2 _ Hforward Hexecute)
    as (s' & Hrun & Hfinal & Hdata & Hstatus & _).
  by exists s'.
Qed.

Lemma state_at_execute_spec (s : State) :
  ∃ records,
    state_at_execute s
    = with_logger (logger s ++ records)
        (with_preempted false (with_state_execution_status ACTIVE s)).
Proof.
  destruct (setup_spec s) as [records Hsetup]. unfold state_at_execute.
  destruct (backward_execution s); unfold mbind, M_bind; rewrite Hsetup;
    unfold logger_debug, modify; cbn [snd];
    (destruct s; cbn; eexists (records ++ [_]); by rewrite <- app_assoc).
Qed.

Lemma finalize_preempted (outcome : option Outcome) (s : State) :
  _preempted (finalize outcome s).2 = _preempted s.
Proof.
  unfold finalize. munfold.
  destruct outcome; cbn [fst snd];
    destruct s as [? ? ? ? ? ? ? ? ? ? ? [queue|] ? ? ? ? ? ? ?]; done.
Qed.

(** After [_execute] has returned, [run] leaves the preempted flag as it
    is. *)
Lemma run_keeps_preempted (s s2 : State) (outcome : option Outcome) :
  _execute (backward_execution s) (state_at_execute s) = (Return outcome, s2) →
  _preempted (run s).2 = _preempted s2.
Proof.
  intros Hexecute. rewrite run_unfold, Hexecute.
  destruct (backward_execution s); munfold.
  - rewrite finalize_preempted. by destruct s2.
  - rewrite check_output_data_type_records. rewrite finalize_preempted.
    by destruct s2.
Qed.

Lemma _execute_keeps_preempted (backward : bool) (s0 s1 s2 s3 : State)
    (outcome_item : Value) (outcome : option Outcome) :
  script_build_module s0 = (Return tt, s1) →
  script_execute backward s1 = (Return outcome_item, s2) →
  _execute backward s0 = (Return outcome, s3) →
  _preempted s3 = _preempted s2.
Proof.
  intros Hbuild Hscript.
  unfold _execute, dict_getitem_value, dict_getitem, value_in. munfold.
  rewrite Hbuild, Hscript. destruct backward; [by intros [= _ <-]|].
  destruct (_preempted s2) eqn:Hpreempted; [by intros [= _ <-]|].
  destruct (hashable outcome_item); [|done].
  destruct (key_in outcome_item (_outcomes s2)).
  - destruct (dict_key outcome_item) as [key|]; [|done].
    destruct (_outcomes s2 !! key); [|done]. by intros [= _ <-].
  - destruct (outcome_id_by_name outcome_item (iteritems _ (_outcomes s2)))
      as [key|].
    + destruct (_outcomes s2 !! key); [|done]. by intros [= _ <-].
    + intros [= _ <-]. by destruct s2.
Qed.

Lemma run_after_setup (s s1 s2 : State) (outcome_item : Value) :
  script_build_module (state_at_execute s) = (Return tt, s1) →
  script_execute (backward_execution s) s1 = (Return outcome_item, s2) →
  _preempted s1 = _preempted (state_at_execute s) →
  _preempted s2 = _preempted s1 →
  (∃ records,
     state_at_execute s
     = with_logger (logger s ++ records)
         (with_preempted false (with_state_execution_status ACTIVE s)))
  ∧ _preempted s2 = false
  ∧ ∃ s', run s = (Return tt, s')
          ∧ _preempted s' = false
          ∧ (backward_execution s = false →
             ∀ key outcome,
               dict_key outcome_item = Some key →
               _outcomes s2 !! key = Some outcome →
               _final_outcome s' = Some outcome).
Proof.
  intros Hbuild Hscript Hbuilt Hran.
  destruct (state_at_execute_spec s) as [records Hsetup].
  assert (_preempted s2 = false) as Hpreempted.
  { rewrite Hran, Hbuilt, Hsetup. by destruct s. }
  split; [by exists records|]. split; [done|].
  destruct (backward_execution s) eqn:Hbackward.
  - assert (_execute true (state_at_execute s) = (Return None, s2)) as Hexecute.
    { unfold _execute. munfold. by rewrite Hbuild, Hscript. }
    destruct (run_backward_returns s s2 None Hbackward Hexecute)
      as (s' & Hrun & _).
    exists s'. split; [done|]. split; [|done].
    replace s' with (run s).2 by (by rewrite Hrun).
    erewrite run_keeps_preempted; [done|]. by rewrite Hbackward.
  - destruct (hashable outcome_item) eqn:Hhashable.
    + destruct (_execute_forward _ _ _ _ Hbuild Hscript Hpreempted Hhashable)
        as (outcome & s2' & Hexecute & _ & _ & Hid & _).
      destruct (run_forward_returns s s2' (Some outcome) Hbackward Hexecute)
        as (s' & Hrun & Hfinal & _).
      exists s'. split; [done|]. split.
      * replace s' with (run s).2 by (by rewrite Hrun).
        erewrite run_keeps_preempted; [|by rewrite Hbackward].
        by rewrite (_execute_keeps_preempted _ _ _ _ _ _ _ Hbuild Hscript Hexecute).
      * intros _ key outcome' Hkey Hlookup.
        destruct (Hid key Hkey) as [Hsame _]; [by eexists|].
        rewrite Hfinal. cbn. congruence.
    + pose proof (_execute_unhashable _ _ _ _ Hbuild Hscript Hpreempted Hhashable)
        as Hexecute.
      destruct (run_handles_raise s s2 (unhashable_type outcome_item))
        as (s' & Hrun & _); [by rewrite Hbackward|done|].
      exists s'. split; [done|]. split.
      * replace s' with (run s).2 by (by rewrite Hrun).
        rewrite run_unfold, Hbackward, Hexecute.
        cbn [is_Exception unhashable_type exc_class]. munfold.
        rewrite finalize_preempted. by destruct s2.
      * intros _ key outcome' Hkey. apply dict_key_hashable in Hkey. congruence.
Qed.

(** X16.  The set-up of a run clears a preemption that was requested before
    [run] was called.  The script is called on the state [run] was called
    on, made active and with the preempted flag cleared (and with the log
    records of the set-up); so, whatever the flags were at the call, if the
    script is built and returns and neither step touches the preempted
    flag, the flag is clear when the script returns and when [run] returns,
    and in a forward run a returned outcome id makes that outcome the final
    outcome, not the preempted outcome. *)
Theorem run_setup_clears_preemption (s s1 s2 : State) (outcome_item : Value) :
  script_build_module (state_at_execute s) = (Return tt, s1) →
  script_execute (backward_execution s) s1 = (Return outcome_item, s2) →
  _preempted s1 = _preempted (state_at_execute s) →
  _preempted s2 = _preempted s1 →
  (∃ records,
     state_at_execute s
     = with_logger (logger s ++ records)
         (with_preempted false (with_state_execution_status ACTIVE s)))
  ∧ _preempted s2 = false
  ∧ ∃ s', run s = (Return tt, s')
          ∧ _preempted s' = false
          ∧ (backward_execution s = false →
             ∀ key outcome,
               dict_key outcome_item = Some key →
               _outcomes s2 !! key = Some outcome →
               _final_outcome s' = Some outcome).
Proof. apply run_after_setup. Qed.

Lemma finalize_queue (outcome : option Outcome) (s : State) :
  _concurrency_queue (finalize outcome s).2
  = (λ queue, queue ++ [VStr (_state_id s)]) <$> _concurrency_queue s.
Proof.
  unfold finalize. munfold.
  destruct outcome; cbn [fst snd]; destruct s as [? ? ? ? ? ? ? ? ? ? ? [queue|] ? ? ? ? ? ? ?];
    done.
Qed.

(** X17.  On every way on which [run] returns -- the script returned, in
    forward or in backward execution, or an instance of [Exception] was
    caught -- the state posts its id on its concurrency queue exactly once:
    the queue after the run is the queue as [_execute] left it, with the
    state id appended, and a state without a queue stays without one.  When
    an exception that is no instance of [Exception] leaves [run], nothing
    is posted: the state is as [_execute] left it. *)
Theorem run_notifies_concurrency_queue_once (s : State) :
  let s2 := (_execute (backward_execution s) (state_at_execute s)).2 in
  ((∀ e, (_execute (backward_execution s) (state_at_execute s)).1 = Raise e →
         is_Exception (exc_class e) = true) →
   ∃ s', run s = (Return tt, s')
         ∧ _concurrency_queue s'
           = (λ queue, queue ++ [VStr (_state_id s2)]) <$> _concurrency_queue s2)
  ∧ (∀ e, (_execute (backward_execution s) (state_at_execute s)).1 = Raise e →
          is_Exception (exc_class e) = false →
          run s = (Raise e, s2)).
Proof.
  intros s2. subst s2. rewrite run_unfold.
  destruct (_execute (backward_execution s) (state_at_execute s))
    as [[outcome|e] s2]; cbn [fst snd].
  - split; [intros _|done]. destruct (backward_execution s); munfold.
    + match goal with |- context [finalize ?o ?s3] =>
        exists (finalize o s3).2; split;
          [apply surjective_result, finalize_returns|rewrite finalize_queue]
      end.
      by destruct s2.
    + rewrite check_output_data_type_records.
      match goal with |- context [finalize ?o ?s3] =>
        exists (finalize o s3).2; split;
          [apply surjective_result, finalize_returns|rewrite finalize_queue]
      end.
      by destruct s2.
  - split.
    + intros Hclass. rewrite (Hclass e eq_refl). munfold.
      match goal with |- context [finalize ?o ?s3] =>
        exists (finalize o s3).2; split;
          [apply surjective_result, finalize_returns|rewrite finalize_queue]
      end.
      by destruct s2.
    + intros e' [= <-] ->. done.
Qed.

(** ** Pausing and resuming *)

(** X18.  Pausing sets the paused flag and clears the started flag, so the
    composite event [interrupted] is set; resuming does the opposite, so
    [unpaused] is set; neither touches the preempted flag.  Each undoes the
    other: resuming a paused state gives the state that resuming alone
    gives, and pausing a resumed state the state that pausing alone gives.
    Preemption overrides both: preempting a paused or resumed state gives
    the state that preempting alone gives. *)
Theorem pause_and_resume_compose (s : State) :
  let paused := (recursively_pause_states s).2 in
  let resumed := (recursively_resume_states s).2 in
  (recursively_pause_states s).1 = Return tt
  ∧ (recursively_resume_states s).1 = Return tt
  ∧ (_paused paused, _started paused, _preempted paused) = (true, false, _preempted s)
  ∧ (_paused resumed, _started resumed, _preempted resumed) = (false, true, _preempted s)
  ∧ interrupted paused = true
  ∧ unpaused resumed = true
  ∧ (recursively_resume_states paused).2 = resumed
  ∧ (recursively_pause_states resumed).2 = paused
  ∧ (recursively_pause_states paused).2 = paused
  ∧ (recursively_preempt_states paused).2 = (recursively_preempt_states s).2
  ∧ (recursively_preempt_states resumed).2 = (recursively_preempt_states s).2.
Proof.
  destruct s. cbn. unfold interrupted, unpaused. cbn.
  rewrite !orb_true_r. done.
Qed.

(** ** Destruction *)

Lemma keys_empty {A : Type} : keys (∅ : gmap Z A) = [].
Proof.
  unfold keys. pose proof (iteritems_perm A ∅) as Hperm.
  rewrite map_to_list_empty in Hperm. by apply Permutation_nil_r in Hperm as ->.
Qed.

Lemma for_each_skip {A : Type} (body : A → M unit) (l : list A) (s : State) :
  (∀ x, x ∈ l → body x s = (Return tt, s)) →
  for_each l body s = (Return tt, s).
Proof.
  induction l as [|x l IH]; intros Hbody; [done|].
  cbn [for_each]. unfold mbind, M_bind. rewrite Hbody by (by left).
  apply IH. intros y Hy. apply Hbody. by right.
Qed.

Lemma destruct_fixed (s : State) :
  _input_data_ports s = ∅ → _output_data_ports s = ∅ →
  (∀ key, is_Some (_outcomes s !! key) → key = -1 ∨ key = -2) →
  destruct s = (Return tt, s).
Proof.
  intros Hin Hout Hreserved. unfold destruct. unfold mbind, M_bind, get.
  lazy beta iota zeta. rewrite Hin, keys_empty. cbn [for_each].
  unfold mret, M_ret. lazy beta iota zeta. rewrite Hout, keys_empty. cbn [for_each].
  lazy beta iota zeta. apply for_each_skip. intros key Hkey%elem_of_keys.
  destruct (Hreserved key Hkey) as [->| ->]; done.
Qed.

Lemma destruct_twice (s : State) :
  ∃ s', destruct s = (Return tt, s') ∧ destruct s' = (Return tt, s').
Proof.
  destruct (destruct_spec s) as (s' & Hdestruct & Hin & Hout & Houtcomes).
  exists s'. split; [done|]. apply destruct_fixed; [done..|].
  intros key [outcome Hkey]. rewrite Houtcomes in Hkey.
  by apply map_lookup_filter_Some in Hkey as [_ ?].
Qed.

(** X19.  [destruct] is idempotent: it returns, and destructing the state
    it leaves returns again and changes nothing. *)
Theorem destruct_idempotent (s : State) :
  ∃ s', destruct s = (Return tt, s') ∧ destruct s' = (Return tt, s').
Proof. apply destruct_twice. Qed.

(** ** Uniqueness of the elements of a state *)

Lemma elements_unique_ext (s s' : State) :
  _input_data_ports s' = _input_data_ports s →
  _output_data_ports s' = _output_data_ports s →
  _outcomes s' = _outcomes s →
  elements_unique s → elements_unique s'.
Proof.
  unfold elements_unique, port_ids_disjoint. by intros -> -> ->.
Qed.

Lemma port_names_unique_insert (ports : gmap Z DataPort) (port : DataPort) (id : Z) :
  port_names_unique ports →
  ¬ port_name_in_use (port_name port) ports →
  port_names_unique (<[id := port]> ports).
Proof.
  intros Hunique Huse key1 port1 key2 port2 Hkey1 Hkey2 Hname.
  destruct (decide (key1 = id)) as [->|Hne1]; destruct (decide (key2 = id)) as [->|Hne2];
    try done.
  - rewrite lookup_insert_eq in Hkey1. rewrite lookup_insert_ne in Hkey2 by done.
    injection Hkey1 as <-. destruct Huse. by exists key2, port2.
  - rewrite lookup_insert_eq in Hkey2. rewrite lookup_insert_ne in Hkey1 by done.
    injection Hkey2 as <-. destruct Huse. by exists key1, port1.
  - rewrite lookup_insert_ne in Hkey1, Hkey2 by done. by eapply Hunique.
Qed.

Lemma port_names_unique_delete (ports : gmap Z DataPort) (id : Z) :
  port_names_unique ports → port_names_unique (delete id ports).
Proof.
  intros Hunique key1 port1 key2 port2 [_ Hkey1]%lookup_delete_Some
    [_ Hkey2]%lookup_delete_Some. by apply Hunique.
Qed.

Lemma outcome_names_unique_subseteq (outcomes outcomes' : gmap Z Outcome) :
  outcomes' ⊆ outcomes → outcome_names_unique outcomes →
  outcome_names_unique outcomes'.
Proof.
  intros Hsub Hunique key1 outcome1 key2 outcome2 Hkey1 Hkey2.
  apply Hunique; by eapply lookup_weaken.
Qed.

Lemma add_outcome_elements_unique (name : string) (outcome_id : option Z) (s : State) :
  elements_unique s → elements_unique (add_outcome name outcome_id s).2.
Proof.
  intros Hunique.
  destruct (add_outcome_cases name outcome_id s)
    as [[_ ->]|[(_ & _ & e & -> & _)|(Hfree & Hname & ->)]]; cbn [snd].
  - by apply (elements_unique_ext s); [destruct s..|].
  - done.
  - destruct Hunique as (Hin & Hout & Hids & Houtcomes).
    split; [by destruct s|]. split; [by destruct s|]. split; [by destruct s|].
    destruct s; cbn in *. apply outcome_names_unique_insert; [done|].
    intros key other Hkey _ Heq. apply Hname. by exists key, other.
Qed.

Lemma remove_outcome_elements_unique (outcome_id : Z) (force : bool) (s : State) :
  elements_unique s → elements_unique (remove_outcome outcome_id force s).2.
Proof.
  intros Hunique.
  destruct (_outcomes s !! outcome_id) as [outcome|] eqn:Hlookup.
  2: { by rewrite remove_outcome_missing. }
  destruct force.
  - destruct (remove_outcome_allowed outcome_id true s) as (parent' & -> & _);
      [by eexists|by left|]. cbn [snd].
    destruct Hunique as (Hin & Hout & Hids & Houtcomes).
    split; [by destruct s|]. split; [by destruct s|]. split; [by destruct s|].
    destruct s; cbn in *.
    eapply outcome_names_unique_subseteq; [apply delete_subseteq|done].
  - destruct (decide (outcome_id = -1 ∨ outcome_id = -2)) as [Hreserved|Hfree].
    + by destruct (remove_reserved_outcome_refused outcome_id s Hreserved)
        as (e & -> & _).
    + destruct (remove_outcome_allowed outcome_id false s) as (parent' & -> & _);
        [by eexists| |].
      { right. split; intros ->; apply Hfree; [by left|by right]. }
      cbn [snd]. destruct Hunique as (Hin & Hout & Hids & Houtcomes).
      split; [by destruct s|]. split; [by destruct s|]. split; [by destruct s|].
      destruct s; cbn in *.
      eapply outcome_names_unique_subseteq; [apply delete_subseteq|done].
Qed.

Lemma add_input_data_port_elements_unique (name : string) (dt : DataType)
    (dv : Value) (id_opt : option Z) (s : State) :
  elements_unique s →
  elements_unique (add_input_data_port name dt dv id_opt s).2.
Proof.
  intros Hunique.
  pose proof (add_input_data_port_cases s name dt dv id_opt) as Hcases.
  cbv zeta in Hcases.
  destruct ((DataPort_init name dt dv _ s).1) as [data_port|e].
  2: { by rewrite Hcases. }
  destruct Hcases as (Hin & Hout & Hclash & Hfresh).
  destruct (port_name_in_use_dec name (_input_data_ports s)) as [Huse|Huse].
  { by rewrite (Hclash Huse). }
  rewrite (Hfresh Huse). cbn [snd]. clear Hclash Hfresh.
  remember (default (generate_data_port_id (get_data_port_ids s)) id_opt)
    as new_id eqn:Hnew_id. clear Hnew_id.
  destruct Hunique as (Hinputs & Houtputs & Hids & Houtcomes).
  split; [|split; [by destruct s|split; [|by destruct s]]].
  - destruct s; cbn in *. by apply port_names_unique_insert.
  - intros key. destruct s; cbn in *.
    destruct (decide (key = new_id)) as [->|Hne]; [done|].
    rewrite lookup_insert_ne by done. apply Hids.
Qed.

Lemma add_output_data_port_elements_unique (name : string) (dt : DataType)
    (dv : Value) (id_opt : option Z) (s : State) :
  elements_unique s →
  elements_unique (add_output_data_port name dt dv id_opt s).2.
Proof.
  intros Hunique.
  pose proof (add_output_data_port_cases s name dt dv id_opt) as Hcases.
  cbv zeta in Hcases.
  destruct ((DataPort_init name dt dv _ s).1) as [data_port|e].
  2: { by rewrite Hcases. }
  destruct Hcases as (Hin & Hout & Hclash & Hfresh).
  destruct (port_name_in_use_dec name (_output_data_ports s)) as [Huse|Huse].
  { by rewrite (Hclash Huse). }
  rewrite (Hfresh Huse). cbn [snd]. clear Hclash Hfresh.
  remember (default (generate_data_port_id (get_data_port_ids s)) id_opt)
    as new_id eqn:Hnew_id. clear Hnew_id.
  destruct Hunique as (Hinputs & Houtputs & Hids & Houtcomes).
  split; [by destruct s|split; [|split; [|by destruct s]]].
  - destruct s; cbn in *. by apply port_names_unique_insert.
  - intros key Hkey. destruct s; cbn in *.
    destruct (decide (key = new_id)) as [->|Hne].
    + rewrite Hin in Hkey. by destruct Hkey.
    + rewrite lookup_insert_ne by done. by apply Hids.
Qed.

Lemma remove_input_data_port_elements_unique (data_port_id : Z) (force : bool)
    (s : State) :
  elements_unique s →
  elements_unique (remove_input_data_port data_port_id force s).2.
Proof.
  intros Hunique.
  destruct (remove_input_data_port_spec data_port_id force s)
    as [[_ ->]|[_ (parent' & -> & _)]]; [done|]. cbn [snd].
  destruct Hunique as (Hinputs & Houtputs & Hids & Houtcomes).
  split; [|split; [by destruct s|split; [|by destruct s]]].
  - destruct s; cbn in *. by apply port_names_unique_delete.
  - intros key. destruct s; cbn in *.
    intros [port [_ Hkey]%lookup_delete_Some]. apply Hids. by eexists.
Qed.

Lemma remove_output_data_port_elements_unique (data_port_id : Z) (force : bool)
    (s : State) :
  elements_unique s →
  elements_unique (remove_output_data_port data_port_id force s).2.
Proof.
  intros Hunique.
  destruct (remove_output_data_port_spec data_port_id force s)
    as [[_ ->]|[_ (parent' & -> & _)]]; [done|]. cbn [snd].
  destruct Hunique as (Hinputs & Houtputs & Hids & Houtcomes).
  split; [by destruct s|split; [|split; [|by destruct s]]].
  - destruct s; cbn in *. by apply port_names_unique_delete.
  - intros key Hkey. destruct s; cbn in *.
    apply lookup_delete_None. right. by apply Hids.
Qed.

Lemma destruct_elements_unique (s : State) :
  elements_unique s → elements_unique (destruct s).2.
Proof.
  intros (_ & _ & _ & Houtcomes).
  destruct (destruct_spec s) as (s' & -> & Hin & Hout & Hfiltered). cbn [snd].
  unfold elements_unique, port_ids_disjoint. rewrite Hin, Hout, Hfiltered.
  split; [|split; [|split]].
  - intros key1 port1 key2 port2 Hkey1. by rewrite lookup_empty in Hkey1.
  - intros key1 port1 key2 port2 Hkey1. by rewrite lookup_empty in Hkey1.
  - intros key _. apply lookup_empty.
  - eapply outcome_names_unique_subseteq; [apply map_filter_subseteq|done].
Qed.

Lemma state_after_call_elements_unique (call : ElementCall) (s : State) :
  elements_unique s → elements_unique (state_after_call call s).
Proof.
  destruct call; cbn [state_after_call].
  - apply add_outcome_elements_unique.
  - apply remove_outcome_elements_unique.
  - apply add_input_data_port_elements_unique.
  - apply add_output_data_port_elements_unique.
  - apply remove_input_data_port_elements_unique.
  - apply remove_output_data_port_elements_unique.
  - apply destruct_elements_unique.
Qed.

(** X20.  The calls on the elements of a state keep the elements unique.
    If in a state no two input ports and no two output ports carry the same
    name, no id is used by an input and by an output port, and no two
    outcomes carry the same name, then the same holds after every sequence
    of calls that add an outcome or a port, remove one (forced or not), or
    destruct the state, whether the calls return or raise. *)
Theorem operations_keep_elements_unique (calls : list ElementCall) (s : State) :
  elements_unique s →
  elements_unique (foldl (λ s call, state_after_call call s) s calls).
Proof.
  revert s. induction calls as [|call calls IH]; intros s Hunique; [done|].
  cbn [foldl]. by apply IH, state_after_call_elements_unique.
Qed.

(** ** Construction *)

Lemma State_init_returns (cls : StateType) (name state_id : option string)
    (input_data_ports output_data_ports : option (gmap Z DataPort))
    (outcomes : option (gmap Z Outcome)) (parent : option ContainerState)
    (world s' : State) :
  State_init cls name state_id input_data_ports output_data_ports outcomes parent world
  = (Return tt, s') →
  (contains_char PATH_SEPARATOR (_name s') = false ∧ _name s' ≠ "")
  ∧ (state_type s', _name s', _state_id s', _parent s')
    = (cls, default "Untitled" name, default state_id_generator state_id, parent)
  ∧ (_input_data_ports s', _output_data_ports s')
    = (default ∅ input_data_ports, default ∅ output_data_ports)
  ∧ (∀ key outcome,
       default {[ 0 := mkOutcome 0 "success" ]} outcomes !! key = Some outcome →
       _outcomes s' !! key = Some outcome)
  ∧ has_reserved_outcomes s'
  ∧ elements_unique s'
  ∧ (_state_execution_status s', _preempted s', _started s', _paused s',
     backward_execution s')
    = (INACTIVE, false, false, false, false)
  ∧ (_final_outcome s', _concurrency_queue s', _input_data s', _output_data s')
    = (None, None, ∅, ∅).
Proof.
  unfold State_init, name_setter.
  unfold state_execution_status_setter, logger_debug, mbind, M_bind, modify, get, raise.
  lazy beta iota zeta.
  destruct (contains_char PATH_SEPARATOR (default "Untitled" name)) eqn:Hseparator;
    [done|].
  destruct (bool_decide (String.length (default "Untitled" name) < 1)%nat) eqn:Hlength;
    [done|].
  lazy beta iota zeta. cbn [state_type _state_id _name _input_data_ports
    _output_data_ports _outcomes _input_data _output_data _preempted _started
    _paused _concurrency_queue _final_outcome _state_execution_status
    backward_execution _parent use_runtime_value_input_data_ports
    input_data_port_runtime_values logger with_parent].
  match goal with
  | |- context [input_data_ports_setter ?ports ?s0] =>
      destruct (input_data_ports_setter_cases ports s0)
        as [(-> & _ & Hinputs)|(e & -> & _)]; [|done]
  end.
  lazy beta iota zeta.
  match goal with
  | |- context [output_data_ports_setter ?ports ?s0] =>
      destruct (output_data_ports_setter_cases ports s0)
        as [(-> & Hdisjoint & Houtputs)|(e & -> & _)]; [|done]
  end.
  lazy beta iota zeta.
  match goal with
  | |- context [outcomes_setter ?outcomes' ?s0] =>
      destruct (outcomes_setter outcomes' s0) as [[[]|e] s3] eqn:Houtcomes; [|done];
      pose proof (outcomes_setter_reserved _ _ _ Houtcomes) as Hreserved;
      apply (proj1 (outcomes_setter_properties outcomes' s0)) in Houtcomes
        as (Hs3 & Hassigned & _ & _ & _ & Hnames)
  end.
  intros [= <-]. rewrite Hs3. cbn.
  split.
  { split; [done|]. intros Hempty. rewrite Hempty in Hlength. done. }
  split; [done|]. split; [done|].
  split. { intros key outcome Hkey. by apply Hassigned. }
  split. { destruct Hreserved as [Haborted Hpreempted]. by split. }
  split; [|done].
  split; [done|]. split; [done|]. split; [|done].
  intros key [port Hkey]. cbn in *.
  destruct (default ∅ output_data_ports !! key) as [other|] eqn:Hother; [|done].
  destruct (Hdisjoint key other Hother) as [_ Hfree]. cbn in Hfree. congruence.
Qed.

(** X21.  Every state that the constructor returns is well formed.  Its
    name is the given one (or "Untitled"), is not empty and holds no path
    separator; its id is the given one (or a generated one); its ports are
    the given ones; its outcomes hold the given ones (or "success" with id
    0) and both reserved outcomes; no two ports of a direction and no two
    outcomes share a name, and no id is used by an input and by an output
    port; it is inactive, neither preempted, started nor paused, runs
    forward, and has no final outcome, no concurrency queue and no data. *)
Theorem State_init_constructs_well_formed_state (cls : StateType)
    (name state_id : option string)
    (input_data_ports output_data_ports : option (gmap Z DataPort))
    (outcomes : option (gmap Z Outcome)) (parent : option ContainerState)
    (world s' : State) :
  State_init cls name state_id input_data_ports output_data_ports outcomes parent world
  = (Return tt, s') →
  (contains_char PATH_SEPARATOR (_name s') = false ∧ _name s' ≠ "")
  ∧ (state_type s', _name s', _state_id s', _parent s')
    = (cls, default "Untitled" name, default state_id_generator state_id, parent)
  ∧ (_input_data_ports s', _output_data_ports s')
    = (default ∅ input_data_ports, default ∅ output_data_ports)
  ∧ (∀ key outcome,
       default {[ 0 := mkOutcome 0 "success" ]} outcomes !! key = Some outcome →
       _outcomes s' !! key = Some outcome)
  ∧ has_reserved_outcomes s'
  ∧ elements_unique s'
  ∧ (_state_execution_status s', _preempted s', _started s', _paused s',
     backward_execution s')
    = (INACTIVE, false, false, false, false)
  ∧ (_final_outcome s', _concurrency_queue s', _input_data s', _output_data s')
    = (None, None, ∅, ∅).
Proof. apply State_init_returns. Qed.

(** ** Paths *)

Lemma string_app_assoc (s1 s2 s3 : string) :
  (s1 +:+ s2) +:+ s3 = s1 +:+ (s2 +:+ s3).
Proof.
  induction s1 as [|c s1 IH]; [done|].
  change (String c ((s1 +:+ s2) +:+ s3) = String c (s1 +:+ (s2 +:+ s3))).
  by rewrite IH.
Qed.

Lemma get_path_appendix (ancestors : list State) (self : State) (appendix : string)
    (by_name : bool) :
  get_path ancestors self (Some appendix) by_name
  = get_path ancestors self None by_name +:+ String PATH_SEPARATOR appendix.
Proof.
  revert self appendix.
  induction ancestors as [|parent ancestors IH]; intros self appendix; [done|].
  cbn [get_path]. rewrite !IH. by rewrite string_app_assoc.
Qed.

(** X22.  The path of a state is the path of its parent, the separator and
    the identifier of the state (its name or its id); the path of a root
    state is its identifier; and a path computed with an appendix is the
    path without it, followed by the separator and the appendix. *)
Theorem get_path_composes (ancestors : list State) (parent self : State)
    (appendix : string) (by_name : bool) :
  let state_identifier := if by_name then _name self else _state_id self in
  get_path [] self None by_name = state_identifier
  ∧ get_path (parent :: ancestors) self None by_name
    = get_path ancestors parent None by_name
      +:+ String PATH_SEPARATOR state_identifier
  ∧ get_path ancestors self (Some appendix) by_name
    = get_path ancestors self None by_name +:+ String PATH_SEPARATOR appendix.
Proof.
  split; [done|]. split; [|apply get_path_appendix].
  cbn [get_path]. apply get_path_appendix.
Qed.

(** ** Validity of a data port *)

Lemma _check_data_port_id_stored_input (s : State) (data_port : DataPort) :
  (_check_data_port_id s data_port (Some Input)).1 = true
  ↔ _output_data_ports s !! data_port_id data_port = None.
Proof.
  unfold _check_data_port_id.
  assert (existsb (λ '(input_data_port_id, _),
            bool_decide (data_port_id data_port = input_data_port_id)
            && negb (same_port data_port (Some Input) Input input_data_port_id))
           (iteritems _ (_input_data_ports s)) = false) as ->.
  { destruct (existsb _ _) eqn:Hex; [|done].
    apply existsb_elem_of in Hex as ([key other] & _ & Htrue). cbn in Htrue.
    apply andb_true_iff in Htrue as [->%bool_decide_eq_true Hsame].
    by rewrite bool_decide_eq_true_2 in Hsame. }
  destruct (existsb _ (iteritems _ (_output_data_ports s))) eqn:Hex.
  - split; [done|]. intros Hfree.
    apply existsb_elem_of in Hex as ([key other] & Hin%elem_of_iteritems & Htrue).
    cbn in Htrue. apply andb_true_iff in Htrue as [Heq%bool_decide_eq_true _].
    congruence.
  - split; [|done]. intros _.
    destruct (_output_data_ports s !! data_port_id data_port) as [other|] eqn:Hout;
      [|done].
    apply elem_of_iteritems in Hout.
    apply (existsb_false_elem_of _ _ _ Hex) in Hout. cbn in Hout.
    by rewrite bool_decide_eq_true_2 in Hout.
Qed.

Lemma _check_data_port_id_stored_output (s : State) (data_port : DataPort) :
  (_check_data_port_id s data_port (Some Output)).1 = true
  ↔ _input_data_ports s !! data_port_id data_port = None.
Proof.
  unfold _check_data_port_id.
  destruct (existsb _ (iteritems _ (_input_data_ports s))) eqn:Hex.
  - split; [done|]. intros Hfree.
    apply existsb_elem_of in Hex as ([key other] & Hin%elem_of_iteritems & Htrue).
    cbn in Htrue. apply andb_true_iff in Htrue as [Heq%bool_decide_eq_true _].
    congruence.
  - assert (existsb (λ '(output_data_port_id, _),
              bool_decide (data_port_id data_port = output_data_port_id)
              && negb (same_port data_port (Some Output) Output output_data_port_id))
             (iteritems _ (_output_data_ports s)) = false) as ->.
    { destruct (existsb _ (iteritems _ (_output_data_ports s))) eqn:Hex'; [|done].
      apply existsb_elem_of in Hex' as ([key other] & _ & Htrue). cbn in Htrue.
      apply andb_true_iff in Htrue as [->%bool_decide_eq_true Hsame].
      by rewrite bool_decide_eq_true_2 in Hsame. }
    split; [|done]. intros _.
    destruct (_input_data_ports s !! data_port_id data_port) as [other|] eqn:Hin;
      [|done].
    apply elem_of_iteritems in Hin.
    apply (existsb_false_elem_of _ _ _ Hex) in Hin. cbn in Hin.
    by rewrite bool_decide_eq_true_2 in Hin.
Qed.

Lemma _check_data_port_id_new_iff (s : State) (data_port : DataPort) :
  (_check_data_port_id s data_port None).1 = true
  ↔ _input_data_ports s !! data_port_id data_port = None
    ∧ _output_data_ports s !! data_port_id data_port = None.
Proof.
  split; [apply _check_data_port_id_new|]. intros [Hin Hout].
  unfold _check_data_port_id.
  destruct (existsb _ (iteritems _ (_input_data_ports s))) eqn:Hex.
  { apply existsb_elem_of in Hex as ([key other] & Hkey%elem_of_iteritems & Htrue).
    cbn in Htrue. apply andb_true_iff in Htrue as [Heq%bool_decide_eq_true _].
    congruence. }
  destruct (existsb _ (iteritems _ (_output_data_ports s))) eqn:Hex'; [|done].
  apply existsb_elem_of in Hex' as ([key other] & Hkey%elem_of_iteritems & Htrue).
  cbn in Htrue. apply andb_true_iff in Htrue as [Heq%bool_decide_eq_true _].
  congruence.
Qed.

Lemma _check_data_port_name_free_id (s : State) (data_port : DataPort)
    (stored : option Direction) :
  _input_data_ports s !! data_port_id data_port = None →
  _output_data_ports s !! data_port_id data_port = None →
  _check_data_port_name s data_port stored = valid.
Proof.
  intros Hin%dict_in_false Hout%dict_in_false. unfold _check_data_port_name.
  by rewrite Hin, Hout.
Qed.

(** X23.  The id check of a data port accepts a port that the state does
    not hold yet exactly when neither an input nor an output port has its
    id, and a port that the state holds in one direction exactly when no
    port of the other direction has its id.  The name check looks at the
    ports of the direction in which the id of the port is found, so it
    accepts every port whose id is in neither dictionary, whatever its
    name: a new port is checked for its name only after it has been
    inserted. *)
Theorem _check_data_port_id_spec (s : State) (data_port : DataPort) :
  ((_check_data_port_id s data_port None).1 = true
   ↔ _input_data_ports s !! data_port_id data_port = None
     ∧ _output_data_ports s !! data_port_id data_port = None)
  ∧ ((_check_data_port_id s data_port (Some Input)).1 = true
     ↔ _output_data_ports s !! data_port_id data_port = None)
  ∧ ((_check_data_port_id s data_port (Some Output)).1 = true
     ↔ _input_data_ports s !! data_port_id data_port = None)
  ∧ (∀ stored,
       _input_data_ports s !! data_port_id data_port = None →
       _output_data_ports s !! data_port_id data_port = None →
       _check_data_port_name s data_port stored = valid).
Proof.
  split; [apply _check_data_port_id_new_iff|].
  split; [apply _check_data_port_id_stored_input|].
  split; [apply _check_data_port_id_stored_output|].
  intros stored. apply _check_data_port_name_free_id.
Qed.

(** ** Default input values: keys and failure *)

Lemma port_default_cases (state : State) (key : Z) (port : DataPort) :
  (∃ default', ∀ s, port_default state key port s = (Return default', s))
  ∨ (is_library_state state = true
     ∧ (use_runtime_value_input_data_ports state !! key = None
        ∨ (use_runtime_value_input_data_ports state !! key = Some true
           ∧ input_data_port_runtime_values state !! key = None))
     ∧ ∀ s, port_default state key port s = (Raise (Exc KeyError "{0}" [VInt key]), s)).
Proof.
  unfold port_default, dict_getitem. munfold.
  destruct (is_library_state state); [|left; by eexists].
  destruct (use_runtime_value_input_data_ports state !! key) as [[]|] eqn:Huse.
  - destruct (input_data_port_runtime_values state !! key) as [v|] eqn:Hvalue.
    + left. by eexists.
    + right. split; [done|]. split; [by right|done].
  - left. by eexists.
  - right. split; [done|]. split; [by left|done].
Qed.

Lemma get_default_input_values_loop_cons (gvm : gmap string Value) (state : State)
    (key : Z) (port : DataPort) (rest : list (Z * DataPort))
    (result_dict : gmap string Value) (s : State) (default' : Value) :
  (∀ s, port_default state key port s = (Return default', s)) →
  ∃ head_records,
    get_default_input_values_loop gvm state ((key, port) :: rest) result_dict s
    = get_default_input_values_loop gvm state rest
        (<[port_name port := input_value gvm default']> result_dict)
        (with_logger (logger s ++ head_records) s).
Proof.
  intros Hport. cbn [get_default_input_values_loop].
  unfold mbind at 1, M_bind at 1. rewrite Hport. unfold input_value.
  destruct (global_variable_name default') as [var_name|].
  - munfold. destruct (dict_in var_name gvm) eqn:Hin; cbn [negb].
    + exists []. by rewrite with_logger_nil.
    + apply dict_in_false in Hin. rewrite Hin. by eexists [_].
  - exists []. by rewrite with_logger_nil.
Qed.

Lemma get_default_input_values_loop_total (gvm : gmap string Value) (state : State)
    (entries : list (Z * DataPort)) (result_dict : gmap string Value) (s : State) :
  ∃ records,
    (∃ result_dict',
       get_default_input_values_loop gvm state entries result_dict s
       = (Return result_dict', with_logger (logger s ++ records) s)
       ∧ (∀ key port, (key, port) ∈ entries →
            ∃ default', ∀ s, port_default state key port s = (Return default', s))
       ∧ ∀ name, is_Some (result_dict' !! name)
                 ↔ is_Some (result_dict !! name)
                   ∨ ∃ key port, (key, port) ∈ entries ∧ port_name port = name)
    ∨ (∃ key port,
         (key, port) ∈ entries
         ∧ get_default_input_values_loop gvm state entries result_dict s
           = (Raise (Exc KeyError "{0}" [VInt key]),
              with_logger (logger s ++ records) s)
         ∧ ∀ s, port_default state key port s
                = (Raise (Exc KeyError "{0}" [VInt key]), s)).
Proof.
  revert result_dict s.
  induction entries as [|[key port] rest IH]; intros result_dict s.
  - exists []. left. exists result_dict. split; [by rewrite with_logger_nil|].
    split; [by intros key port ?%elem_of_nil|].
    intros name. split; [by left|]. by intros [?|(key & port & ?%elem_of_nil & _)].
  - destruct (port_default_cases state key port) as [[default' Hport]|(_ & _ & Hport)].
    + destruct (get_default_input_values_loop_cons gvm state key port rest
                  result_dict s default' Hport) as [head_records ->].
      destruct (IH (<[port_name port := input_value gvm default']> result_dict)
                  (with_logger (logger s ++ head_records) s))
        as [records [(result_dict' & Hloop & Hrest & Hkeys)
                     |(key' & port' & Hin & Hloop & Hraise)]];
        exists (head_records ++ records); rewrite with_logger_app in Hloop.
      * left. exists result_dict'. split; [done|]. split.
        -- intros key' port' [[= -> ->]|Hin]%elem_of_cons; [by exists default'|].
           by apply Hrest.
        -- intros name. rewrite Hkeys. split.
           ++ intros [[value Hvalue]|(key' & port' & Hin & Hname)].
              ** destruct (decide (port_name port = name)) as [Heq|Hne].
                 --- right. exists key, port. split; [by left|done].
                 --- rewrite lookup_insert_ne in Hvalue by done. left. by eexists.
              ** right. exists key', port'. split; [by right|done].
           ++ intros [[value Hvalue]|(key' & port' & [[= -> ->]|Hin]%elem_of_cons & Hname)].
              ** left. destruct (decide (port_name port = name)) as [->|Hne].
                 --- rewrite lookup_insert_eq. by eexists.
                 --- rewrite lookup_insert_ne by done. by eexists.
              ** left. rewrite <- Hname, lookup_insert_eq. by eexists.
              ** right. by exists key', port'.
      * right. exists key', port'. split; [by right|done].
    + exists []. right. exists key, port. split; [by left|]. split; [|done].
      cbn [get_default_input_values_loop]. unfold mbind at 1, M_bind at 1.
      rewrite Hport. by rewrite with_logger_nil.
Qed.

Lemma get_default_input_values_for_state_cases (gvm : gmap string Value)
    (state s : State) :
  ∃ records,
    (∃ result_dict,
       get_default_input_values_for_state gvm state s
       = (Return result_dict, with_logger (logger s ++ records) s)
       ∧ (∀ key port, _input_data_ports state !! key = Some port →
            ∃ default', ∀ s, port_default state key port s = (Return default', s))
       ∧ ∀ name, is_Some (result_dict !! name)
                 ↔ port_name_in_use name (_input_data_ports state))
    ∨ (∃ key port,
         _input_data_ports state !! key = Some port
         ∧ get_default_input_values_for_state gvm state s
           = (Raise (Exc KeyError "{0}" [VInt key]),
              with_logger (logger s ++ records) s)
         ∧ ∀ s, port_default state key port s
                = (Raise (Exc KeyError "{0}" [VInt key]), s)).
Proof.
  unfold get_default_input_values_for_state.
  destruct (get_default_input_values_loop_total gvm state
              (iteritems _ (_input_data_ports state)) ∅ s)
    as [records [(result_dict & Hloop & Hports & Hkeys)
                 |(key & port & Hin%elem_of_iteritems & Hloop & Hraise)]];
    exists records.
  - left. exists result_dict. split; [done|]. split.
    + intros key port Hin%elem_of_iteritems. by apply Hports.
    + intros name. rewrite Hkeys. split.
      * intros [[value Hvalue]|(key & port & Hin%elem_of_iteritems & Hname)].
        -- by rewrite lookup_empty in Hvalue.
        -- by exists key, port.
      * intros (key & port & Hin%elem_of_iteritems & Hname). right.
        by exists key, port.
  - right. by exists key, port.
Qed.

(** X24.  [get_default_input_values_for_state] changes nothing but the log,
    whether it returns or raises.  For a state that is not a library state
    it always returns.  When it returns, the keys of the result are exactly
    the names of the input ports of the state; this needs no uniqueness of
    the names.  For a library state with an input port for which
    [use_runtime_value_input_data_ports] has no entry, or has the entry
    [True] while [input_data_port_runtime_values] has none, it raises
    [KeyError]. *)
Theorem get_default_input_values_for_state_keys (gvm : gmap string Value)
    (state s : State) :
  ∃ records,
    (get_default_input_values_for_state gvm state s).2
    = with_logger (logger s ++ records) s
    ∧ (is_library_state state = false →
       ∃ result_dict,
         (get_default_input_values_for_state gvm state s).1 = Return result_dict)
    ∧ (∀ result_dict,
         (get_default_input_values_for_state gvm state s).1 = Return result_dict →
         ∀ name, is_Some (result_dict !! name)
                 ↔ port_name_in_use name (_input_data_ports state))
    ∧ (is_library_state state = true →
       ∀ key port,
         _input_data_ports state !! key = Some port →
         use_runtime_value_input_data_ports state !! key = None
         ∨ (use_runtime_value_input_data_ports state !! key = Some true
            ∧ input_data_port_runtime_values state !! key = None) →
         ∃ e, (get_default_input_values_for_state gvm state s).1 = Raise e
              ∧ exc_class e = KeyError).
Proof.
  destruct (get_default_input_values_for_state_cases gvm state s)
    as [records [(result_dict & -> & Hports & Hkeys)
                 |(key & port & Hin & -> & Hraise)]];
    exists records; cbn [fst snd]; (split; [done|]).
  - split; [by eexists|]. split; [by intros ? [= <-]|].
    intros Hlibrary key port Hport Hmissing.
    destruct (Hports key port Hport) as [default' Hdefault].
    exfalso. specialize (Hdefault s). revert Hdefault.
    unfold port_default, dict_getitem. munfold. rewrite Hlibrary.
    destruct Hmissing as [->|[-> ->]]; done.
  - split; [|split; [done|by eexists]].
    intros Hplain. exfalso. specialize (Hraise s). revert Hraise.
    unfold port_default. by rewrite Hplain.
Qed.

End StateMachine.

(** * The methods on explicit inputs *)

Lemma key_order_iteritems_perm (A : Type) (d : gmap Z A) :
  key_order_iteritems A d ≡ₚ map_to_list d.
Proof. reflexivity. Qed.

(** ** C1 *)

(** C1 (the code at the failing input).  [State("A")] constructs
    [state_A_constructed], which has both reserved outcomes.  Assigning to
    its [outcomes] a dictionary whose only outcome has id 0 and the name
    "aborted" installs the dictionary, then raises [ValueError] while the
    reserved outcome -1 is created, because its name is taken; the old
    outcomes are not restored, and the state is left with neither -1 nor
    -2. *)
Theorem outcomes_setter_failure_loses_reserved_outcomes :
  State_init key_order_iteritems "A" parent_accepts container_accepts
    EXECUTION None (Some "A") None None None None blank
  = (Return tt, state_A_constructed)
  ∧ has_reserved_outcomes state_A_constructed
  ∧ outcomes_setter key_order_iteritems parent_accepts container_accepts
      outcomes_with_taken_name state_A_constructed
    = (Raise (Exc ValueError "outcome name '{0}' existing in state" [VStr "aborted"]),
       with_outcomes outcomes_with_taken_name state_A_constructed)
  ∧ _outcomes (with_outcomes outcomes_with_taken_name state_A_constructed) !! (-1) = None
  ∧ _outcomes (with_outcomes outcomes_with_taken_name state_A_constructed) !! (-2) = None
  ∧ ¬ has_reserved_outcomes (with_outcomes outcomes_with_taken_name state_A_constructed).
Proof.
  split; [by vm_compute|]. split; [split; by eexists|].
  split; [by vm_compute|]. split; [done|]. split; [done|].
  intros [[outcome Hlookup] _]. by vm_compute in Hlookup.
Qed.

(** ** C2 *)

(** C2 fails as stated: the script of ["A"] calls [sys.exit(0)]; the
    exception [SystemExit] is no instance of [Exception], so it leaves
    [run], which stores nothing under ["error"] and sets no final
    outcome. *)
Lemma run_lets_SystemExit_leave :
  script_raising exit_request (backward_execution state_A)
    (state_at_execute key_order_iteritems maxint64 state_A)
  = (Raise exit_request, state_at_execute key_order_iteritems maxint64 state_A)
  ∧ (run key_order_iteritems maxint64 module_builds (script_raising exit_request) state_A).1
    = Raise exit_request
  ∧ _output_data
      (run key_order_iteritems maxint64 module_builds (script_raising exit_request) state_A).2
    !! "error" = None
  ∧ _final_outcome
      (run key_order_iteritems maxint64 module_builds (script_raising exit_request) state_A).2
    = None.
Proof. by vm_compute. Qed.

(** The script of ["A"] raises [boom], an instance of [Exception], or
    [exit_request], which is none. *)
Lemma run_catches_script_exception_witness :
  script_raising boom (backward_execution state_A)
    (state_at_execute key_order_iteritems maxint64 state_A)
  = (Raise boom, state_at_execute key_order_iteritems maxint64 state_A)
  ∧ is_Exception (exc_class boom) = true
  ∧ (∃ s', run key_order_iteritems maxint64 module_builds (script_raising boom) state_A
           = (Return tt, s')
           ∧ _output_data s' !! "error" = Some (VExc boom)
           ∧ _final_outcome s' = Some (mkOutcome (-1) "aborted"))
  ∧ is_Exception (exc_class exit_request) = false
  ∧ run key_order_iteritems maxint64 module_builds (script_raising exit_request) state_A
    = (Raise exit_request, state_at_execute key_order_iteritems maxint64 state_A).
Proof.
  split; [reflexivity|]. split; [reflexivity|]. split; [|split; [reflexivity|]].
  - destruct (proj1 (run_catches_script_exception key_order_iteritems maxint64 module_builds
                       (script_raising boom) state_A
                       (state_at_execute key_order_iteritems maxint64 state_A)
                       (state_at_execute key_order_iteritems maxint64 state_A) boom
                       eq_refl eq_refl) eq_refl)
      as (s' & Hrun & Herror & _ & Hfinal & _).
    exists s'. split; [exact Hrun|]. split; [exact Herror|exact Hfinal].
  - exact (proj2 (run_catches_script_exception key_order_iteritems maxint64 module_builds
                    (script_raising exit_request) state_A
                    (state_at_execute key_order_iteritems maxint64 state_A)
                    (state_at_execute key_order_iteritems maxint64 state_A) exit_request
                    eq_refl eq_refl) eq_refl).
Defined.

(** ** C3 *)

(** C3 fails as stated: the script of ["A"] returns 5, which is neither an
    outcome id nor an outcome name of the state; the run ends on the
    reserved outcome -1, and the output data have no entry ["error"]. *)
Lemma run_unmatched_object_writes_no_error :
  key_in (VInt 5) (_outcomes state_A) = false
  ∧ outcome_id_by_name (VInt 5) (key_order_iteritems _ (_outcomes state_A)) = None
  ∧ (run key_order_iteritems maxint64 module_builds (script_returning (VInt 5)) state_A).1
    = Return tt
  ∧ _final_outcome
      (run key_order_iteritems maxint64 module_builds (script_returning (VInt 5)) state_A).2
    = Some (mkOutcome (-1) "aborted")
  ∧ _output_data
      (run key_order_iteritems maxint64 module_builds (script_returning (VInt 5)) state_A).2
    !! "error" = None.
Proof. by vm_compute. Qed.

(** The script of ["A"] returns 0, the id of the outcome "success"; the
    name "success"; 5, which is neither; or an empty list, which cannot be
    hashed. *)
Lemma run_routes_returned_object_witness :
  backward_execution state_A = false
  ∧ _preempted (state_at_execute key_order_iteritems maxint64 state_A) = false
  ∧ (∃ s', run key_order_iteritems maxint64 module_builds (script_returning (VInt 0)) state_A
           = (Return tt, s')
           ∧ _final_outcome s' = Some (mkOutcome 0 "success")
           ∧ _output_data s' = ∅)
  ∧ (∃ s' outcome,
       run key_order_iteritems maxint64 module_builds (script_returning (VStr "success"))
         state_A
       = (Return tt, s')
       ∧ _final_outcome s' = Some outcome
       ∧ value_eq_str (VStr "success") (outcome_name outcome) = true
       ∧ _output_data s' = ∅)
  ∧ (∃ s', run key_order_iteritems maxint64 module_builds (script_returning (VInt 5)) state_A
           = (Return tt, s')
           ∧ _final_outcome s' = Some (mkOutcome (-1) "aborted")
           ∧ _output_data s' = ∅)
  ∧ (∃ s', run key_order_iteritems maxint64 module_builds (script_returning empty_list)
             state_A
           = (Return tt, s')
           ∧ _final_outcome s' = Some (mkOutcome (-1) "aborted")
           ∧ _output_data s' !! "error" = Some (VExc (unhashable_type empty_list))).
Proof.
  split; [reflexivity|]. split; [reflexivity|].
  split; [|split; [|split]].
  - destruct (proj1 (run_routes_returned_object key_order_iteritems
                       key_order_iteritems_perm maxint64 module_builds
                       (script_returning (VInt 0)) state_A
                       (state_at_execute key_order_iteritems maxint64 state_A)
                       (state_at_execute key_order_iteritems maxint64 state_A) (VInt 0)
                       eq_refl eq_refl eq_refl eq_refl) eq_refl)
      as (outcome & s2' & s' & _ & Hrun & Hfinal & Hdata & Hid & _).
    exists s'. split; [exact Hrun|]. split; [|exact Hdata].
    rewrite Hfinal. symmetry. apply (Hid 0 eq_refl). by eexists.
  - destruct (proj1 (run_routes_returned_object key_order_iteritems
                       key_order_iteritems_perm maxint64 module_builds
                       (script_returning (VStr "success")) state_A
                       (state_at_execute key_order_iteritems maxint64 state_A)
                       (state_at_execute key_order_iteritems maxint64 state_A)
                       (VStr "success") eq_refl eq_refl eq_refl eq_refl) eq_refl)
      as (outcome & s2' & s' & _ & Hrun & Hfinal & Hdata & _ & Hname & _).
    exists s', outcome. split; [exact Hrun|]. split; [exact Hfinal|].
    split; [|exact Hdata].
    apply Hname; [reflexivity|].
    exists 0, (mkOutcome 0 "success"). split; reflexivity.
  - destruct (proj1 (run_routes_returned_object key_order_iteritems
                       key_order_iteritems_perm maxint64 module_builds
                       (script_returning (VInt 5)) state_A
                       (state_at_execute key_order_iteritems maxint64 state_A)
                       (state_at_execute key_order_iteritems maxint64 state_A) (VInt 5)
                       eq_refl eq_refl eq_refl eq_refl) eq_refl)
      as (outcome & s2' & s' & _ & Hrun & Hfinal & Hdata & _ & _ & Hneither).
    exists s'. split; [exact Hrun|]. split; [|exact Hdata].
    rewrite Hfinal. f_equal. apply Hneither; [reflexivity|].
    intros key other Hother. reflexivity.
  - destruct (proj2 (run_routes_returned_object key_order_iteritems
                       key_order_iteritems_perm maxint64 module_builds
                       (script_returning empty_list) state_A
                       (state_at_execute key_order_iteritems maxint64 state_A)
                       (state_at_execute key_order_iteritems maxint64 state_A) empty_list
                       eq_refl eq_refl eq_refl eq_refl) eq_refl)
      as (s' & _ & Hrun & Hfinal & Hdata).
    exists s'. split; [exact Hrun|]. split; [exact Hfinal|].
    rewrite Hdata. apply lookup_insert_eq.
Defined.

(** ** C4 *)

(** C4 fails as stated: ["A"] has an empty join queue; after [finalize]
    with the outcome 0 the queue holds the state id ["A"], not the pair of
    the state id and the outcome. *)
Lemma finalize_posts_no_pair :
  _concurrency_queue state_A_in_group = Some []
  ∧ _concurrency_queue (finalize (Some (mkOutcome 0 "success")) state_A_in_group).2
    = Some [VStr "A"]
  ∧ _concurrency_queue (finalize (Some (mkOutcome 0 "success")) state_A_in_group).2
    ≠ Some [VTuple [VStr "A"; VOutcome (mkOutcome 0 "success")]].
Proof. split; [done|]. split; [done|]. by intros [=]. Qed.

(** ** C5 *)

(** The global variable ["x"] is 42 and the default of the port of ["G"] is
    ["$x"]. *)
Lemma get_default_input_values_for_state_spec_witness :
  ∃ result_dict s',
    get_default_input_values_for_state key_order_iteritems {[ "x" := VInt 42 ]}
      state_G state_A
    = (Return result_dict, s')
    ∧ result_dict !! "port" = Some (VInt 42).
Proof.
  destruct (get_default_input_values_for_state_spec key_order_iteritems
              key_order_iteritems_perm {[ "x" := VInt 42 ]} state_G state_A)
    as (result_dict & s' & Hrun & Hports).
  - intros key1 port1 key2 port2 Hport1 Hport2 _.
    unfold state_G, _input_data_ports in Hport1, Hport2.
    apply lookup_singleton_Some in Hport1 as [<- _].
    by apply lookup_singleton_Some in Hport2 as [<- _].
  - intros Hlibrary. discriminate Hlibrary.
  - exists result_dict, s'. split; [exact Hrun|].
    destruct (Hports 0 (mkDataPort 0 "port" T_int (VStr "$x")) eq_refl)
      as (default' & Hdefault & _ & _ & Hglobal & _).
    apply (Hglobal "x" (VInt 42)); [|reflexivity].
    by rewrite (Hdefault eq_refl).
Defined.

(** ** C7 *)

(** ["B"] has an input port ["input"]; a second one is refused. *)
Lemma add_data_port_all_or_nothing_witness :
  port_name_in_use "input" (_input_data_ports state_B)
  ∧ add_input_data_port key_order_iteritems counting_id_generator
      no_init_error parent_accepts container_accepts
      "input" T_str (VStr "one") None state_B
    = (Raise (Exc ValueError
         "data port name already existing in state's input data ports" []),
       state_B).
Proof.
  assert (port_name_in_use "input" (_input_data_ports state_B)) as Huse.
  { exists 0, (mkDataPort 0 "input" T_str (VStr "zero")). split; reflexivity. }
  split; [exact Huse|].
  destruct (add_data_port_all_or_nothing key_order_iteritems
              key_order_iteritems_perm counting_id_generator no_init_error
              parent_accepts container_accepts state_B "input" T_str
              (VStr "one") None) as (Hfails & _).
  destruct (Hfails Huse) as (e & Hadd & _ & Hname).
  rewrite Hadd.
  by rewrite (Hname (mkDataPort 2 "input" T_str (VStr "one")) eq_refl).
Defined.

(** ** C8 *)

(** C8 fails as stated: ["A"] has an outcome with id 0; [add_outcome] with
    that id raises nothing, it returns [None] and logs an error. *)
Lemma add_outcome_duplicate_id_returns_silently :
  is_Some (_outcomes state_A !! 0)
  ∧ add_outcome key_order_iteritems counting_id_generator parent_accepts
      container_accepts "again" (Some 0) state_A
    = (Return None,
       with_logger
         [mkLogRecord ERROR "Two outcomes cannot have the same outcome_ids" []]
         state_A)
  ∧ ¬ ∃ e, (add_outcome key_order_iteritems counting_id_generator parent_accepts
              container_accepts "again" (Some 0) state_A).1 = Raise e.
Proof.
  split; [by eexists|]. split; [by vm_compute|]. by intros [e He].
Qed.

(** ["A"] has the outcome 0 with the name "success". *)
Lemma add_outcome_duplicate_witness :
  is_Some (_outcomes state_A !! 0)
  ∧ add_outcome key_order_iteritems counting_id_generator parent_accepts
      container_accepts "success" (Some 0) state_A
    = (Return None,
       with_logger
         (logger state_A
          ++ [mkLogRecord ERROR "Two outcomes cannot have the same outcome_ids" []])
         state_A)
  ∧ outcome_name_in_use "success" state_A
  ∧ add_outcome key_order_iteritems counting_id_generator parent_accepts
      container_accepts "success" None state_A
    = (Raise (Exc ValueError "outcome name '{0}' existing in state" [VStr "success"]),
       state_A).
Proof.
  assert (is_Some (_outcomes state_A !! 0)) as Hid by (by eexists).
  assert (outcome_name_in_use "success" state_A) as Hname.
  { exists 0, (mkOutcome 0 "success"). split; reflexivity. }
  split; [exact Hid|]. split; [|split; [exact Hname|]].
  - apply (add_outcome_duplicate key_order_iteritems key_order_iteritems_perm
             counting_id_generator parent_accepts container_accepts state_A
             "success" (Some 0)).
    exact Hid.
  - apply (add_outcome_duplicate key_order_iteritems key_order_iteritems_perm
             counting_id_generator parent_accepts container_accepts state_A
             "success" None); [reflexivity|exact Hname].
Defined.

(** ** C9 *)

(** C9 fails as stated: ["A"] runs backward with a script that raises; the
    run sets the final outcome -1. *)
Lemma run_backward_raising_sets_final_outcome :
  backward_execution state_A_backward = true
  ∧ _final_outcome state_A_backward = None
  ∧ (run key_order_iteritems maxint64 module_builds (script_raising boom) state_A_backward).1
    = Return tt
  ∧ _final_outcome
      (run key_order_iteritems maxint64 module_builds (script_raising boom) state_A_backward).2
    = Some (mkOutcome (-1) "aborted").
Proof. by vm_compute. Qed.

(** ["A"] runs backward with a script that returns, and with a script that
    raises [boom]. *)
Lemma run_backward_sets_no_outcome_witness :
  backward_execution state_A_backward = true
  ∧ _execute key_order_iteritems module_builds (script_returning VNone) true
      (state_at_execute key_order_iteritems maxint64 state_A_backward)
    = (Return None, state_at_execute key_order_iteritems maxint64 state_A_backward)
  ∧ (∃ s', run key_order_iteritems maxint64 module_builds (script_returning VNone)
             state_A_backward
           = (Return tt, s')
           ∧ _final_outcome s' = None)
  ∧ is_Exception (exc_class boom) = true
  ∧ (∃ s', run key_order_iteritems maxint64 module_builds (script_raising boom)
             state_A_backward
           = (Return tt, s')
           ∧ _final_outcome s' = Some (mkOutcome (-1) "aborted")
           ∧ _output_data s' !! "error" = Some (VExc boom)).
Proof.
  split; [reflexivity|].
  destruct (proj1 (run_backward_sets_no_outcome key_order_iteritems maxint64 module_builds
                     (script_returning VNone) state_A_backward
                     (state_at_execute key_order_iteritems maxint64 state_A_backward)
                     eq_refl eq_refl)
              VNone (state_at_execute key_order_iteritems maxint64 state_A_backward) eq_refl)
    as (Hexecute & s' & Hrun & Hfinal & _).
  split; [exact Hexecute|].
  split; [exists s'; split; [exact Hrun|exact Hfinal]|].
  split; [reflexivity|].
  destruct (proj2 (run_backward_sets_no_outcome key_order_iteritems maxint64 module_builds
                     (script_raising boom) state_A_backward
                     (state_at_execute key_order_iteritems maxint64 state_A_backward)
                     eq_refl eq_refl)
              boom (state_at_execute key_order_iteritems maxint64 state_A_backward)
              eq_refl eq_refl)
    as (s'' & Hrun' & Hfinal' & Hdata').
  exists s''. split; [exact Hrun'|]. split; [exact Hfinal'|].
  rewrite Hdata'. apply lookup_insert_eq.
Defined.

(** ** C10 *)

(** C10 fails as stated: after the forced removal of the outcome -1 from
    ["A"], [destruct] leaves the outcome -2 alone. *)
Lemma destruct_after_forced_removal :
  (remove_outcome key_order_iteritems (-1) true state_A).1 = Return tt
  ∧ (destruct key_order_iteritems
       (remove_outcome key_order_iteritems (-1) true state_A).2).1 = Return tt
  ∧ _outcomes (destruct key_order_iteritems
                 (remove_outcome key_order_iteritems (-1) true state_A).2).2
    !! (-1) = None
  ∧ dom (_outcomes (destruct key_order_iteritems
                      (remove_outcome key_order_iteritems (-1) true state_A).2).2)
    ≠ {[ -1; -2 ]}.
Proof.
  split; [by vm_compute|]. split; [by vm_compute|]. split; [by vm_compute|].
  intros Hdom.
  assert (-1 ∈ dom (_outcomes (destruct key_order_iteritems
            (remove_outcome key_order_iteritems (-1) true state_A).2).2)) as Hin.
  { rewrite Hdom. set_solver. }
  apply elem_of_dom in Hin as [outcome Hlookup]. by vm_compute in Hlookup.
Qed.

(** ["B"] has two ports and the outcomes 0, -1 and -2. *)
Lemma destruct_keeps_reserved_outcomes_witness :
  has_reserved_outcomes state_B
  ∧ ∃ s', destruct key_order_iteritems state_B = (Return tt, s')
          ∧ _input_data_ports s' = ∅
          ∧ _output_data_ports s' = ∅
          ∧ dom (_outcomes s') = {[ -1; -2 ]}.
Proof.
  assert (has_reserved_outcomes state_B) as Hreserved by (split; by eexists).
  split; [exact Hreserved|].
  destruct (destruct_keeps_reserved_outcomes key_order_iteritems
              key_order_iteritems_perm state_B)
    as (s' & Hrun & Hin & Hout & _ & Hdom).
  exists s'. split; [exact Hrun|]. split; [exact Hin|]. split; [exact Hout|].
  exact (Hdom Hreserved).
Defined.

(** * Further properties on explicit inputs *)

(** The state ["A"] has no outcome with the id 5 or the name "done". *)
Lemma _check_outcome_validity_spec_witness :
  (_check_outcome_validity key_order_iteritems state_A (mkOutcome 5 "done") false).1
  = true
  ∧ _outcomes state_A !! 5 = None
  ∧ ¬ outcome_name_in_use "done" state_A.
Proof.
  assert ((_check_outcome_validity key_order_iteritems state_A
             (mkOutcome 5 "done") false).1 = true) as Hvalid by reflexivity.
  split; [exact Hvalid|].
  exact (proj1 (proj1 (_check_outcome_validity_spec key_order_iteritems
                         key_order_iteritems_perm state_A (mkOutcome 5 "done")))
           Hvalid).
Defined.

(** Assigning the single outcome 0 ("done") to ["A"]. *)
Lemma outcomes_setter_spec_witness :
  ∃ s', outcomes_setter key_order_iteritems parent_accepts container_accepts
          {[ 0 := mkOutcome 0 "done" ]} state_A
        = (Return tt, s')
        ∧ _outcomes s' !! 0 = Some (mkOutcome 0 "done")
        ∧ _outcomes s' !! (-1) = Some (mkOutcome (-1) "aborted")
        ∧ _outcomes s' !! (-2) = Some (mkOutcome (-2) "preempted")
        ∧ outcome_names_unique (_outcomes s').
Proof.
  assert (outcomes_setter key_order_iteritems parent_accepts container_accepts
            {[ 0 := mkOutcome 0 "done" ]} state_A
          = (Return tt,
             (outcomes_setter key_order_iteritems parent_accepts container_accepts
                {[ 0 := mkOutcome 0 "done" ]} state_A).2)) as Hrun
    by (vm_compute; reflexivity).
  eexists. split; [exact Hrun|].
  destruct (proj1 (outcomes_setter_spec key_order_iteritems key_order_iteritems_perm
                     parent_accepts container_accepts
                     {[ 0 := mkOutcome 0 "done" ]} state_A) _ Hrun)
    as (_ & Hassigned & _ & Haborted & Hpreempted & Hunique).
  split; [exact (proj1 (Hassigned 0 (mkOutcome 0 "done") eq_refl))|].
  split; [exact (Haborted eq_refl)|].
  split; [exact (Hpreempted eq_refl)|exact Hunique].
Defined.

(** Assigning to ["B"] input ports that use the id 1 of its output port. *)
Lemma input_data_ports_setter_all_or_nothing_witness :
  ∃ e, input_data_ports_setter key_order_iteritems parent_accepts container_accepts
         {[ 1 := mkDataPort 1 "other" T_int VNone ]} state_B
       = (Raise e, state_B)
       ∧ (exc_class e = AttributeError ∨ exc_class e = ValueError).
Proof.
  assert (∃ e, input_data_ports_setter key_order_iteritems parent_accepts
                 container_accepts {[ 1 := mkDataPort 1 "other" T_int VNone ]} state_B
               = (Raise e,
                  (input_data_ports_setter key_order_iteritems parent_accepts
                     container_accepts {[ 1 := mkDataPort 1 "other" T_int VNone ]}
                     state_B).2)) as [e Hrun]
    by (eexists; vm_compute; reflexivity).
  exists e.
  destruct (proj1 (input_data_ports_setter_all_or_nothing key_order_iteritems
                     key_order_iteritems_perm parent_accepts container_accepts
                     {[ 1 := mkDataPort 1 "other" T_int VNone ]} state_B) e _ Hrun)
    as [Hsame Hclass].
  split; [|exact Hclass]. rewrite <- Hsame at 2. exact Hrun.
Defined.

(** Assigning to ["B"] two output ports with different names. *)
Lemma output_data_ports_setter_all_or_nothing_witness :
  ∃ s', output_data_ports_setter key_order_iteritems parent_accepts container_accepts
          {[ 1 := mkDataPort 1 "first" T_int VNone;
             2 := mkDataPort 2 "second" T_int VNone ]} state_B
        = (Return tt, s')
        ∧ _output_data_ports s'
          = {[ 1 := mkDataPort 1 "first" T_int VNone;
               2 := mkDataPort 2 "second" T_int VNone ]}
        ∧ _input_data_ports state_B !! 1 = None.
Proof.
  assert (output_data_ports_setter key_order_iteritems parent_accepts container_accepts
            {[ 1 := mkDataPort 1 "first" T_int VNone;
               2 := mkDataPort 2 "second" T_int VNone ]} state_B
          = (Return tt,
             (output_data_ports_setter key_order_iteritems parent_accepts
                container_accepts
                {[ 1 := mkDataPort 1 "first" T_int VNone;
                   2 := mkDataPort 2 "second" T_int VNone ]} state_B).2)) as Hrun
    by (vm_compute; reflexivity).
  eexists. split; [exact Hrun|].
  destruct (proj2 (output_data_ports_setter_all_or_nothing key_order_iteritems
                     key_order_iteritems_perm parent_accepts container_accepts
                     {[ 1 := mkDataPort 1 "first" T_int VNone;
                        2 := mkDataPort 2 "second" T_int VNone ]} state_B) _ Hrun)
    as (Hstate & Hports & _).
  split; [by rewrite Hstate|].
  exact (proj2 (Hports 1 (mkDataPort 1 "first" T_int VNone) eq_refl)).
Defined.

(** Removing the input port 0 of ["C"]: the parent loses the data flow 1,
    which ends at that port, and keeps the data flows 0 and 2. *)
Lemma remove_input_data_port_removes_data_flows_witness :
  is_Some (_input_data_ports state_C !! 0)
  ∧ ∃ parent',
      remove_input_data_port key_order_iteritems 0 false state_C
      = (Return tt,
         with_input_data_ports (delete 0 (_input_data_ports state_C))
           (with_parent (Some parent') state_C))
      ∧ data_flows parent' !! 0 = Some (mkDataFlow "C" 1 "D" 0)
      ∧ data_flows parent' !! 1 = None
      ∧ transitions parent' = transitions parent_of_C.
Proof.
  assert (is_Some (_input_data_ports state_C !! 0)) as Hport by (by eexists).
  split; [exact Hport|].
  destruct (proj1 (proj2 (remove_input_data_port_removes_data_flows
                            key_order_iteritems key_order_iteritems_perm
                            0 false state_C)) Hport)
    as ([parent'|] & Hremove & Hremoved); [|destruct Hremoved].
  exists parent'. split; [exact Hremove|].
  destruct Hremoved as [Htransitions Hflows]. split; [|split; [|exact Htransitions]].
  - apply Hflows. split; [reflexivity|].
    intros [[_ Hkey]|[Hstate _]]; discriminate.
  - destruct (data_flows parent' !! 1) as [data_flow|] eqn:Hflow; [|reflexivity].
    apply Hflows in Hflow as [Hflow Hnot]. injection Hflow as <-.
    destruct Hnot. right. split; reflexivity.
Defined.

(** Removing the output port 1 of ["C"]: the parent loses the data flow 0,
    which starts at that port. *)
Lemma remove_output_data_port_removes_data_flows_witness :
  is_Some (_output_data_ports state_C !! 1)
  ∧ ∃ parent',
      remove_output_data_port key_order_iteritems 1 false state_C
      = (Return tt,
         with_output_data_ports (delete 1 (_output_data_ports state_C))
           (with_parent (Some parent') state_C))
      ∧ data_flows parent' !! 0 = None
      ∧ data_flows parent' !! 2 = Some (mkDataFlow "D" 1 "P" 2).
Proof.
  assert (is_Some (_output_data_ports state_C !! 1)) as Hport by (by eexists).
  split; [exact Hport|].
  destruct (proj1 (proj2 (remove_output_data_port_removes_data_flows
                            key_order_iteritems key_order_iteritems_perm
                            1 false state_C)) Hport)
    as ([parent'|] & Hremove & Hremoved); [|destruct Hremoved].
  exists parent'. split; [exact Hremove|].
  destruct Hremoved as [_ Hflows]. split.
  - destruct (data_flows parent' !! 0) as [data_flow|] eqn:Hflow; [|reflexivity].
    apply Hflows in Hflow as [Hflow Hnot]. injection Hflow as <-.
    destruct Hnot. left. split; reflexivity.
  - apply Hflows. split; [reflexivity|].
    intros [[Hstate _]|[Hstate _]]; discriminate.
Defined.

(** Removing the outcome 0 of ["C"]: the parent loses a transition that
    left it, and keeps its data flows. *)
Lemma remove_outcome_removes_one_transition_witness :
  is_Some (_outcomes state_C !! 0)
  ∧ ∃ parent',
      remove_outcome key_order_iteritems 0 false state_C
      = (Return tt,
         with_outcomes (delete 0 (_outcomes state_C))
           (with_parent (Some parent') state_C))
      ∧ data_flows parent' = data_flows parent_of_C
      ∧ ∃ transition_id transition,
          transitions parent_of_C !! transition_id = Some transition
          ∧ leaves "C" 0 transition
          ∧ transitions parent' = delete transition_id (transitions parent_of_C).
Proof.
  assert (is_Some (_outcomes state_C !! 0)) as Hport by (by eexists).
  split; [exact Hport|].
  destruct (proj1 (proj2 (remove_outcome_removes_one_transition
                            key_order_iteritems key_order_iteritems_perm
                            0 false state_C)) Hport)
    as ([parent'|] & Hremove & Hremoved);
    [right; split; discriminate| |destruct Hremoved].
  exists parent'. split; [exact Hremove|].
  destruct Hremoved as [Hflows [[Hnone _]|Hone]]; (split; [exact Hflows|]).
  - destruct (Hnone 0 (mkTransition (Some "C") (Some 0) (Some "D") None) eq_refl).
    split; reflexivity.
  - exact Hone.
Defined.

(** Adding the outcome "extra" to ["A"], with a generated id, and removing
    it again. *)
Lemma add_outcome_then_remove_outcome_restores_witness :
  add_outcome key_order_iteritems counting_id_generator parent_accepts
    container_accepts "extra" None state_A
  = (Return (Some 1),
     with_outcomes (<[1 := mkOutcome 1 "extra"]> (_outcomes state_A)) state_A)
  ∧ remove_outcome key_order_iteritems 1 false
      (with_outcomes (<[1 := mkOutcome 1 "extra"]> (_outcomes state_A)) state_A)
    = (Return tt, state_A).
Proof.
  assert (add_outcome key_order_iteritems counting_id_generator parent_accepts
            container_accepts "extra" None state_A
          = (Return (Some 1),
             with_outcomes (<[1 := mkOutcome 1 "extra"]> (_outcomes state_A)) state_A))
    as Hadd by (vm_compute; reflexivity).
  split; [exact Hadd|].
  apply (add_outcome_then_remove_outcome_restores key_order_iteritems
           key_order_iteritems_perm counting_id_generator parent_accepts
           container_accepts "extra" None false state_A _ 1 Hadd).
  - intros parent transition_id transition Hparent. discriminate Hparent.
  - right. split; discriminate.
Defined.

(** Adding the input port "second" to ["B"], with a generated id, and
    removing it again. *)
Lemma add_data_port_then_remove_data_port_restores_witness :
  add_input_data_port key_order_iteritems counting_id_generator no_init_error
    parent_accepts container_accepts "second" T_int VNone None state_B
  = (Return 2,
     with_input_data_ports
       (<[2 := mkDataPort 2 "second" T_int VNone]> (_input_data_ports state_B)) state_B)
  ∧ remove_input_data_port key_order_iteritems 2 false
      (with_input_data_ports
         (<[2 := mkDataPort 2 "second" T_int VNone]> (_input_data_ports state_B))
         state_B)
    = (Return tt, state_B).
Proof.
  assert (add_input_data_port key_order_iteritems counting_id_generator no_init_error
            parent_accepts container_accepts "second" T_int VNone None state_B
          = (Return 2,
             with_input_data_ports
               (<[2 := mkDataPort 2 "second" T_int VNone]> (_input_data_ports state_B))
               state_B))
    as Hadd by (vm_compute; reflexivity).
  split; [exact Hadd|].
  assert (∀ parent data_flow_id data_flow,
            _parent state_B = Some parent →
            data_flows parent !! data_flow_id = Some data_flow →
            ¬ touches (_state_id state_B) 2 data_flow) as Hroot.
  { intros parent data_flow_id data_flow Hparent. discriminate Hparent. }
  exact (proj1 (add_data_port_then_remove_data_port_restores key_order_iteritems
                  key_order_iteritems_perm counting_id_generator no_init_error
                  parent_accepts container_accepts "second" T_int VNone None false
                  state_B _ 2 Hroot) Hadd).
Defined.

(** ["B"] has the input port "input" with the id 0, and no output port
    "error". *)
Lemma get_io_data_port_id_from_name_and_type_spec_witness :
  get_io_data_port_id_from_name_and_type key_order_iteritems "input" (Some Input)
    state_B
  = (Return (Some 0), state_B)
  ∧ get_io_data_port_id_from_name_and_type key_order_iteritems "error" (Some Output)
      state_B
    = (Return None, state_B)
  ∧ ¬ port_name_in_use "error" (_output_data_ports state_B).
Proof.
  destruct (get_io_data_port_id_from_name_and_type_spec key_order_iteritems
              key_order_iteritems_perm "error" state_B)
    as (_ & [(key & port & _ & _ & Hfound)|[Hnone Herror]] & _).
  { vm_compute in Hfound. discriminate Hfound. }
  split; [reflexivity|]. split; [exact Herror|exact Hnone].
Defined.

(** The ids of the ports of ["B"] are 0 and 1; 0 is the input port. *)
Lemma get_data_port_by_id_spec_witness :
  0 ∈ get_data_port_ids key_order_iteritems state_B
  ∧ get_data_port_by_id state_B 0 = Some (mkDataPort 0 "input" T_str (VStr "zero"))
  ∧ 2 ∉ get_data_port_ids key_order_iteritems state_B.
Proof.
  destruct (get_data_port_by_id_spec key_order_iteritems key_order_iteritems_perm
              state_B 0) as (Hlisted & Hinput & _).
  destruct (get_data_port_by_id_spec key_order_iteritems key_order_iteritems_perm
              state_B 2) as (Hmissing & _ & _).
  split; [|split].
  - apply Hlisted. by eexists.
  - exact (Hinput _ eq_refl).
  - intros Hin. apply Hmissing in Hin as [port Hport]. discriminate Hport.
Defined.

(** Adding the output port "result" to ["B"], with a generated id. *)
Lemma added_data_port_is_found_witness :
  add_output_data_port key_order_iteritems counting_id_generator no_init_error
    parent_accepts container_accepts "result" T_int VNone None state_B
  = (Return 2,
     with_output_data_ports
       (<[2 := mkDataPort 2 "result" T_int VNone]> (_output_data_ports state_B))
       state_B)
  ∧ get_data_port_by_id
      (with_output_data_ports
         (<[2 := mkDataPort 2 "result" T_int VNone]> (_output_data_ports state_B))
         state_B) 2
    = Some (mkDataPort 2 "result" T_int VNone)
  ∧ (get_io_data_port_id_from_name_and_type key_order_iteritems "result"
       (Some Output)
       (with_output_data_ports
          (<[2 := mkDataPort 2 "result" T_int VNone]> (_output_data_ports state_B))
          state_B)).1
    = Return (Some 2).
Proof.
  assert (add_output_data_port key_order_iteritems counting_id_generator no_init_error
            parent_accepts container_accepts "result" T_int VNone None state_B
          = (Return 2,
             with_output_data_ports
               (<[2 := mkDataPort 2 "result" T_int VNone]> (_output_data_ports state_B))
               state_B))
    as Hadd by (vm_compute; reflexivity).
  split; [exact Hadd|].
  destruct (proj2 (added_data_port_is_found key_order_iteritems
                     key_order_iteritems_perm counting_id_generator no_init_error
                     parent_accepts container_accepts "result" T_int VNone None
                     state_B _ 2) Hadd) as [Hby_id Hby_name].
  split; [exact Hby_id|]. by rewrite Hby_name.
Defined.

(** The input data of ["B"] hold the integer 7 for the port "input", which
    takes strings, and its output data the [long] 7 for the port "output",
    which takes [int]s: each check writes exactly one record. *)
Lemma check_data_type_logs_mismatches_witness :
  check_input_data_type key_order_iteritems maxint64 state_B_with_data
  = (Return tt,
     with_logger
       [mkLogRecord ERROR
          "{0} had an data port error: Input of execute function must be of type {1} not {2} as current value {3}"
          [str_of_state state_B_with_data; VType T_str; VInt 7]]
       state_B_with_data)
  ∧ check_output_data_type key_order_iteritems maxint64 state_B_with_data
    = (Return tt,
       with_logger
         [mkLogRecord ERROR
            "{0} had an data port error: Output of execute function must be of type {1} not {2} as current value {3}"
            [str_of_state state_B_with_data; VType T_int; VLong 7]]
         state_B_with_data).
Proof.
  destruct (check_data_type_logs_mismatches key_order_iteritems
              key_order_iteritems_perm maxint64 state_B_with_data)
    as (Hinput & Houtput & _).
  split.
  - rewrite Hinput. reflexivity.
  - rewrite Houtput. reflexivity.
Defined.

(** The script of ["A"] raises [boom], an instance of [Exception]: the run
    returns all the same.  It raises [exit_request]: the run raises it. *)
Lemma run_always_returns_witness :
  (∃ s', run key_order_iteritems maxint64 module_builds (script_raising boom) state_A
         = (Return tt, s')
         ∧ active s' = true
         ∧ ∃ final, _final_outcome s' = Some final)
  ∧ run key_order_iteritems maxint64 module_builds (script_raising exit_request) state_A
    = (Raise exit_request, state_at_execute key_order_iteritems maxint64 state_A).
Proof.
  split.
  - destruct (proj1 (run_always_returns key_order_iteritems key_order_iteritems_perm
                       maxint64 module_builds (script_raising boom) state_A))
      as (s' & Hrun & _ & Hactive & Hfinal).
    + intros s0 e s1 Hraise. discriminate Hraise.
    + intros backward s0 e s1 Hraise. injection Hraise as <- _. reflexivity.
    + exists s'. split; [exact Hrun|]. split; [exact Hactive|].
      destruct (Hfinal eq_refl) as (final & Hsome & _). by exists final.
  - apply (proj2 (run_always_returns key_order_iteritems key_order_iteritems_perm
                    maxint64 module_builds (script_raising exit_request) state_A));
      reflexivity.
Defined.

(** The script of ["A"] is preempted while it runs and returns 0, the id of
    the outcome "success". *)
Lemma run_preempted_ends_on_preempted_outcome_witness :
  script_preempted (VInt 0) false (state_at_execute key_order_iteritems maxint64 state_A)
  = (Return (VInt 0),
     with_preempted true (state_at_execute key_order_iteritems maxint64 state_A))
  ∧ ∃ s', run key_order_iteritems maxint64 module_builds (script_preempted (VInt 0)) state_A
          = (Return tt, s')
          ∧ _final_outcome s' = Some (mkOutcome (-2) "preempted").
Proof.
  split; [reflexivity|].
  destruct (run_preempted_ends_on_preempted_outcome key_order_iteritems
              maxint64 module_builds (script_preempted (VInt 0)) state_A
              (state_at_execute key_order_iteritems maxint64 state_A)
              (with_preempted true (state_at_execute key_order_iteritems maxint64 state_A))
              (VInt 0) eq_refl eq_refl eq_refl eq_refl)
    as (s' & Hrun & Hfinal & _).
  exists s'. split; [exact Hrun|exact Hfinal].
Defined.

(** ["A"] is preempted before [run] is called, and its script returns 0, the
    id of the outcome "success". *)
Lemma run_setup_clears_preemption_witness :
  _preempted state_A_preempted = true
  ∧ ∃ s', run key_order_iteritems maxint64 module_builds (script_returning (VInt 0))
            state_A_preempted
          = (Return tt, s')
          ∧ _preempted s' = false
          ∧ _final_outcome s' = Some (mkOutcome 0 "success").
Proof.
  split; [reflexivity|].
  destruct (run_setup_clears_preemption key_order_iteritems key_order_iteritems_perm
              maxint64 module_builds (script_returning (VInt 0)) state_A_preempted
              (state_at_execute key_order_iteritems maxint64 state_A_preempted)
              (state_at_execute key_order_iteritems maxint64 state_A_preempted) (VInt 0)
              eq_refl eq_refl eq_refl eq_refl)
    as (_ & _ & s' & Hrun & Hpreempted & Hfinal).
  exists s'. split; [exact Hrun|]. split; [exact Hpreempted|].
  exact (Hfinal eq_refl 0 (mkOutcome 0 "success") eq_refl eq_refl).
Defined.

(** ["A"] in a concurrency state: the run with a script that raises [boom]
    posts the state id; the run with a script that raises [exit_request]
    raises and posts nothing. *)
Lemma run_notifies_concurrency_queue_once_witness :
  _concurrency_queue state_A_in_group = Some []
  ∧ (∃ s', run key_order_iteritems maxint64 module_builds (script_raising boom)
             state_A_in_group
           = (Return tt, s')
           ∧ _concurrency_queue s' = Some [VStr "A"])
  ∧ ∃ s', run key_order_iteritems maxint64 module_builds (script_raising exit_request)
            state_A_in_group
          = (Raise exit_request, s')
          ∧ _concurrency_queue s' = Some [].
Proof.
  split; [reflexivity|]. split.
  - destruct (proj1 (run_notifies_concurrency_queue_once key_order_iteritems
                       maxint64 module_builds (script_raising boom) state_A_in_group))
      as (s' & Hrun & Hqueue).
    + intros e Hraise. injection Hraise as <-. reflexivity.
    + exists s'. split; [exact Hrun|]. rewrite Hqueue. reflexivity.
  - eexists. split.
    + apply (proj2 (run_notifies_concurrency_queue_once key_order_iteritems
                      maxint64 module_builds (script_raising exit_request) state_A_in_group));
        reflexivity.
    + reflexivity.
Defined.

(** Destructing ["B"] twice. *)
Lemma destruct_idempotent_witness :
  ∃ s', destruct key_order_iteritems state_B = (Return tt, s')
        ∧ destruct key_order_iteritems s' = (Return tt, s').
Proof.
  exact (destruct_idempotent key_order_iteritems key_order_iteritems_perm state_B).
Defined.

(** Uniqueness of names, checked on the list of the entries. *)
Lemma NoDup_fmap_eq {A B : Type} (f : A → B) (l : list A) (x y : A) :
  NoDup (f <$> l) → x ∈ l → y ∈ l → f x = f y → x = y.
Proof.
  intros Hnodup [i Hi]%list_elem_of_lookup [j Hj]%list_elem_of_lookup Heq.
  assert (i = j) as ->; [|congruence].
  apply (NoDup_lookup _ i j (f x) Hnodup); rewrite list_lookup_fmap.
  - by rewrite Hi.
  - by rewrite Hj, Heq.
Qed.

Lemma port_names_unique_check (ports : gmap Z DataPort) :
  NoDup ((λ entry, port_name entry.2) <$> map_to_list ports) →
  port_names_unique ports.
Proof.
  intros Hnodup key1 port1 key2 port2 Hkey1%elem_of_map_to_list
    Hkey2%elem_of_map_to_list Hname.
  assert ((key1, port1) = (key2, port2)) as [= -> _]; [|done].
  by apply (NoDup_fmap_eq (λ entry : Z * DataPort, port_name entry.2)
              (map_to_list ports)).
Qed.

Lemma outcome_names_unique_check (outcomes : gmap Z Outcome) :
  NoDup ((λ entry, outcome_name entry.2) <$> map_to_list outcomes) →
  outcome_names_unique outcomes.
Proof.
  intros Hnodup key1 outcome1 key2 outcome2 Hkey1%elem_of_map_to_list
    Hkey2%elem_of_map_to_list Hname.
  assert ((key1, outcome1) = (key2, outcome2)) as [= -> _]; [|done].
  by apply (NoDup_fmap_eq (λ entry : Z * Outcome, outcome_name entry.2)
              (map_to_list outcomes)).
Qed.

Lemma state_B_elements_unique : elements_unique state_B.
Proof.
  split; [|split; [|split]].
  - apply port_names_unique_check. apply (bool_decide_unpack _). by vm_compute.
  - apply port_names_unique_check. apply (bool_decide_unpack _). by vm_compute.
  - intros key [port Hkey]. unfold state_B, _input_data_ports in Hkey.
    apply lookup_singleton_Some in Hkey as [<- _]. reflexivity.
  - apply outcome_names_unique_check. apply (bool_decide_unpack _). by vm_compute.
Qed.

(** On ["B"]: adding an outcome whose name is taken, adding an input port,
    removing the outcome 0, removing the reserved outcome -1 by force, and
    destructing. *)
Lemma operations_keep_elements_unique_witness :
  elements_unique state_B
  ∧ elements_unique
      (foldl (λ s call,
                state_after_call key_order_iteritems counting_id_generator
                  counting_id_generator no_init_error parent_accepts
                  container_accepts call s)
         state_B
         [CallAddOutcome "success" None;
          CallAddInputDataPort "second" T_int VNone None;
          CallRemoveOutcome 0 false; CallRemoveOutcome (-1) true; CallDestruct]).
Proof.
  split; [exact state_B_elements_unique|].
  exact (operations_keep_elements_unique key_order_iteritems
           key_order_iteritems_perm counting_id_generator counting_id_generator
           no_init_error parent_accepts container_accepts
           [CallAddOutcome "success" None;
            CallAddInputDataPort "second" T_int VNone None;
            CallRemoveOutcome 0 false; CallRemoveOutcome (-1) true; CallDestruct]
           state_B state_B_elements_unique).
Defined.

(** [State("A")], with default arguments otherwise. *)
Lemma State_init_constructs_well_formed_state_witness :
  State_init key_order_iteritems "A" parent_accepts container_accepts
    EXECUTION None (Some "A") None None None None blank
  = (Return tt, state_A_constructed)
  ∧ has_reserved_outcomes state_A_constructed
  ∧ elements_unique state_A_constructed
  ∧ _name state_A_constructed = "Untitled".
Proof.
  assert (State_init key_order_iteritems "A" parent_accepts container_accepts
            EXECUTION None (Some "A") None None None None blank
          = (Return tt, state_A_constructed)) as Hinit by (vm_compute; reflexivity).
  split; [exact Hinit|].
  destruct (State_init_constructs_well_formed_state key_order_iteritems
              key_order_iteritems_perm "A" parent_accepts container_accepts
              EXECUTION None (Some "A") None None None None blank
              state_A_constructed Hinit)
    as (_ & Hnames & _ & _ & Hreserved & Hunique & _).
  split; [exact Hreserved|]. split; [exact Hunique|].
  exact (f_equal (λ fields : StateType * string * string * option ContainerState,
                    fields.1.1.2) Hnames).
Defined.

(** The id 2 is free in ["B"], the id 1 is the id of its output port. *)
Lemma _check_data_port_id_spec_witness :
  (_check_data_port_id key_order_iteritems state_B
     (mkDataPort 2 "input" T_int VNone) None).1 = true
  ∧ _check_data_port_name key_order_iteritems state_B
      (mkDataPort 2 "input" T_int VNone) None = valid
  ∧ (_check_data_port_id key_order_iteritems state_B
       (mkDataPort 1 "other" T_int VNone) (Some Input)).1 ≠ true.
Proof.
  destruct (_check_data_port_id_spec key_order_iteritems key_order_iteritems_perm
              state_B (mkDataPort 2 "input" T_int VNone))
    as (Hnew & _ & _ & Hname).
  destruct (_check_data_port_id_spec key_order_iteritems key_order_iteritems_perm
              state_B (mkDataPort 1 "other" T_int VNone))
    as (_ & Hstored & _ & _).
  split; [|split].
  - apply Hnew. split; reflexivity.
  - apply Hname; reflexivity.
  - intros Hvalid%Hstored. discriminate Hvalid.
Defined.

(** ["G"] is no library state and has the input port "port". *)
Lemma get_default_input_values_for_state_keys_witness :
  ∃ result_dict,
    (get_default_input_values_for_state key_order_iteritems {[ "x" := VInt 42 ]}
       state_G state_A).1
    = Return result_dict
    ∧ is_Some (result_dict !! "port")
    ∧ result_dict !! "x" = None.
Proof.
  destruct (get_default_input_values_for_state_keys key_order_iteritems
              key_order_iteritems_perm {[ "x" := VInt 42 ]} state_G state_A)
    as (records & _ & Hreturns & Hkeys & _).
  destruct (Hreturns eq_refl) as [result_dict Hresult].
  exists result_dict. split; [exact Hresult|]. split.
  - apply (Hkeys result_dict Hresult).
    exists 0, (mkDataPort 0 "port" T_int (VStr "$x")). split; reflexivity.
  - destruct (result_dict !! "x") as [value|] eqn:Hvalue; [|reflexivity].
    assert (is_Some (result_dict !! "x")) as Hsome by (by eexists).
    apply (Hkeys result_dict Hresult) in Hsome as (key & port & Hport & Hname).
    unfold state_G, _input_data_ports in Hport.
    apply lookup_singleton_Some in Hport as [_ <-]. discriminate Hname.
Defined.
